(** * Latency-aware matchmaking and broadcaster registration

    A shallow embedding of [server/evr_matchmaker.go] and
    [server/evr_pipeline_broadcaster.go].

    - Durations are [time.Duration] values: signed nanosecond counts in [Z].
    - Go maps are stdpp [gmap]s; slices are lists.
    - Calls into collaborators that live outside these two files (match
      registry, transport, party registry, identity directory, ...) are
      answered by a [World] record of oracles, and every such call is
      recorded as an [Event] in the state's trace, in program order.
    - Functions that thread state and errors are written in the state and
      error monad [M]. *)

From stdpp Require Import gmap strings list pretty sorting.
From Stdlib Require Import ZArith Lia Ascii.

Local Open Scope string_scope.
Local Open Scope list_scope.
Local Open Scope Z_scope.

(** ** Go runtime pieces *)

Module time.
Definition Duration : Type := Z.
Definition Nanosecond : Duration := 1.
Definition Microsecond : Duration := 1000 * Nanosecond.
Definition Millisecond : Duration := 1000 * Microsecond.
Definition Second : Duration := 1000 * Millisecond.
End time.

Module math.
(** [math.Round] applied to the quotient [n / d] of two integers, [0 < d]:
    the nearest integer, halves rounded away from zero. *)
Definition Round_div (n d : Z) : Z :=
  if 0 <=? n then (2 * n + d) / (2 * d) else - ((2 * (- n) + d) / (2 * d)).
End math.

(** [int32(x)] and [int(x)] on a 64-bit platform: two's complement wrap. *)
Definition int32 (x : Z) : Z := (x + 2 ^ 31) mod 2 ^ 32 - 2 ^ 31.
Definition int64 (x : Z) : Z := (x + 2 ^ 63) mod 2 ^ 64 - 2 ^ 63.

Module strings.
Fixpoint Join (elems : list string) (sep : string) : string :=
  match elems with
  | [] => ""
  | [s] => s
  | s :: rest => s +:+ sep +:+ Join rest sep
  end.
End strings.

(** [sort.SliceStable] on a slice of at most 20 elements runs a single
    insertion-sort block: [for i := a+1; i < b; i++ { for j := i; j > a &&
    less(j, j-1); j-- { swap(j, j-1) } }].  [insertLeft] moves the new last
    element leftwards through the already processed prefix, which is kept
    reversed. *)
Fixpoint insertLeft {A} (less : A → A → bool) (x : A) (revPrefix : list A) : list A :=
  match revPrefix with
  | [] => [x]
  | y :: rest => if less x y then y :: insertLeft less x rest else x :: y :: rest
  end.

Definition insertionSort {A} (less : A → A → bool) (data : list A) : list A :=
  reverse (foldl (λ acc x, insertLeft less x acc) [] data).

(** ** Data model *)

Module uuid.
Definition UUID : Type := string.
Definition Nil : UUID := "00000000-0000-0000-0000-000000000000".
End uuid.

Module evr.
(** [evr.Symbol] is a 64-bit hash; [Symbol(0)] is the zero value. *)
Definition Symbol : Type := Z.

Record Endpoint := {
  InternalIP : string;
  ExternalIP : string;
  Port : Z;
}.

(** Messages sent to the peer by the functions below. *)
Inductive BroadcasterRegistrationFailureCode :=
| BroadcasterRegistration_Failure.

Inductive Message :=
| NewLobbyPingRequest (timeoutMs : Z) (candidates : list Endpoint)
| NewSTcpConnectionUnrequireEvent
| NewBroadcasterRegistrationFailure (code : BroadcasterRegistrationFailureCode)
| NewBroadcasterRegistrationSuccess (serverId : Z) (externalIP : string).

(** One probe reply, seen through its accessors [EndpointID()] and [RTT()]. *)
Record EndpointPingResult := {
  EndpointID : string;
  RTT : time.Duration;
}.
End evr.

(** Game modes that [MatchSort] distinguishes; every other symbol takes the
    [default] branch of its switch. *)
Inductive GameModeSymbol :=
| ModeArenaPublic
| ModeCombatPublic
| ModeSocialPublic
| ModeOther (s : evr.Symbol).

Inductive LobbyTypeValue :=
| PublicLobby
| UnassignedLobby
| OtherLobby (n : Z).

Inductive TeamIndexValue :=
| Spectator
| Moderator
| OtherTeam (n : Z).

Global Instance GameModeSymbol_eq_dec : EqDecision GameModeSymbol.
Proof. solve_decision. Defined.
Global Instance LobbyTypeValue_eq_dec : EqDecision LobbyTypeValue.
Proof. solve_decision. Defined.
Global Instance TeamIndexValue_eq_dec : EqDecision TeamIndexValue.
Proof. solve_decision. Defined.

Record MatchBroadcaster := {
  SessionID : string;
  UserID : string;
  ServerId : Z;
  Endpoint : evr.Endpoint;
  Region : evr.Symbol;
  VersionLock : Z;
  Channels : list uuid.UUID;
  HostedChannels : list uuid.UUID;
  Tags : list string;
}.

(** The fields of the session label that the matchmaker reads.  [Channel] is
    a pointer in the source: [None] is the nil pointer. *)
Record EvrMatchState := {
  MatchID : uuid.UUID;
  LobbyType : LobbyTypeValue;
  Mode : GameModeSymbol;
  TeamIndex : TeamIndexValue;
  Size : Z;
  MaxSize : Z;
  TeamSize : Z;
  Players : list string;
  Channel : option uuid.UUID;
  Broadcaster : MatchBroadcaster;
  SpawnedBy : string;
}.

Record LatencyMetric := {
  lm_Endpoint : evr.Endpoint;
  lm_RTT : time.Duration;
  lm_Timestamp : Z;
}.

(** ** Pure ranking helpers *)

(** [mroundRTT] divides and rounds in [float64].  Both conversions and the
    division are exact enough for the integer quotient rounding below to
    agree with the source whenever [|rtt| < 2^52] nanoseconds (about 52
    days) and [modulus] is 10ms; no [int64] overflow occurs in that range. *)
Definition mroundRTT (rtt modulus : time.Duration) : time.Duration :=
  math.Round_div rtt modulus * modulus.

Definition RTTweightedPopulationCmp (i j : time.Duration) (o p : Z) : bool :=
  if (90 * time.Millisecond <? i) && (j <? 90 * time.Millisecond) then true
  else if (i <? 90 * time.Millisecond) && (90 * time.Millisecond <? j) then false
  else if p <? o then true
  else if o <? p then false
  else i <? j.

Definition PopulationCmp (o p : Z) (i j : time.Duration) : bool :=
  if o =? p then i <? j else p <? o.

(** ** Errors *)

Module codes.
Inductive Code :=
| InvalidArgument
| Internal
| ResourceExhausted
| FailedPrecondition
| AlreadyExists
| PermissionDenied.
End codes.

(** Error values.  [fmt_Errorf] and [status_Errorf] keep their format string
    and arguments instead of the rendered text.  [external] stands for an
    error value handed back by a collaborator; [nil_dereference] is the
    run-time panic of dereferencing a nil pointer. *)
Inductive error :=
| ErrMatchmakingCanceled
| ErrMatchmakingPingTimeout
| external (msg : string)
| fmt_Errorf (format : string) (args : list fmtArg)
| status_Errorf (c : codes.Code) (format : string) (args : list fmtArg)
| nil_dereference
with fmtArg :=
| ArgError (e : option error)
| ArgString (s : string).

Definition is_panic (e : error) : bool :=
  match e with nil_dereference => true | _ => false end.

(** ** Query terms

    The [Query(operator, boost)] methods of the label types render one
    predicate of the search expression; they are declared in another file, so
    the builder below keeps each part as a term and [World.QueryString]
    renders it. *)

Module Query.
Inductive Operator := Must | MustNot | Should.

Inductive Term :=
| OpenLobby
| LobbyType (t : LobbyTypeValue)
| GameMode (m : GameModeSymbol)
| MatchId (id : uuid.UUID)
| Channels (cs : list uuid.UUID)
| HostedChannels (cs : list uuid.UUID)
| Channel (c : uuid.UUID)
| Region (r : evr.Symbol).

(** One element of [qparts]: [x.Query(o, boost)], or the literal
    [fmt.Sprintf("+label.size:<=%d", n)]. *)
Inductive Part :=
| Q (t : Term) (o : Operator) (boost : Z)
| SizeAtMost (n : Z).

Definition operator_of (p : Part) : option Operator :=
  match p with Q _ o _ => Some o | SizeAtMost _ => None end.
End Query.

(** ** State, events and oracles *)

Record sessionWS := {
  ws_id : uuid.UUID;
  ws_userID : uuid.UUID;
  ws_Username : string;
  ws_ClientIP : string;
}.

Record MatchmakingSession := {
  Label : EvrMatchState;
}.

Record Presence := {
  pr_Node : string;
  pr_SessionID : uuid.UUID;
  pr_UserID : uuid.UUID;
  pr_Username : string;
}.

Record UserPresence := {
  up_UserId : string;
  up_SessionId : string;
  up_Username : string;
}.

(** [ph.members.Size()] is the length of [members]. *)
Record PartyHandler := {
  ph_ID : uuid.UUID;
  ph_members : list Presence;
  ph_maxSize : Z;
}.

Record MatchmakingSettings := {
  QueryAddon : string;
  GroupID : string;
  MinCount : Z;
  MaxCount : Z;
  CountMultiple : Z;
}.

(** A match as returned by the match registry. *)
Record apiMatch := {
  am_Size : Z;
  am_LabelValue : string;
}.

(** Which case of the [select] in [PingEndpoints] fires. *)
Inductive SelectOutcome :=
| CtxDone
| TimerFired
| PingResults (results : list evr.EndpointPingResult).

(** How a health probe ends; see [BroadcasterHealthcheck]. *)
Inductive ProbeOutcome :=
| DialFailed (e : error)
| SetDeadlineFailed (e : error)
| RandFailed (e : error)
| WriteFailed (e : error)
| ReadTimedOut (e : error)
| ReadFailed (e : error)
| UnexpectedSymbol (elapsed : time.Duration)
| UnexpectedToken (elapsed : time.Duration)
| Acknowledged (elapsed : time.Duration).

Inductive Event :=
| EvListMatches (limit minSize maxSize : Z) (query : string)
| EvLock (id : string)
| EvUnlock (id : string)
| EvUnlockAfter (id : string) (delay : time.Duration)
| EvGetMatch (id : string)
| EvSendEvr (msgs : list evr.Message)
| EvAwaitPing (timeout : time.Duration)
| EvBuildQuery (rtts : list LatencyMetric)
| EvLoadMatchmakingSettings (userID : string)
| EvPartyJoin (partyID : uuid.UUID) (presence : list Presence)
| EvPartyCreate (open : bool) (maxSize : Z) (leader : UserPresence)
| EvCounter (name : string)
| EvTrackMulti (query : string)
| EvMatchmakerAdd (sessionID partyID query : string)
    (minCount maxCount countMultiple : Z) (stringProps : gmap string string)
    (numericProps : gmap string Z)
| EvSessionClose (reason : error)
| EvGetUserIdByDiscordId (discordId : string)
| EvAuthenticateEmail (email password : string)
| EvBroadcasterSession (userId username : string)
| EvGoRetrieveIPinfo (ip : string)
| EvHealthcheck (ip : string) (port : Z) (timeout : time.Duration)
| EvGoSendDiscordError (e : option error) (discordId : string)
| EvGetBroadcasterHostInfo (userId discordId : string) (guildIds : list string)
| EvCreateMatch (config : MatchBroadcaster)
| EvProcessJoin (matchId : string).

Record St := {
  broadcasters : gmap string evr.Endpoint;
  LatencyCache : gmap string LatencyMetric;
  Party : option PartyHandler;
  tickets : gmap string string;
  broadcasterRegistrationBySession : gmap string MatchBroadcaster;
  matchBySession : gmap string string;
  trace : list Event;
}.

(** Everything that is declared or decided outside the two source files. *)
Record World := {
  (* helpers declared in other files of the package; [GetPingCandidates] and
     [GetLatencies] read the player's latency cache, passed as first argument *)
  Endpoint_ID : evr.Endpoint → string;
  LatencyMetric_ID : LatencyMetric → string;
  EvrMatchState_ID : EvrMatchState → string;
  MatchMaxSize : Z;
  SystemUserID : string;
  node : string;
  externalIP : string;
  placeholderEmail : string;
  NewV5 : uuid.UUID → string → uuid.UUID;
  FromStringOrNil : string → uuid.UUID;
  UpdateBroadcasters : gmap string evr.Endpoint → list evr.Endpoint → gmap string evr.Endpoint;
  GetPingCandidates : gmap string LatencyMetric → list evr.Endpoint → list evr.Endpoint;
  GetLatencies : gmap string LatencyMetric → uuid.UUID → list evr.Endpoint → gmap string LatencyMetric;
  BuildQuery : MatchmakingSession → list LatencyMetric →
               error + (string * gmap string string * gmap string Z);
  json_Unmarshal : string → option EvrMatchState → option EvrMatchState;
  sort_SliceStable : ∀ A : Type, (A → A → bool) → list A → list A;
  QueryString : Query.Term → Query.Operator → Z → string;
  (* answers of the collaborators *)
  listMatches : Z → Z → Z → string → error + list apiMatch;
  GetMatch : string → option apiMatch * option error;
  SendEvr : list evr.Message → option error;
  awaitPing : list evr.Endpoint → SelectOutcome;
  Now : Z;
  LoadMatchmakingSettings : string → error + MatchmakingSettings;
  parties : gmap uuid.UUID PartyHandler;
  partyCreate : bool → Z → UserPresence → PartyHandler;
  ctxEvrID : option string;
  TrackMulti : string → bool;
  matchmakerAdd : string → string → string → error + string;
  authDetails : error + (string * string * list string * list string);
  GetUserIdByDiscordId : string → error + string;
  AuthenticateEmail : string → string → error + (string * string);
  BroadcasterSession : string → string → option error;
  isPrivateIP : string → bool;
  probe : string → Z → ProbeOutcome;
  getBroadcasterHostInfo : string → string → list string → error + list uuid.UUID;
  NewEvrMatchState : MatchBroadcaster → option error;
  CreateMatch : MatchBroadcaster → error + string;
  ProcessRequest : string → bool;
}.

(** ** The state and error monad *)

Definition M (A : Type) : Type := St → (error + A) * St.

Global Instance M_ret : MRet M := λ A a st, (inr a, st).
Global Instance M_bind : MBind M := λ A B f m st,
  match m st with
  | (inl e, st') => (inl e, st')
  | (inr a, st') => f a st'
  end.

Definition throw {A} (e : error) : M A := λ st, (inl e, st).
Definition gets {A} (f : St → A) : M A := λ st, (inr (f st), st).
Definition modify (f : St → St) : M unit := λ st, (inr (), f st).

Definition with_trace (f : list Event → list Event) (st : St) : St :=
  {| broadcasters := broadcasters st; LatencyCache := LatencyCache st;
     Party := Party st; tickets := tickets st;
     broadcasterRegistrationBySession := broadcasterRegistrationBySession st;
     matchBySession := matchBySession st; trace := f (trace st) |}.

Definition emit (ev : Event) : M unit := modify (with_trace (λ t, t ++ [ev])).

(** Runs [m] and hands its error, if any, to the caller as a value, the way
    a Go caller receives [err]; a panic keeps unwinding. *)
Definition catch {A} (m : M A) : M (error + A) := λ st,
  match m st with
  | (inl e, st') => if is_panic e then (inl e, st') else (inr (inl e), st')
  | (inr a, st') => (inr (inr a), st')
  end.

Definition set_broadcasters (b : gmap string evr.Endpoint) (st : St) : St :=
  {| broadcasters := b; LatencyCache := LatencyCache st;
     Party := Party st; tickets := tickets st;
     broadcasterRegistrationBySession := broadcasterRegistrationBySession st;
     matchBySession := matchBySession st; trace := trace st |}.

Definition set_LatencyCache (c : gmap string LatencyMetric) (st : St) : St :=
  {| broadcasters := broadcasters st; LatencyCache := c;
     Party := Party st; tickets := tickets st;
     broadcasterRegistrationBySession := broadcasterRegistrationBySession st;
     matchBySession := matchBySession st; trace := trace st |}.

Definition set_Party (ph : PartyHandler) (st : St) : St :=
  {| broadcasters := broadcasters st; LatencyCache := LatencyCache st;
     Party := Some ph; tickets := tickets st;
     broadcasterRegistrationBySession := broadcasterRegistrationBySession st;
     matchBySession := matchBySession st; trace := trace st |}.

Definition AddTicket (ticket query : string) (st : St) : St :=
  {| broadcasters := broadcasters st; LatencyCache := LatencyCache st;
     Party := Party st; tickets := <[ticket := query]> (tickets st);
     broadcasterRegistrationBySession := broadcasterRegistrationBySession st;
     matchBySession := matchBySession st; trace := trace st |}.

Definition store_registration (sid : string) (config : MatchBroadcaster) (st : St) : St :=
  {| broadcasters := broadcasters st; LatencyCache := LatencyCache st;
     Party := Party st; tickets := tickets st;
     broadcasterRegistrationBySession :=
       <[sid := config]> (broadcasterRegistrationBySession st);
     matchBySession := matchBySession st; trace := trace st |}.

Definition store_matchBySession (sid matchId : string) (st : St) : St :=
  {| broadcasters := broadcasters st; LatencyCache := LatencyCache st;
     Party := Party st; tickets := tickets st;
     broadcasterRegistrationBySession := broadcasterRegistrationBySession st;
     matchBySession := <[sid := matchId]> (matchBySession st); trace := trace st |}.

(** ** Match Query Builder *)

Definition renderPart (w : World) (p : Query.Part) : string :=
  match p with
  | Query.Q t o boost => QueryString w t o boost
  | Query.SizeAtMost n => "+label.size:<=" +:+ pretty n
  end.

(** The [qparts] slice of [buildMatchQueryFromLabel], before rendering.
    [*ml.Channel] dereferences the channel pointer. *)
Definition buildMatchQueryParts (ml : EvrMatchState) : error + list Query.Part :=
  let boost := 0 in
  let qparts :=
    [ Query.Q Query.OpenLobby Query.Must boost;
      Query.Q (Query.LobbyType (LobbyType ml)) Query.Must boost;
      Query.Q (Query.GameMode (Mode ml)) Query.Must boost ] in
  let qparts :=
    if decide (TeamIndex ml ≠ Spectator ∧ TeamIndex ml ≠ Moderator)
    then qparts ++ [Query.SizeAtMost (Size ml)] else qparts in
  let qparts :=
    if decide (MatchID ml ≠ uuid.Nil)
    then qparts ++ [Query.Q (Query.MatchId (MatchID ml)) Query.MustNot boost]
    else qparts in
  let qparts :=
    if decide (length (Channels (Broadcaster ml)) ≠ 0%nat)
    then qparts ++ [Query.Q (Query.Channels (Channels (Broadcaster ml))) Query.Must 0]
    else qparts in
  match Channel ml with
  | None => inl nil_dereference
  | Some channel =>
    let qparts :=
      if decide (channel ≠ uuid.Nil)
      then qparts ++ [Query.Q (Query.Channel channel) Query.Should 3] else qparts in
    let qparts :=
      if decide (Region (Broadcaster ml) ≠ 0)
      then qparts ++ [Query.Q (Query.Region (Region (Broadcaster ml))) Query.Should 2]
      else qparts in
    inr qparts
  end.

Definition buildMatchQueryFromLabel (w : World) (ml : EvrMatchState) : error + string :=
  match buildMatchQueryParts ml with
  | inl e => inl e
  | inr qparts => inr (strings.Join (renderPart w <$> qparts) " ")
  end.

(** ** Latency probing *)

Definition sendPingRequest (w : World) (candidates : list evr.Endpoint) : M unit :=
  let msgs := [evr.NewLobbyPingRequest 275 candidates;
               evr.NewSTcpConnectionUnrequireEvent] in
  emit (EvSendEvr msgs);;
  match SendEvr w msgs with
  | Some err => throw err
  | None => mret ()
  end.

Definition getEndpointLatencies (w : World) (session : sessionWS)
    (endpoints : list evr.Endpoint) : M (list LatencyMetric) :=
  cache ← gets LatencyCache;
  let endpointRTTs := GetLatencies w cache (ws_userID session) endpoints in
  mret (omap (λ e, endpointRTTs !! Endpoint_ID w e) endpoints).

(** The loop over the probe replies: replies for endpoints the registry does
    not know are skipped, the others are stored under the metric's id.
    [cache.Store] is declared outside these files; it is taken to be the map
    store its call site shows, keeping the metric as passed under the given
    key. *)
Fixpoint storeResults (w : World) (known : gmap string evr.Endpoint)
    (results : list evr.EndpointPingResult)
    (cache : gmap string LatencyMetric) : gmap string LatencyMetric :=
  match results with
  | [] => cache
  | response :: rest =>
    match known !! evr.EndpointID response with
    | None => storeResults w known rest cache
    | Some broadcaster =>
      let r := {| lm_Endpoint := broadcaster;
                  lm_RTT := evr.RTT response;
                  lm_Timestamp := Now w |} in
      storeResults w known rest (<[LatencyMetric_ID w r := r]> cache)
    end
  end.

Definition PingEndpoints (w : World) (session : sessionWS)
    (msession : MatchmakingSession) (endpoints : list evr.Endpoint)
    : M (list LatencyMetric) :=
  if decide (length endpoints = 0%nat) then mret []
  else
    modify (λ st, set_broadcasters (UpdateBroadcasters w (broadcasters st) endpoints) st);;
    cache ← gets LatencyCache;
    let candidates := GetPingCandidates w cache endpoints in
    (if decide (0 < length candidates)%nat then
       sendPingRequest w candidates;;
       emit (EvAwaitPing (5 * time.Second));;
       match awaitPing w candidates with
       | CtxDone => throw ErrMatchmakingCanceled
       | TimerFired => throw ErrMatchmakingPingTimeout
       | PingResults results =>
         modify (λ st, set_LatencyCache
                         (storeResults w (broadcasters st) results (LatencyCache st)) st)
       end
     else mret ());;
    getEndpointLatencies w session endpoints.

(** ** Match Sorter/Filter *)

Record labelData := {
  ld_Id : string;
  ld_Size : Z;
  ld_RTT : time.Duration;
}.

(** [endpointRTTs]: endpoint id to RTT rounded to the nearest [modulus]. *)
Definition roundedRTTs (w : World) (modulus : time.Duration)
    (result : list LatencyMetric) : gmap string time.Duration :=
  foldl (λ m r, <[Endpoint_ID w (lm_Endpoint r) := mroundRTT (lm_RTT r) modulus]> m)
        ∅ result.

(** Reading a Go map at a missing key yields the zero value. *)
Definition rttOf (endpointRTTs : gmap string time.Duration) (id : string) : time.Duration :=
  default 0 (endpointRTTs !! id).

Definition labelDatas (w : World) (endpointRTTs : gmap string time.Duration)
    (labels : list EvrMatchState) : list labelData :=
  omap (λ label,
          let id := Endpoint_ID w (Endpoint (Broadcaster label)) in
          let rtt := rttOf endpointRTTs id in
          if (rtt =? 0) || (270 * time.Millisecond <? rtt) then None
          else Some {| ld_Id := id; ld_Size := Size label; ld_RTT := rtt |})
       labels.

Definition sortDatas (w : World) (mode : GameModeSymbol)
    (datas : list labelData) : list labelData :=
  match mode with
  | ModeArenaPublic =>
    sort_SliceStable w _
      (λ i j, RTTweightedPopulationCmp (ld_RTT i) (ld_RTT j) (ld_Size i) (ld_Size j))
      datas
  | _ =>
    sort_SliceStable w _
      (λ i j, PopulationCmp (ld_Size i) (ld_Size j) (ld_RTT i) (ld_RTT j))
      datas
  end.

(** The inner loop of the last step: the first label on the data's endpoint. *)
Definition firstOnEndpoint (w : World) (labels : list EvrMatchState) (id : string)
    : option EvrMatchState :=
  find (λ label, bool_decide (Endpoint_ID w (Endpoint (Broadcaster label)) = id)) labels.

Definition matchDatas (w : World) (labels : list EvrMatchState)
    (datas : list labelData) : list (EvrMatchState * time.Duration) :=
  omap (λ data, (λ label, (label, ld_RTT data)) <$> firstOnEndpoint w labels (ld_Id data))
       datas.

(** Everything [MatchSort] does with the probe result. *)
Definition rankLabels (w : World) (mode : GameModeSymbol)
    (labels : list EvrMatchState) (result : list LatencyMetric)
    : list EvrMatchState * list time.Duration :=
  let modulus := 10 * time.Millisecond in
  let endpointRTTs := roundedRTTs w modulus result in
  let datas := sortDatas w mode (labelDatas w endpointRTTs labels) in
  let pairs := matchDatas w labels datas in
  (pairs.*1, pairs.*2).

(** [lo.Values] of the map of unique endpoints.  Go leaves the order open;
    the model takes the map's own enumeration order. *)
Definition uniqueEndpoints (w : World) (labels : list EvrMatchState) : list evr.Endpoint :=
  (map_to_list
     (foldl (λ m label, <[Endpoint_ID w (Endpoint (Broadcaster label)) :=
                            Endpoint (Broadcaster label)]> m)
            (∅ : gmap string evr.Endpoint) labels)).*2.

Definition MatchSort (w : World) (session : sessionWS) (msession : MatchmakingSession)
    (labels : list EvrMatchState) : M (list EvrMatchState * list time.Duration) :=
  if decide (length labels = 0%nat) then mret (labels, [])
  else
    result ← PingEndpoints w session msession (uniqueEndpoints w labels);
    mret (rankLabels w (Mode (Label msession)) labels result).

(** ** Backfill Selector *)

Definition MatchJoinGracePeriod : time.Duration := 3 * time.Second.

(** Labels come back as pointers; a label that fails to unmarshal leaves a
    nil pointer ([None]) in the slice. *)
Definition MatchSearch (w : World) (ml : EvrMatchState)
    : M (list (option EvrMatchState) * string) :=
  match buildMatchQueryFromLabel w ml with
  | inl e => throw e
  | inr query =>
    let minSize := 1 in
    let maxSize := MatchMaxSize w - 1 in
    let limit := 50 in
    emit (EvListMatches limit minSize maxSize query);;
    match listMatches w limit minSize maxSize query with
    | inl err =>
      throw (status_Errorf codes.Internal "Failed to find matches: %v" [ArgError (Some err)])
    | inr matches =>
      mret ((λ m, json_Unmarshal w (am_LabelValue m) None) <$> matches, query)
    end
  end.

(** [MatchSort] dereferences every label of a non-empty slice before it does
    anything else, so a nil label panics there; an empty slice has none. *)
Definition derefLabels (labels : list (option EvrMatchState)) : M (list EvrMatchState) :=
  match mapM id labels with
  | Some ls => mret ls
  | None => throw nil_dereference
  end.

(** The selection loop of [Backfill]; [want] is [msession.Label.TeamIndex].
    Unmarshalling overwrites the label in place, hence [Some label] as the
    previous value; that a label occurring twice in the slice is one shared
    object is not tracked. *)
Fixpoint selectBackfill (w : World) (want : TeamIndexValue)
    (labels : list EvrMatchState) : M (option EvrMatchState) :=
  match labels with
  | [] => mret None
  | label :: rest =>
    let id := EvrMatchState_ID w label in
    emit (EvLock id);;
    emit (EvGetMatch id);;
    match GetMatch w id with
    | (None, _) => emit (EvUnlock id);; selectBackfill w want rest
    | (Some match_, err) =>
      match json_Unmarshal w (am_LabelValue match_) (Some label) with
      | None => emit (EvUnlock id);; selectBackfill w want rest
      | Some label =>
        if decide (err ≠ None) then
          emit (EvUnlock id);; selectBackfill w want rest
        else if int32 (int32 (MaxSize label) + 1) <? am_Size match_ then
          emit (EvUnlock id);; selectBackfill w want rest
        else if bool_decide (want ≠ Spectator ∧ want ≠ Moderator)
                && (int64 (int64 (TeamSize label * 2) - Z.of_nat (length (Players label))) <? 1) then
          emit (EvUnlock id);; selectBackfill w want rest
        else
          emit (EvUnlockAfter id MatchJoinGracePeriod);;
          mret (Some label)
      end
    end
  end.

(** [Backfill] returns [(selected, query, err)]. *)
Definition Backfill (w : World) (session : sessionWS) (msession : MatchmakingSession)
    : M (option EvrMatchState * string * option error) :=
  if decide (LobbyType (Label msession) ≠ PublicLobby) then
    mret (None, "",
          Some (status_Errorf codes.InvalidArgument "Cannot backfill private lobbies" []))
  else
    found ← catch (MatchSearch w (Label msession));
    match found with
    | inl err =>
      mret (None, "",
            Some (status_Errorf codes.Internal "Failed to search for matches: %v"
                                [ArgError (Some err)]))
    | inr (labels, query) =>
      sorted ← catch (labels ← derefLabels labels;
                      MatchSort w session msession labels);
      match sorted with
      | inl err =>
        mret (None, query,
              Some (status_Errorf codes.Internal "Failed to filter matches: %v"
                                  [ArgError (Some err)]))
      | inr (labels, _) =>
        if decide (length labels = 0%nat) then mret (None, query, None)
        else
          selected ← selectBackfill w (TeamIndex (Label msession)) labels;
          mret (selected, query, None)
      end
    end.

(** ** Matchmaking Session Controller *)

(** [joinPartyGroup] returns [(ph, err)]; the handler comes back in every
    case.  The handler's own mutex is held across the size check and is not
    traced. *)
Definition joinPartyGroup (w : World)
    (userID sessionID username node groupID : string)
    : M (PartyHandler * option error) :=
  let userPresence :=
    {| up_UserId := userID; up_SessionId := sessionID; up_Username := username |} in
  let presence :=
    [ {| pr_Node := node; pr_SessionID := FromStringOrNil w sessionID;
         pr_UserID := FromStringOrNil w userID; pr_Username := username |} ] in
  let partyID := NewV5 w uuid.Nil groupID in
  match parties w !! partyID with
  | Some ph =>
    if Z.of_nat (length (ph_members ph)) <? ph_maxSize ph then
      emit (EvPartyJoin partyID presence);;
      mret (ph, None)
    else
      emit (EvCounter "partyregistry_error_party_full");;
      mret (ph, Some (status_Errorf codes.ResourceExhausted "Party is full" []))
  | None =>
    emit (EvCounter "partyregistry_create");;
    emit (EvPartyCreate true 8 userPresence);;
    mret (partyCreate w true 8 userPresence, None)
  end.

(** [numericProps] holds [float64] values, carried by their bit patterns;
    [MatchMake] only passes the map on. *)
Definition MatchMake (w : World) (session : sessionWS) (msession : MatchmakingSession)
    : M string :=
  endpoints ← gets (λ st, (map_to_list (broadcasters st)).*2);
  allRTTs ← PingEndpoints w session msession endpoints;
  emit (EvBuildQuery allRTTs);;
  match BuildQuery w msession allRTTs with
  | inl err =>
    throw (status_Errorf codes.Internal "Failed to build matchmaking query: %v"
                        [ArgError (Some err)])
  | inr (query, stringProps, numericProps) =>
    let sessionID := ws_id session in
    let userID := ws_userID session in
    emit (EvLoadMatchmakingSettings (SystemUserID w));;
    match LoadMatchmakingSettings w (SystemUserID w) with
    | inl err =>
      throw (status_Errorf codes.Internal "Failed to load global matchmaking config: %v"
                          [ArgError (Some err)])
    | inr gconfig =>
      emit (EvLoadMatchmakingSettings userID);;
      match LoadMatchmakingSettings w userID with
      | inl err =>
        throw (status_Errorf codes.Internal "Failed to load matchmaking config: %v"
                            [ArgError (Some err)])
      | inr config =>
        let query := query +:+ " " +:+ QueryAddon gconfig +:+ " " +:+ QueryAddon config in
        '(partyID, stringProps, query) ←
          (if decide (GroupID config ≠ "") then
             '(ph, _) ← joinPartyGroup w userID sessionID (ws_Username session)
                                        (node w) (GroupID config);
             modify (set_Party ph);;
             mret (ph_ID ph,
                   <["party_group" := GroupID config]> stringProps,
                   query +:+ " properties.party_group:" +:+ GroupID config +:+ "^5")
           else mret (uuid.Nil, stringProps, query));
        match ctxEvrID w with
        | None => throw (status_Errorf codes.Internal "EVR ID not found in context" [])
        | Some evrToken =>
          let stringProps := <["evr_id" := evrToken]> stringProps in
          let pID := if decide (partyID ≠ uuid.Nil) then partyID else "" in
          emit (EvTrackMulti query);;
          if negb (TrackMulti w query) then
            throw (status_Errorf codes.Internal "Failed to track user: %v" [ArgError None])
          else
            emit (EvCounter "matchmaker_tickets");;
            emit (EvMatchmakerAdd sessionID pID query (MinCount gconfig) (MaxCount gconfig)
                                  (CountMultiple gconfig) stringProps numericProps);;
            match matchmakerAdd w sessionID pID query with
            | inl err =>
              throw (fmt_Errorf "failed to add to matchmaker: %v" [ArgError (Some err)])
            | inr ticket =>
              modify (AddTicket ticket query);;
              mret ticket
            end
        end
      end
    end
  end.

(** ** Broadcaster Registry *)

Record BroadcasterRegistrationRequest := {
  req_ServerId : Z;
  req_InternalIP : string;
  req_Port : Z;
  req_Region : evr.Symbol;
  req_VersionLock : Z;
}.

(** Sends the failure message and closes the session; the value returned to
    the caller is always an error. *)
Definition errFailedRegistration {A} (w : World) (err : error)
    (code : evr.BroadcasterRegistrationFailureCode) : M A :=
  let msgs := [evr.NewBroadcasterRegistrationFailure code] in
  emit (EvSendEvr msgs);;
  match SendEvr w msgs with
  | Some e =>
    throw (fmt_Errorf "failed to send lobby registration failure: %v" [ArgError (Some e)])
  | None =>
    emit (EvSessionClose err);;
    throw (fmt_Errorf "failed to register game server: %v" [ArgError (Some err)])
  end.

Definition authenticateBroadcaster (w : World) (discordId password : string)
    : M (string * string) :=
  emit (EvGetUserIdByDiscordId discordId);;
  match GetUserIdByDiscordId w discordId with
  | inl err =>
    throw (fmt_Errorf "failed to find user for Discord ID: %v" [ArgError (Some err)])
  | inr userId =>
    let email := userId +:+ "@" +:+ placeholderEmail w in
    emit (EvAuthenticateEmail email password);;
    match AuthenticateEmail w email password with
    | inl _ => throw (fmt_Errorf "password authentication failure" [])
    | inr (userId, username) =>
      emit (EvBroadcasterSession userId ("broadcaster:" +:+ username));;
      match BroadcasterSession w userId ("broadcaster:" +:+ username) with
      | Some err =>
        throw (fmt_Errorf "failed to create broadcaster session: %v" [ArgError (Some err)])
      | None => mret (userId, username)
      end
    end
  end.

Definition broadcasterConfig (userId sessionId : string) (serverId : Z)
    (internalIP externalIP : string) (port : Z) (region : evr.Symbol)
    (versionLock : Z) (tags : list string) : MatchBroadcaster :=
  {| SessionID := sessionId; UserID := userId; ServerId := serverId;
     Endpoint := {| evr.InternalIP := internalIP; evr.ExternalIP := externalIP;
                    evr.Port := port |};
     Region := region; VersionLock := versionLock;
     Channels := []; HostedChannels := [];
     Tags := if decide (0 < length tags)%nat then tags else [] |}.

Definition set_HostedChannels (channels : list uuid.UUID) (c : MatchBroadcaster)
    : MatchBroadcaster :=
  {| SessionID := SessionID c; UserID := UserID c; ServerId := ServerId c;
     Endpoint := Endpoint c; Region := Region c; VersionLock := VersionLock c;
     Channels := Channels c; HostedChannels := channels; Tags := Tags c |}.

Definition newParkingMatch (w : World) (session : sessionWS) (config : MatchBroadcaster)
    : M unit :=
  match NewEvrMatchState w config with
  | Some err => throw (fmt_Errorf "failed to create match state: %v" [ArgError (Some err)])
  | None =>
    emit (EvCreateMatch config);;
    match CreateMatch w config with
    | inl err => throw (fmt_Errorf "failed to create match: %v" [ArgError (Some err)])
    | inr matchId =>
      emit (EvProcessJoin matchId);;
      if negb (ProcessRequest w matchId) then
        throw (fmt_Errorf "failed process join request" [])
      else modify (store_matchBySession (ws_id session) matchId)
    end
  end.

(** The pair [(rtt, err)] that [BroadcasterHealthcheck] returns, by where the
    probe ends: a read that times out yields the sentinel [-1], every other
    failure yields [0] with an error. *)
Definition healthcheckResult (outcome : ProbeOutcome) (ip : string)
    (timeout : time.Duration) : time.Duration * option error :=
  match outcome with
  | DialFailed e =>
    (0, Some (fmt_Errorf "could not establish connection to %v: %v"
                         [ArgString ip; ArgError (Some e)]))
  | SetDeadlineFailed e =>
    (0, Some (fmt_Errorf "could not set deadline for connection to %v: %v"
                         [ArgString ip; ArgError (Some e)]))
  | RandFailed e =>
    (0, Some (fmt_Errorf "could not generate random number for ping request: %v"
                         [ArgError (Some e)]))
  | WriteFailed e =>
    (0, Some (fmt_Errorf "could not send ping request to %v: %v"
                         [ArgString ip; ArgError (Some e)]))
  | ReadTimedOut _ =>
    (-1, Some (fmt_Errorf "ping request to %v timed out (>%dms)"
                          [ArgString ip; ArgString (pretty (timeout / time.Millisecond))]))
  | ReadFailed e =>
    (0, Some (fmt_Errorf "could not read ping response from %v: %v"
                         [ArgString ip; ArgError (Some e)]))
  | UnexpectedSymbol _ =>
    (0, Some (fmt_Errorf "received unexpected response from %v: %v" [ArgString ip]))
  | UnexpectedToken _ =>
    (0, Some (fmt_Errorf "received unexpected response from %v: %v" [ArgString ip]))
  | Acknowledged rtt => (rtt, None)
  end.

Definition BroadcasterHealthcheck (w : World) (ip : string) (port : Z)
    (timeout : time.Duration) : M (time.Duration * option error) :=
  emit (EvHealthcheck ip port timeout);;
  mret (healthcheckResult (probe w ip port) ip timeout).

(** IP addresses are kept in their textual form, so [net.ParseIP] is the
    identity.  The two goroutines are traced where they are started. *)
Definition broadcasterRegistrationRequest (w : World) (session : sessionWS)
    (request : BroadcasterRegistrationRequest) : M unit :=
  match authDetails w with
  | inl err => errFailedRegistration w err evr.BroadcasterRegistration_Failure
  | inr (discordId, password, tags, guildIds) =>
    auth ← catch (authenticateBroadcaster w discordId password);
    match auth with
    | inl err => errFailedRegistration w err evr.BroadcasterRegistration_Failure
    | inr (userId, _) =>
      let clientIP := ws_ClientIP session in
      let extIP := if isPrivateIP w clientIP then externalIP w else clientIP in
      emit (EvGoRetrieveIPinfo extIP);;
      let config :=
        broadcasterConfig userId (ws_id session) (req_ServerId request)
          (req_InternalIP request) extIP (req_Port request) (req_Region request)
          (req_VersionLock request) tags in
      '(rtt, err) ← BroadcasterHealthcheck w (evr.ExternalIP (Endpoint config))
                      (evr.Port (Endpoint config)) (500 * time.Millisecond);
      if (rtt <? 0) || bool_decide (err ≠ None) then
        emit (EvGoSendDiscordError err discordId);;
        errFailedRegistration w
          (fmt_Errorf "broadcaster failed availability check: %v" [ArgError err])
          evr.BroadcasterRegistration_Failure
      else
        emit (EvGetBroadcasterHostInfo userId discordId guildIds);;
        match getBroadcasterHostInfo w userId discordId guildIds with
        | inl err => errFailedRegistration w err evr.BroadcasterRegistration_Failure
        | inr channels =>
          let config := set_HostedChannels channels config in
          modify (store_registration (ws_id session) config);;
          parked ← catch (newParkingMatch w session config);
          match parked with
          | inl err => errFailedRegistration w err evr.BroadcasterRegistration_Failure
          | inr _ =>
            let msgs :=
              [evr.NewBroadcasterRegistrationSuccess (ServerId config)
                 (evr.ExternalIP (Endpoint config));
               evr.NewSTcpConnectionUnrequireEvent] in
            emit (EvSendEvr msgs);;
            match SendEvr w msgs with
            | Some err =>
              errFailedRegistration w
                (fmt_Errorf "failed to send lobby registration failure: %v"
                            [ArgError (Some err)])
                evr.BroadcasterRegistration_Failure
            | None => mret ()
            end
          end
        end
    end
  end.

(** ** A concrete world for worked examples

    [Scenario] lists what the examples vary; [worldOf] fills in the rest.
    Endpoint identities follow the data model's description (external
    address and port); [sort.SliceStable] is the insertion sort above, which
    is what Go runs on the short slices of the examples. *)

Record Scenario := {
  sc_await : SelectOutcome;
  sc_labels : gmap string EvrMatchState;
  sc_listed : list apiMatch;
  sc_live : gmap string apiMatch;
  sc_send : list evr.Message → option error;
  sc_parties : gmap uuid.UUID PartyHandler;
  sc_group : string;
  sc_probe : ProbeOutcome;
}.

(** Modelled from the spec: [Endpoint.ID()] is declared outside these files;
    the data model makes the identity a stable string derived from the
    externally reachable address and port. *)
Definition demoEndpointID (e : evr.Endpoint) : string :=
  evr.ExternalIP e +:+ ":" +:+ pretty (evr.Port e).

Definition demoQueryString (t : Query.Term) (o : Query.Operator) (boost : Z) : string :=
  (match o with Query.Must => "+" | Query.MustNot => "-" | Query.Should => "" end)
  +:+ (match t with
       | Query.OpenLobby => "label.open:T"
       | Query.LobbyType PublicLobby => "label.lobby_type:public"
       | Query.LobbyType UnassignedLobby => "label.lobby_type:unassigned"
       | Query.LobbyType (OtherLobby n) => "label.lobby_type:" +:+ pretty n
       | Query.GameMode ModeArenaPublic => "label.mode:arena"
       | Query.GameMode ModeCombatPublic => "label.mode:combat"
       | Query.GameMode ModeSocialPublic => "label.mode:social"
       | Query.GameMode (ModeOther s) => "label.mode:" +:+ pretty s
       | Query.MatchId id => "label.id:" +:+ id
       | Query.Channels cs => "label.broadcaster.channels:/(" +:+ strings.Join cs "|" +:+ ")/"
       | Query.HostedChannels cs => "label.broadcaster.channels:/(" +:+ strings.Join cs "|" +:+ ")/"
       | Query.Channel c => "label.channel:" +:+ c
       | Query.Region r => "label.broadcaster.region:" +:+ pretty r
       end)
  +:+ (if decide (boost = 0) then "" else "^" +:+ pretty boost).

Definition worldOf (sc : Scenario) : World :=
  {| Endpoint_ID := demoEndpointID;
     LatencyMetric_ID := λ r, demoEndpointID (lm_Endpoint r);
     EvrMatchState_ID := λ l, MatchID l +:+ ".node1";
     MatchMaxSize := 8;
     SystemUserID := "00000000-0000-0000-0000-000000000000";
     node := "node1";
     externalIP := "203.0.113.1";
     placeholderEmail := "example.invalid";
     NewV5 := λ _ name, "party:" +:+ name;
     FromStringOrNil := λ s, s;
     UpdateBroadcasters :=
       λ known endpoints, foldl (λ m e, <[demoEndpointID e := e]> m) known endpoints;
     GetPingCandidates := λ _ endpoints, endpoints;
     GetLatencies := λ cache _ _, cache;
     BuildQuery := λ _ _, inr ("+label.open:T", ∅, ∅);
     json_Unmarshal := λ value _, sc_labels sc !! value;
     sort_SliceStable := @insertionSort;
     QueryString := demoQueryString;
     listMatches := λ _ _ _ _, inr (sc_listed sc);
     GetMatch := λ id, (sc_live sc !! id, None);
     SendEvr := sc_send sc;
     awaitPing := λ _, sc_await sc;
     Now := 0;
     LoadMatchmakingSettings :=
       λ userID,
         inr {| QueryAddon := "";
                GroupID := if decide (userID = "00000000-0000-0000-0000-000000000000")
                           then "" else sc_group sc;
                MinCount := 2; MaxCount := 8; CountMultiple := 2 |};
     parties := sc_parties sc;
     partyCreate := λ _ maxSize leader,
       {| ph_ID := "party:new"; ph_members := []; ph_maxSize := maxSize |};
     ctxEvrID := Some "OVR-ORG-1";
     TrackMulti := λ _, true;
     matchmakerAdd := λ _ _ _, inr "ticket-1";
     authDetails := inr ("discord-1", "secret", [], []);
     GetUserIdByDiscordId := λ _, inr "user-1";
     AuthenticateEmail := λ _ _, inr ("user-1", "host");
     BroadcasterSession := λ _ _, None;
     isPrivateIP := λ _, false;
     probe := λ _ _, sc_probe sc;
     getBroadcasterHostInfo := λ _ _ _, inr [];
     NewEvrMatchState := λ _, None;
     CreateMatch := λ _, inr "parking-1.node1";
     ProcessRequest := λ _, true |}.

Definition emptySt : St :=
  {| broadcasters := ∅; LatencyCache := ∅; Party := None; tickets := ∅;
     broadcasterRegistrationBySession := ∅; matchBySession := ∅; trace := [] |}.

Definition demoSession : sessionWS :=
  {| ws_id := "11111111-1111-1111-1111-111111111111";
     ws_userID := "22222222-2222-2222-2222-222222222222";
     ws_Username := "player"; ws_ClientIP := "198.51.100.7" |}.

Definition demoEndpoint (host : string) : evr.Endpoint :=
  {| evr.InternalIP := "10.0.0.1"; evr.ExternalIP := host; evr.Port := 6792 |}.

(** A public label hosted on [host], with population [size]. *)
Definition demoLabel (id host : string) (mode : GameModeSymbol)
    (team : TeamIndexValue) (size : Z) : EvrMatchState :=
  {| MatchID := id; LobbyType := PublicLobby; Mode := mode; TeamIndex := team;
     Size := size; MaxSize := 8; TeamSize := 4; Players := [];
     Channel := Some "cccccccc-cccc-cccc-cccc-cccccccccccc";
     Broadcaster :=
       {| SessionID := ""; UserID := ""; ServerId := 1; Endpoint := demoEndpoint host;
          Region := 0; VersionLock := 0;
          Channels := ["cccccccc-cccc-cccc-cccc-cccccccccccc"];
          HostedChannels := []; Tags := [] |};
     SpawnedBy := "" |}.

Definition demoMetric (host : string) (rtt : time.Duration) : LatencyMetric :=
  {| lm_Endpoint := demoEndpoint host; lm_RTT := rtt; lm_Timestamp := 0 |}.

Definition quietScenario : Scenario :=
  {| sc_await := PingResults []; sc_labels := ∅; sc_listed := [];
     sc_live := ∅; sc_send := λ _, None; sc_parties := ∅; sc_group := "";
     sc_probe := Acknowledged (20 * time.Millisecond) |}.

(** Scenarios for the worked examples. *)

Definition sessionFor (mode : GameModeSymbol) (team : TeamIndexValue) : MatchmakingSession :=
  {| Label := demoLabel "99999999-9999-9999-9999-999999999999" "client" mode team 1 |}.

Definition reply (host : string) (rtt : time.Duration) : evr.EndpointPingResult :=
  {| evr.EndpointID := demoEndpointID (demoEndpoint host); evr.RTT := rtt |}.

Definition pinged (replies : list evr.EndpointPingResult) : Scenario :=
  {| sc_await := PingResults replies; sc_labels := ∅; sc_listed := [];
     sc_live := ∅; sc_send := λ _, None; sc_parties := ∅; sc_group := "";
     sc_probe := Acknowledged (20 * time.Millisecond) |}.

(** Candidates A (80ms, population 5) and B (95ms, population 10). *)
Definition labelA : EvrMatchState :=
  demoLabel "aaaaaaaa-aaaa-aaaa-aaaa-aaaaaaaaaaaa" "hostA" ModeArenaPublic (OtherTeam 0) 5.
Definition labelB : EvrMatchState :=
  demoLabel "bbbbbbbb-bbbb-bbbb-bbbb-bbbbbbbbbbbb" "hostB" ModeArenaPublic (OtherTeam 0) 10.
Definition pingAB : Scenario :=
  pinged [reply "hostA" (80 * time.Millisecond); reply "hostB" (95 * time.Millisecond)].

(** The same two hosts with the populations exchanged. *)
Definition labelA10 : EvrMatchState :=
  demoLabel "aaaaaaaa-aaaa-aaaa-aaaa-aaaaaaaaaaaa" "hostA" ModeArenaPublic (OtherTeam 0) 10.
Definition labelB5 : EvrMatchState :=
  demoLabel "bbbbbbbb-bbbb-bbbb-bbbb-bbbbbbbbbbbb" "hostB" ModeArenaPublic (OtherTeam 0) 5.

(** One candidate measured at 271ms. *)
Definition labelC : EvrMatchState :=
  demoLabel "cccccccc-0000-0000-0000-000000000000" "hostC" ModeArenaPublic (OtherTeam 0) 3.
Definition ping271 : Scenario := pinged [reply "hostC" (271 * time.Millisecond)].

(** A spectator looks for a session; the only candidate was listed with
    room, but its live size is already [MaxSize + 1]. *)
Definition liveA : EvrMatchState :=
  {| MatchID := MatchID labelA; LobbyType := PublicLobby; Mode := ModeArenaPublic;
     TeamIndex := OtherTeam 0; Size := 8; MaxSize := 8; TeamSize := 4;
     Players := ["p1"; "p2"; "p3"; "p4"; "p5"; "p6"; "p7"; "p8"];
     Channel := Channel labelA; Broadcaster := Broadcaster labelA; SpawnedBy := "" |}.

Definition staleFull : Scenario :=
  {| sc_await := PingResults [reply "hostA" (40 * time.Millisecond)];
     sc_labels := {[ "label-A" := labelA; "label-A-live" := liveA ]};
     sc_listed := [ {| am_Size := 6; am_LabelValue := "label-A" |} ];
     sc_live := {[ "aaaaaaaa-aaaa-aaaa-aaaa-aaaaaaaaaaaa.node1"
                   := {| am_Size := 9; am_LabelValue := "label-A-live" |} ]};
     sc_send := λ _, None; sc_parties := ∅; sc_group := "";
     sc_probe := Acknowledged (20 * time.Millisecond) |}.

(** The broadcaster's endpoint does not answer, and the transport fails to
    deliver the failure message. *)
Definition unreachable (send : list evr.Message → option error) : Scenario :=
  {| sc_await := PingResults []; sc_labels := ∅; sc_listed := [];
     sc_live := ∅; sc_send := send; sc_parties := ∅; sc_group := "";
     sc_probe := ReadTimedOut (external "i/o timeout") |}.

Definition demoRequest : BroadcasterRegistrationRequest :=
  {| req_ServerId := 7; req_InternalIP := "10.0.0.1"; req_Port := 6792;
     req_Region := 0; req_VersionLock := 0 |}.

(** The player's group has a party that is already at its maximum size. *)
Definition fullParty : PartyHandler :=
  {| ph_ID := "party:squad";
     ph_members := replicate 8 {| pr_Node := "node1"; pr_SessionID := "";
                                  pr_UserID := ""; pr_Username := "member" |};
     ph_maxSize := 8 |}.

Definition partyFull : Scenario :=
  {| sc_await := PingResults []; sc_labels := ∅; sc_listed := [];
     sc_live := ∅; sc_send := λ _, None;
     sc_parties := {[ "party:squad" := fullParty ]}; sc_group := "squad";
     sc_probe := Acknowledged (20 * time.Millisecond) |}.

Definition cancelled : Scenario :=
  {| sc_await := CtxDone; sc_labels := ∅; sc_listed := [];
     sc_live := ∅; sc_send := λ _, None; sc_parties := ∅; sc_group := "";
     sc_probe := Acknowledged (20 * time.Millisecond) |}.

(** A player who is in no match yet: the label's match id is the nil UUID. *)
Definition labelNoMatch : EvrMatchState :=
  demoLabel uuid.Nil "client" ModeArenaPublic (OtherTeam 0) 1.

Definition privateSession : MatchmakingSession :=
  {| Label := {| MatchID := uuid.Nil; LobbyType := OtherLobby 1; Mode := ModeArenaPublic;
                 TeamIndex := OtherTeam 0; Size := 1; MaxSize := 8; TeamSize := 4;
                 Players := []; Channel := None;
                 Broadcaster := Broadcaster labelA; SpawnedBy := "" |} |}.

(** ** Trace predicates *)

(** [emits_only P m]: running [m] appends events to the trace, all of which
    satisfy [P], and touches no earlier event. *)
Definition emits_only {A} (P : Event → Prop) (m : M A) : Prop :=
  ∀ st, ∃ new, trace (m st).2 = trace st ++ new ∧ Forall P new.

Definition is_probe_event (ev : Event) : bool :=
  match ev with EvSendEvr _ | EvAwaitPing _ => true | _ => false end.

Definition is_parking_event (ev : Event) : bool :=
  match ev with EvCreateMatch _ | EvProcessJoin _ => true | _ => false end.

Definition is_close_event (ev : Event) : bool :=
  match ev with EvSessionClose _ => true | _ => false end.

(** ** Definitions for the further properties *)

(** The events of one pass of the selection loop over a candidate that is
    skipped, and over the candidate that is chosen. *)
Definition skipEvents (w : World) (label : EvrMatchState) : list Event :=
  [EvLock (EvrMatchState_ID w label); EvGetMatch (EvrMatchState_ID w label);
   EvUnlock (EvrMatchState_ID w label)].

Definition chooseEvents (w : World) (label : EvrMatchState) : list Event :=
  [EvLock (EvrMatchState_ID w label); EvGetMatch (EvrMatchState_ID w label);
   EvUnlockAfter (EvrMatchState_ID w label) MatchJoinGracePeriod].

(** Whether the selection loop keeps a candidate, given the registry's
    answer for it: the conditions of the loop body, in its order. *)
Definition eligible (w : World) (want : TeamIndexValue) (label : EvrMatchState)
    : option EvrMatchState :=
  match GetMatch w (EvrMatchState_ID w label) with
  | (Some live, None) =>
    match json_Unmarshal w (am_LabelValue live) (Some label) with
    | Some fresh =>
      if int32 (int32 (MaxSize fresh) + 1) <? am_Size live then None
      else if bool_decide (want ≠ Spectator ∧ want ≠ Moderator)
              && (int64 (int64 (TeamSize fresh * 2) - Z.of_nat (length (Players fresh)))
                  <? 1)
      then None
      else Some fresh
    | None => None
    end
  | _ => None
  end.


(** The address a registration probes and stores: the client's address, or
    this system's external address when the client's is private. *)
Definition registrationIP (w : World) (session : sessionWS) : string :=
  if isPrivateIP w (ws_ClientIP session) then externalIP w else ws_ClientIP session.

(** ** Authentication details of a broadcaster connection *)

(** The bytes of a string. *)
Fixpoint chars (s : string) : list Ascii.ascii :=
  match s with
  | EmptyString => []
  | String c rest => c :: chars rest
  end.

(** [strings.Split(s, sep)] for a separator of one byte, which is how the
    code calls it: the pieces between the separators, [n + 1] of them for
    [n] separators. *)
Fixpoint strings_Split (s : string) (sep : Ascii.ascii) : list string :=
  match s with
  | EmptyString => [""]
  | String c rest =>
    if decide (c = sep) then "" :: strings_Split rest sep
    else match strings_Split rest sep with
         | piece :: pieces => String c piece :: pieces
         | [] => [String c ""]
         end
  end.

Fixpoint strings_TrimLeft (s : string) (cut : Ascii.ascii) : string :=
  match s with
  | EmptyString => ""
  | String c rest => if decide (c = cut) then strings_TrimLeft rest cut else s
  end.

Fixpoint strings_TrimRight (s : string) (cut : Ascii.ascii) : string :=
  match s with
  | EmptyString => ""
  | String c rest =>
    match strings_TrimRight rest cut with
    | EmptyString => if decide (c = cut) then "" else String c ""
    | kept => String c kept
    end
  end.

(** [strings.Trim(s, cutset)] for a cutset of one byte. *)
Definition strings_Trim (s : string) (cut : Ascii.ascii) : string :=
  strings_TrimRight (strings_TrimLeft s cut) cut.

(** What the connection's context holds: a value is [None] when the key is
    absent or not of the expected type. *)
Record authContext := {
  ctxDiscordId : option string;
  ctxPassword : option string;
  ctxUrlParams : option (gmap string (list string));
}.

Definition extractAuthenticationDetailsFromContext (ctx : authContext)
    : error + (string * string * list string * list string) :=
  match ctxDiscordId ctx with
  | None => inl (fmt_Errorf "no url params provided" [])
  | Some discordId =>
    if decide (discordId = "") then inl (fmt_Errorf "no url params provided" [])
    else
      match ctxPassword ctx with
      | None => inl (fmt_Errorf "no url params provided" [])
      | Some password =>
        if decide (password = "") then inl (fmt_Errorf "no url params provided" [])
        else
          match ctxUrlParams ctx with
          | None => inl (fmt_Errorf "no url params provided" [])
          | Some params =>
            let tags :=
              match params !! "tags" with
              | Some tagsets => tagsets ≫= (λ tagstr, strings_Split tagstr ","%char)
              | None => []
              end in
            let guildIds :=
              match params !! "guilds" with
              | Some guildparams =>
                guildparams ≫= (λ guildstr,
                  omap (λ guildId,
                          let s := strings_Trim guildId " "%char in
                          if decide (s ≠ "") then Some s else None)
                       (strings_Split guildstr ","%char))
              | None => []
              end in
            let guildIds := if decide ("any" ∈ guildIds) then [] else guildIds in
            inr (discordId, password, tags, guildIds)
          end
      end
  end.

(** ** Hosted scopes of a broadcaster *)

Record GroupMetadata := {
  BroadcasterHostRole : string;
  SuspensionRoles : list string;
  GuildId : string;
}.

(** The identity directory as [getBroadcasterHostInfo] sees it.  [Get] is
    the registry's lookup between a guild id and its group id, used by the
    source in both directions.  Metadata comes back as a pointer; [None] is
    the nil pointer. *)
Record DiscordRegistry := {
  GetGuildGroups : string → error + list string;
  Get : string → option string;
  GetGuildMember : string → string → error + list string;
  GetGuildGroupMetadata : string → error + option GroupMetadata;
}.

Module HostInfo.
(** One pass of the validation loop: whether the guild is kept.  Reading
    the host role of nil metadata panics. *)
Definition allowedGuild (d : DiscordRegistry) (discordId guildId : string)
    : error + bool :=
  if decide (guildId = "") then inr false
  else
    match GetGuildMember d guildId discordId with
    | inl _ => inr false
    | inr roles =>
      match Get d guildId with
      | None => inr false
      | Some groupId =>
        match GetGuildGroupMetadata d groupId with
        | inl _ => inr false
        | inr None => inl nil_dereference
        | inr (Some md) =>
          if decide (BroadcasterHostRole md = "") then inr true
          else inr (bool_decide (BroadcasterHostRole md ∈ roles))
        end
      end
    end.

Fixpoint allowedGuilds (d : DiscordRegistry) (discordId : string)
    (guildIds : list string) : error + list string :=
  match guildIds with
  | [] => inr []
  | guildId :: rest =>
    match allowedGuild d discordId guildId with
    | inl e => inl e
    | inr keep =>
      match allowedGuilds d discordId rest with
      | inl e => inl e
      | inr allowed => inr (if keep then guildId :: allowed else allowed)
      end
    end
  end.

Definition getBroadcasterHostInfo (d : DiscordRegistry)
    (fromStringOrNil : string → uuid.UUID) (userId discordId : string)
    (guildIds : list string) : error + list uuid.UUID :=
  let requested :=
    if decide (length guildIds = 0%nat) then
      match GetGuildGroups d userId with
      | inl err =>
        inl (fmt_Errorf "failed to get user's guild groups: %v" [ArgError (Some err)])
      | inr groups => inr (guildIds ++ omap (Get d) groups)
      end
    else inr guildIds in
  match requested with
  | inl e => inl e
  | inr guildIds =>
    match allowedGuilds d discordId guildIds with
    | inl e => inl e
    | inr allowed => inr (omap (λ guildId, fromStringOrNil <$> Get d guildId) allowed)
    end
  end.
End HostInfo.

(** [a] may stand before [b] in the output of a sort by [less]. *)
Definition mayPrecede {A} (less : A → A → bool) (a b : A) : Prop := less b a = false.

(** ** Port scan and repeated probes

    Ports and counts are [int]s far from the bounds of the type, so their
    arithmetic is that of [Z].  [None] is the panic of [make] on a negative
    length.  A nil entry of [errs] is [None]. *)

(** What one goroutine of the scan does under the mutex. *)
Definition portScanStore (startPort : Z)
    (acc : gmap Z time.Duration * list (option error)) (port : Z)
    (result : time.Duration * option error)
    : gmap Z time.Duration * list (option error) :=
  match result.2 with
  | Some err => (acc.1, <[Z.to_nat (port - startPort) := Some err]> acc.2)
  | None => (<[port := result.1]> acc.1, acc.2)
  end.

(** [order] lists the ports in the order in which their goroutines take the
    mutex; the scan returns once all of them are done. *)
Definition BroadcasterPortScan (w : World) (ip : string) (startPort endPort : Z)
    (timeout : time.Duration) (order : list Z)
    : option (gmap Z time.Duration * list (option error)) :=
  if endPort - startPort + 1 <? 0 then None
  else
    Some (foldl (λ acc port,
                   portScanStore startPort acc port
                     (healthcheckResult (probe w ip port) ip timeout))
                (∅, replicate (Z.to_nat (endPort - startPort + 1)) None)
                order).

Definition acknowledged (outcome : ProbeOutcome) : bool :=
  match outcome with Acknowledged _ => true | _ => false end.

(** The loop of [BroadcasterRTTcheck] from index [i] on; [probeAt i] is how
    the probe of round [i] ends, and the sleeps asked for are collected in
    order. *)
Fixpoint rttCheckLoop (probeAt : nat → ProbeOutcome) (ip : string)
    (interval timeout : time.Duration) (i remaining : nat)
    (rtts sleeps : list time.Duration) : list time.Duration * list time.Duration :=
  match remaining with
  | O => (rtts, sleeps)
  | S remaining =>
    let '(rtt, err) := healthcheckResult (probeAt i) ip timeout in
    match err with
    | Some _ =>
      rttCheckLoop probeAt ip interval timeout (S i) remaining (<[i := -1]> rtts) sleeps
    | None =>
      rttCheckLoop probeAt ip interval timeout (S i) remaining (<[i := rtt]> rtts)
                   (sleeps ++ [interval])
    end
  end.

(** The result is [(rtts, err)] and the sleeps taken on the way. *)
Definition BroadcasterRTTcheck (probeAt : nat → ProbeOutcome) (ip : string)
    (count : Z) (interval timeout : time.Duration)
    : option (list time.Duration * option error * list time.Duration) :=
  if count <? 0 then None
  else
    let '(rtts, sleeps) :=
      rttCheckLoop probeAt ip interval timeout 0 (Z.to_nat count)
                   (replicate (Z.to_nat count) 0) [] in
    Some (rtts, None, sleeps).

(** ** Suspension status

    Instants are nanoseconds since the Unix epoch; [Expiry.After(now)] is
    [now < Expiry].  The zero [time.Time] is the first instant of year 1. *)

Module Suspension.
Definition zeroTime : Z := -62135596800 * time.Second.

Record SuspensionStatus := {
  GuildId : string;
  GuildName : string;
  UserId : string;
  UserDiscordId : string;
  Reason : string;
  Expiry : Z;
}.

Record Guild := {
  ID : string;
  Name : string;
}.

Record StorageRead := {
  read_Collection : string;
  read_Key : string;
  read_UserID : string;
}.

Record StorageDelete := {
  delete_Collection : string;
  delete_Key : string;
  delete_UserID : string;
}.

Record StorageObject := {
  Key : string;
  Value : string;
}.

(** The collaborators of [checkSuspensionStatus] besides the identity
    directory's lookups of [DiscordRegistry].  [StorageList] answers with
    the keys of the objects it lists; [Now k] is the clock read while the
    [k]-th stored object is checked.  A guild or a member is returned
    whenever the error is nil. *)
Record Runtime := {
  SuspensionStatusCollection : string;
  GetDiscordIdByUserId : uuid.UUID → error + string;
  GetGuild : string → error + Guild;
  StorageList : string → string → string → Z → string → error + list string;
  StorageReadObjects : list StorageRead → error + list StorageObject;
  json_Unmarshal : string → error + SuspensionStatus;
  Now : nat → Z;
}.

End Suspension.

(** [lo.Intersect]: the elements of the second list found in the first. *)
Definition lo_Intersect (list1 list2 : list string) : list string :=
  filter (λ elem, elem ∈ list1) list2.

Definition newline : string := String (Ascii.ascii_of_nat 10) "".

(** The status returned when no detailed status is stored. *)
Definition basicStatus (r : Suspension.Runtime) (guildId userID discordId : string)
    (reason : string → string) : error + list Suspension.SuspensionStatus :=
  match Suspension.GetGuild r guildId with
  | inl err =>
    inl (status_Errorf codes.Internal "Failed to get guild: %v" [ArgError (Some err)])
  | inr guild =>
    inr [{| Suspension.GuildId := Suspension.ID guild;
            Suspension.GuildName := Suspension.Name guild;
            Suspension.UserId := userID;
            Suspension.UserDiscordId := discordId;
            Suspension.Reason := reason (Suspension.Name guild);
            Suspension.Expiry := Suspension.zeroTime |}]
  end.

(** The deletion issued for an expired object. *)
Definition expiredDelete (r : Suspension.Runtime) (userID : string)
    (obj : Suspension.StorageObject) : Suspension.StorageDelete :=
  {| Suspension.delete_Collection := Suspension.SuspensionStatusCollection r;
     Suspension.delete_Key := Suspension.Key obj;
     Suspension.delete_UserID := userID |}.

(** The loop over the stored objects from the [k]-th on.  The second
    component lists the deletions issued; a failed deletion is only
    logged. *)
Fixpoint checkExpiry (r : Suspension.Runtime) (userID : string) (k : nat)
    (objs : list Suspension.StorageObject) (suspensions : list Suspension.SuspensionStatus)
    (deleted : list Suspension.StorageDelete)
    : (error + list Suspension.SuspensionStatus) * list Suspension.StorageDelete :=
  match objs with
  | [] => (inr suspensions, deleted)
  | obj :: objs =>
    match Suspension.json_Unmarshal r (Suspension.Value obj) with
    | inl err =>
      (inl (status_Errorf codes.Internal "Failed to unmarshal suspension status: %v"
                          [ArgError (Some err)]),
       deleted)
    | inr suspension =>
      if Suspension.Now r k <? Suspension.Expiry suspension then
        checkExpiry r userID (S k) objs (suspensions ++ [suspension]) deleted
      else
        checkExpiry r userID (S k) objs suspensions
          (deleted ++ [expiredDelete r userID obj])
    end
  end.

Definition checkSuspensionStatus (d : DiscordRegistry) (r : Suspension.Runtime)
    (fromStringOrNil : string → uuid.UUID) (userID : string) (channel : uuid.UUID)
    : (error + list Suspension.SuspensionStatus) * list Suspension.StorageDelete :=
  if decide (channel = uuid.Nil) then (inl (fmt_Errorf "channel is nil" []), [])
  else
    match GetGuildGroupMetadata d channel with
    | inl err =>
      (inl (status_Errorf codes.Internal "Failed to get guild group metadata: %v"
                          [ArgError (Some err)]), [])
    | inr None =>
      (inl (status_Errorf codes.Internal "Metadata is nil for channel: %s"
                          [ArgString channel]), [])
    | inr (Some md) =>
      if decide (length (SuspensionRoles md) = 0%nat) then (inr [], [])
      else
        match Suspension.GetDiscordIdByUserId r (fromStringOrNil userID) with
        | inl err =>
          (inl (status_Errorf codes.Internal "Failed to get discord id: %v"
                              [ArgError (Some err)]), [])
        | inr discordId =>
          match GetGuildMember d (GuildId md) discordId with
          | inl err =>
            (inl (status_Errorf codes.Internal "Failed to get guild member: %v"
                                [ArgError (Some err)]), [])
          | inr roles =>
            if decide (length (lo_Intersect roles (SuspensionRoles md)) = 0%nat)
            then (inr [], [])
            else
              match Suspension.StorageList r uuid.Nil userID
                      (Suspension.SuspensionStatusCollection r) 1000 "" with
              | inl err =>
                (inl (status_Errorf codes.Internal "Failed to list suspension status: %v"
                                    [ArgError (Some err)]), [])
              | inr ids =>
                if decide (length ids = 0%nat) then
                  (basicStatus r (GuildId md) userID discordId
                     (λ name, "You are currently suspended from " +:+ name +:+ "."), [])
                else
                  let ops :=
                    (λ id,
                       {| Suspension.read_Collection :=
                            Suspension.SuspensionStatusCollection r;
                          Suspension.read_Key := id;
                          Suspension.read_UserID := userID |}) <$> ids in
                  match Suspension.StorageReadObjects r ops with
                  | inl err =>
                    (inl (status_Errorf codes.Internal
                                        "Failed to read suspension status: %v"
                                        [ArgError (Some err)]), [])
                  | inr objs =>
                    if decide (length objs = 0%nat) then
                      (basicStatus r (GuildId md) userID discordId
                         (λ _, "You are suspended from this channel." +:+ newline
                               +:+ "Contact a moderator for more information."), [])
                    else checkExpiry r userID 0 objs [] []
                  end
              end
          end
        end
    end.

(** ** Match creation *)

Inductive Signal :=
| SignalPrepareSession
| SignalStartSession.

(** One call of [SignalMatch]. *)
Record SignalCall := {
  sig_MatchID : string;
  sig_Signal : Signal;
  sig_Label : EvrMatchState;
}.

(** What [ListUnassignedLobbies] and [MatchCreate] use besides [World]: the
    package's error value for an empty listing, the error [json.Unmarshal]
    reports for a label it rejects, and the answer of the match registry to
    a signal (the returned string is dropped by the source). *)
Record MatchRegistry := {
  ErrMatchmakingNoAvailableServers : error;
  unmarshalError : string → error;
  SignalMatch : string → Signal → EvrMatchState → option error;
}.

Definition set_MaxSize (n : Z) (ml : EvrMatchState) : EvrMatchState :=
  {| MatchID := MatchID ml; LobbyType := LobbyType ml; Mode := Mode ml;
     TeamIndex := TeamIndex ml; Size := Size ml; MaxSize := n;
     TeamSize := TeamSize ml; Players := Players ml; Channel := Channel ml;
     Broadcaster := Broadcaster ml; SpawnedBy := SpawnedBy ml |}.

Definition set_SpawnedBy (user : string) (ml : EvrMatchState) : EvrMatchState :=
  {| MatchID := MatchID ml; LobbyType := LobbyType ml; Mode := Mode ml;
     TeamIndex := TeamIndex ml; Size := Size ml; MaxSize := MaxSize ml;
     TeamSize := TeamSize ml; Players := Players ml; Channel := Channel ml;
     Broadcaster := Broadcaster ml; SpawnedBy := user |}.

(** The [qparts] of [ListUnassignedLobbies], before rendering. *)
Definition unassignedLobbyParts (ml : EvrMatchState) : list Query.Part :=
  let channels := Channels (Broadcaster ml) in
  let qparts := [Query.Q (Query.LobbyType UnassignedLobby) Query.Must 0] in
  let qparts :=
    if decide (0 < length channels)%nat
    then qparts ++ [Query.Q (Query.HostedChannels channels) Query.Must 0]
    else qparts in
  let qparts :=
    qparts
    ++ imap (λ i channel,
               Query.Q (Query.Channel channel) Query.Should
                       (Z.of_nat (length channels) - Z.of_nat i))
            channels in
  if decide (Region (Broadcaster ml) ≠ 0)
  then qparts ++ [Query.Q (Query.Region (Region (Broadcaster ml))) Query.Should 3]
  else qparts.

(** The loop over the listed matches: the first label that does not
    unmarshal ends it. *)
Fixpoint unmarshalLabels (w : World) (r : MatchRegistry) (matches : list apiMatch)
    : error + list EvrMatchState :=
  match matches with
  | [] => inr []
  | m :: matches =>
    match json_Unmarshal w (am_LabelValue m) None with
    | None =>
      inl (status_Errorf codes.Internal "Failed to unmarshal match label: %v"
                         [ArgError (Some (unmarshalError r (am_LabelValue m)))])
    | Some label =>
      match unmarshalLabels w r matches with
      | inl e => inl e
      | inr labels => inr (label :: labels)
      end
    end
  end.

Definition ListUnassignedLobbies (w : World) (r : MatchRegistry) (ml : EvrMatchState)
    : M (list EvrMatchState) :=
  let query := strings.Join (renderPart w <$> unassignedLobbyParts ml) " " in
  let limit := 100 in
  let minSize := 1 in
  let maxSize := 1 in
  emit (EvListMatches limit minSize maxSize query);;
  match listMatches w limit minSize maxSize query with
  | inl err =>
    throw (status_Errorf codes.Internal "Failed to find matches: %v" [ArgError (Some err)])
  | inr matches =>
    if decide (length matches = 0%nat) then throw (ErrMatchmakingNoAvailableServers r)
    else
      match unmarshalLabels w r matches with
      | inl e => throw e
      | inr labels => mret labels
      end
  end.

(** [defer]: [ev] happens when [m] is left, whichever way. *)
Definition deferred {A} (ev : Event) (m : M A) : M A := λ st,
  let '(result, st') := m st in (result, with_trace (λ t, t ++ [ev]) st').

(** The matchmaking registry's own mutex in the trace. *)
Definition registryLock : string := "matchmakingRegistry".

(** What [MatchCreate] does while it holds the registry's lock.  The result
    pairs the signals sent, in order, with what the function returns; a
    panic unwinds as in [M]. *)
Definition createLocked (w : World) (r : MatchRegistry) (session : sessionWS)
    (msession : MatchmakingSession) (label : EvrMatchState)
    : M (list SignalCall * (error + string)) :=
  listed ← catch (ListUnassignedLobbies w r label);
  match listed with
  | inl err => mret ([], inl err)
  | inr matches =>
    sorted ← catch (MatchSort w session msession matches);
    match sorted with
    | inl err =>
      mret ([], inl (fmt_Errorf "failed to filter matches: %v" [ArgError (Some err)]))
    | inr (matches, _) =>
      match matches with
      | [] => mret ([], inl (ErrMatchmakingNoAvailableServers r))
      | lobby :: _ =>
        let parkingMatchId := MatchID lobby +:+ "." +:+ node w in
        let label := set_SpawnedBy (ws_userID session) label in
        let prepare :=
          {| sig_MatchID := parkingMatchId; sig_Signal := SignalPrepareSession;
             sig_Label := label |} in
        let start :=
          {| sig_MatchID := parkingMatchId; sig_Signal := SignalStartSession;
             sig_Label := label |} in
        match SignalMatch r parkingMatchId SignalPrepareSession label with
        | Some err =>
          mret ([prepare],
                inl (fmt_Errorf "failed to load level: %v" [ArgError (Some err)]))
        | None =>
          match SignalMatch r parkingMatchId SignalStartSession label with
          | Some err =>
            mret ([prepare; start],
                  inl (fmt_Errorf "failed to load level: %v" [ArgError (Some err)]))
          | None => mret ([prepare; start], inr parkingMatchId)
          end
        end
      end
    end
  end.

Definition MatchCreate (w : World) (r : MatchRegistry) (session : sessionWS)
    (msession : MatchmakingSession) (label : EvrMatchState)
    : M (list SignalCall * (error + string)) :=
  let label := set_MaxSize (MatchMaxSize w) label in
  emit (EvLock registryLock);;
  deferred (EvUnlock registryLock) (createLocked w r session msession label).


(** [preserves f m]: running [m] leaves the component [f] of the state as it
    was, whatever the outcome. *)
Definition preserves {A B} (f : St → A) (m : M B) : Prop :=
  ∀ st, f (m st).2 = f st.

(** ** Joining a match *)

Module Join.
Record EvrMatchPresence := {
  Node : string;
  UserID : uuid.UUID;
  SessionID : uuid.UUID;
  Username : string;
  DisplayName : string;
  EvrID : string;
  PlayerSession : uuid.UUID;
  TeamIndex : Z;
  DiscordID : string;
  Query : string;
}.

(** What [JoinEvrMatch] does to its collaborators, in program order. *)
Inductive Effect :=
| SetDisplayName (groupID : string)
| UpdateDisplayName (displayName : string)
| CacheProfile
| JoinAttempt (matchID : uuid.UUID) (node : string) (playermeta : string)
| Track (matchID : uuid.UUID) (node : string) (status : string)
| StoreMatchBySessionID (sessionID matchIDStr : string)
| StoreMatchByEvrID (evrID matchIDStr : string)
| SessionClose (msg : string).

(** How a call ends: it returns [err], or [uuid.Must] panics. *)
Inductive Outcome :=
| Returns (err : option error)
| Panics.

(** The collaborators of [JoinEvrMatch] that [World] does not know.  An
    error that the source only logs is part of the answer and dropped by
    the function.  [ctxNoVR] is the context value when it is a [bool]. *)
Record Env := {
  jsonError : string → error;
  setDisplayNameByChannelBySession : sessionWS → string → string * option error;
  ctxNoVR : option bool;
  profileLoad : uuid.UUID → string → bool;
  getDiscordIdByUserId : uuid.UUID → string * option error;
  newV4 : error + uuid.UUID;
  json_Marshal : EvrMatchPresence → error + string;
  joinAttempt : uuid.UUID → string → sessionWS → string → bool * bool * bool * string;
  ErrJoinRejectedUnassignedLobby : string;
  ErrJoinRejectedDuplicateJoin : string;
  ErrJoinRejectedNotModerator : string;
  ErrJoinRejectedLobbyFull : string;
}.
End Join.

(** [strings.Contains(s, substr)] for a [substr] of one byte. *)
Definition strings_Contains (s : string) (c : Ascii.ascii) : bool :=
  bool_decide (c ∈ chars s).

(** The [switch] over the reason of a rejected join. *)
Definition joinRejectedCode (j : Join.Env) (reason : string) : codes.Code :=
  if decide (reason = Join.ErrJoinRejectedUnassignedLobby j) then codes.FailedPrecondition
  else if decide (reason = Join.ErrJoinRejectedDuplicateJoin j) then codes.AlreadyExists
  else if decide (reason = Join.ErrJoinRejectedNotModerator j) then codes.PermissionDenied
  else if decide (reason = Join.ErrJoinRejectedLobbyFull j) then codes.ResourceExhausted
  else codes.Internal.

(** The match id with the node appended when it names none. *)
Definition qualifiedMatchID (w : World) (matchIDStr : string) : string :=
  if strings_Contains matchIDStr "."%char then matchIDStr
  else matchIDStr +:+ "." +:+ node w.

Definition JoinEvrMatch (w : World) (j : Join.Env) (session : sessionWS)
    (query matchIDStr : string) (teamIndex : Z) : Join.Outcome * list Join.Effect :=
  let matchIDStr := qualifiedMatchID w matchIDStr in
  let s := default "" (head (strings_Split matchIDStr "."%char)) in
  let matchID := FromStringOrNil w s in
  if decide (matchID = uuid.Nil) then
    (Join.Returns (Some (fmt_Errorf "invalid match id: %s" [ArgString matchIDStr])), [])
  else
    match ctxEvrID w with
    | None => (Join.Returns (Some (fmt_Errorf "evr id not found in context" [])), [])
    | Some evrID =>
      match GetMatch w matchIDStr with
      | (_, Some err) =>
        (Join.Returns (Some (fmt_Errorf "failed to get match: %w" [ArgError (Some err)])),
         [])
      | (None, None) =>
        (Join.Returns (Some (fmt_Errorf "match not found: %s" [ArgString matchIDStr])), [])
      | (Some match_, None) =>
        match json_Unmarshal w (am_LabelValue match_) None with
        | None =>
          (Join.Returns
             (Some (fmt_Errorf "failed to unmarshal match label: %w"
                               [ArgError (Some (Join.jsonError j (am_LabelValue match_)))])),
           [])
        | Some label =>
          let groupID :=
            match Channel label with
            | Some channel => FromStringOrNil w channel
            | None => uuid.Nil
            end in
          let displayName := (Join.setDisplayNameByChannelBySession j session groupID).1 in
          let effects := [Join.SetDisplayName groupID] in
          let displayName :=
            if decide (Join.ctxNoVR j = Some true) then "d[o_0]b " +:+ displayName
            else displayName in
          if negb (Join.profileLoad j (ws_userID session) evrID) then
            (Join.Returns
               (Some (fmt_Errorf "profile not found: %s" [ArgString (ws_userID session)])),
             effects ++ [Join.SessionClose "profile not found"])
          else
            let effects :=
              effects ++ [Join.UpdateDisplayName displayName; Join.CacheProfile] in
            let discordID := (Join.getDiscordIdByUserId j (ws_userID session)).1 in
            match Join.newV4 j with
            | inl _ => (Join.Panics, effects)
            | inr playerSession =>
              let mp :=
                {| Join.Node := node w;
                   Join.UserID := ws_userID session;
                   Join.SessionID := ws_id session;
                   Join.Username := ws_Username session;
                   Join.DisplayName := displayName;
                   Join.EvrID := evrID;
                   Join.PlayerSession := playerSession;
                   Join.TeamIndex := teamIndex;
                   Join.DiscordID := discordID;
                   Join.Query := query |} in
              match Join.json_Marshal j mp with
              | inl err =>
                (Join.Returns
                   (Some (fmt_Errorf "failed to marshal player meta: %w"
                                     [ArgError (Some err)])),
                 effects)
              | inr jsonMeta =>
                let effects := effects ++ [Join.JoinAttempt matchID (node w) jsonMeta] in
                let '(found, allowed, isNew, reason) :=
                  Join.joinAttempt j matchID (node w) session jsonMeta in
                if negb found then
                  (Join.Returns
                     (Some (fmt_Errorf "match not found: %s" [ArgString matchIDStr])),
                   effects)
                else if negb allowed then
                  (Join.Returns
                     (Some (status_Errorf (joinRejectedCode j reason)
                                          "join not allowed: %s" [ArgString reason])),
                   effects)
                else
                  let effects :=
                    if isNew then effects ++ [Join.Track matchID (node w) query]
                    else effects in
                  (Join.Returns None,
                   effects ++ [Join.StoreMatchBySessionID (ws_id session) matchIDStr;
                               Join.StoreMatchByEvrID evrID matchIDStr])
              end
            end
        end
      end
    end.

Definition is_store (effect : Join.Effect) : bool :=
  match effect with
  | Join.StoreMatchBySessionID _ _ | Join.StoreMatchByEvrID _ _ => true
  | _ => false
  end.

(** ** Collaborators for the further worked examples *)

(** One guild, ["guild-1"], whose group is ["group-1"]; hosting needs the
    role ["host"], the role ["muted"] suspends.  Every member holds both. *)
Definition demoMetadata : GroupMetadata :=
  {| BroadcasterHostRole := "host"; SuspensionRoles := ["muted"]; GuildId := "guild-1" |}.

Definition demoRegistry : DiscordRegistry :=
  {| GetGuildGroups := λ _, inr ["group-1"];
     Get := λ id,
       if decide (id = "guild-1") then Some "group-1"
       else if decide (id = "group-1") then Some "guild-1" else None;
     GetGuildMember := λ _ _, inr ["host"; "muted"];
     GetGuildGroupMetadata := λ _, inr (Some demoMetadata) |}.

Definition demoSuspension (reason : string) (expiry : Z) : Suspension.SuspensionStatus :=
  {| Suspension.GuildId := "guild-1"; Suspension.GuildName := "Guild";
     Suspension.UserId := "user-1"; Suspension.UserDiscordId := "discord-1";
     Suspension.Reason := reason; Suspension.Expiry := expiry |}.

(** Two stored suspensions, read at instant 50: ["s1"] runs until 100,
    ["s2"] lapsed at 10. *)
Definition demoRuntime : Suspension.Runtime :=
  {| Suspension.SuspensionStatusCollection := "SuspensionStatus";
     Suspension.GetDiscordIdByUserId := λ _, inr "discord-1";
     Suspension.GetGuild := λ id, inr {| Suspension.ID := id; Suspension.Name := "Guild" |};
     Suspension.StorageList := λ _ _ _ _ _, inr ["s1"; "s2"];
     Suspension.StorageReadObjects := λ ops,
       inr ((λ op, {| Suspension.Key := Suspension.read_Key op;
                      Suspension.Value := Suspension.read_Key op |}) <$> ops);
     Suspension.json_Unmarshal := λ value,
       if decide (value = "s1") then inr (demoSuspension "spam" 100)
       else if decide (value = "s2") then inr (demoSuspension "afk" 10)
       else inl (external "unexpected end of JSON input");
     Suspension.Now := λ _, 50 |}.

Definition demoMatchRegistry : MatchRegistry :=
  {| ErrMatchmakingNoAvailableServers := external "no available servers";
     unmarshalError := λ _, external "unexpected end of JSON input";
     SignalMatch := λ _ _ _, None |}.

(** A join environment; [allowed] and [reason] are the answer of the join
    attempt, [profile] whether the profile is found. *)
Definition demoJoinEnv (profile allowed : bool) (reason : string) : Join.Env :=
  {| Join.jsonError := λ _, external "unexpected end of JSON input";
     Join.setDisplayNameByChannelBySession := λ _ _, ("Player", None);
     Join.ctxNoVR := None;
     Join.profileLoad := λ _ _, profile;
     Join.getDiscordIdByUserId := λ _, ("discord-1", None);
     Join.newV4 := inr "33333333-3333-3333-3333-333333333333";
     Join.json_Marshal := λ mp, inr (Join.DisplayName mp);
     Join.joinAttempt := λ _ _ _ _, (true, allowed, true, reason);
     Join.ErrJoinRejectedUnassignedLobby := "unassigned lobby";
     Join.ErrJoinRejectedDuplicateJoin := "duplicate join";
     Join.ErrJoinRejectedNotModerator := "not a moderator";
     Join.ErrJoinRejectedLobbyFull := "lobby full" |}.

(** Probes of an RTT check: the rounds with an even index are acknowledged
    after 20ms, the others time out. *)
Definition demoProbes (i : nat) : ProbeOutcome :=
  if Nat.even i then Acknowledged (20 * time.Millisecond)
  else ReadTimedOut (external "i/o timeout").

(** A combat player and candidates A (population 5) and B (population 10)
    in that mode. *)
Definition combatA : EvrMatchState :=
  demoLabel "aaaaaaaa-aaaa-aaaa-aaaa-aaaaaaaaaaaa" "hostA" ModeCombatPublic (OtherTeam 0) 5.
Definition combatB : EvrMatchState :=
  demoLabel "bbbbbbbb-bbbb-bbbb-bbbb-bbbbbbbbbbbb" "hostB" ModeCombatPublic (OtherTeam 0) 10.

(** Matches are listed, but the wait for the probe replies is cancelled. *)
Definition listedCancelled : Scenario :=
  {| sc_await := CtxDone;
     sc_labels := {[ "label-A" := labelA ]};
     sc_listed := [ {| am_Size := 6; am_LabelValue := "label-A" |} ];
     sc_live := ∅; sc_send := λ _, None; sc_parties := ∅; sc_group := "";
     sc_probe := Acknowledged (20 * time.Millisecond) |}.

(** * Properties *)

(** ** Running the monad *)

Ltac run :=
  unfold mbind, M_bind, mret, M_ret, throw, gets, modify, emit, catch in *;
  simpl in *.

(** ** Backfill on a private lobby *)

(** C9: when the desired label's lobby type is not the public lobby type,
    [Backfill] returns no candidate, the empty query and an invalid-argument
    error, and leaves the state, trace included, as it was: nothing is
    searched and nothing is locked. *)
Theorem Backfill_private_lobby w session msession st :
  LobbyType (Label msession) ≠ PublicLobby →
  Backfill w session msession st
  = (inr (None, "",
          Some (status_Errorf codes.InvalidArgument "Cannot backfill private lobbies" [])),
     st).
Proof.
  intros Hprivate. unfold Backfill.
  destruct (decide (LobbyType (Label msession) ≠ PublicLobby)) as [_|Hpub].
  - reflexivity.
  - contradiction.
Qed.

Lemma bind_run {A B} (m : M A) (k : A → M B) st a st' :
  m st = (inr a, st') → (m ≫= k) st = k a st'.
Proof. intros H. unfold mbind, M_bind. by rewrite H. Qed.

Lemma bind_throw {A B} (m : M A) (k : A → M B) st e st' :
  m st = (inl e, st') → (m ≫= k) st = (inl e, st').
Proof. intros H. unfold mbind, M_bind. by rewrite H. Qed.

Lemma bind_gets {A B} (f : St → A) (k : A → M B) st :
  (gets f ≫= k) st = k (f st) st.
Proof. reflexivity. Qed.

Lemma bind_modify {B} (f : St → St) (k : unit → M B) st :
  (modify f ≫= k) st = k () (f st).
Proof. reflexivity. Qed.

Lemma bind_emit {B} ev (k : unit → M B) st :
  (emit ev ≫= k) st = k () (with_trace (λ t, t ++ [ev]) st).
Proof. reflexivity. Qed.

(** ** Traces only grow *)

Lemma emits_only_ret {A} P (a : A) : emits_only P (mret a).
Proof. intros st. exists []. by rewrite app_nil_r. Qed.

Lemma emits_only_throw {A} P e : emits_only P (throw (A:=A) e).
Proof. intros st. exists []. by rewrite app_nil_r. Qed.

Lemma emits_only_gets {A} P (f : St → A) : emits_only P (gets f).
Proof. intros st. exists []. by rewrite app_nil_r. Qed.

Lemma emits_only_modify P f :
  (∀ st, trace (f st) = trace st) → emits_only P (modify f).
Proof.
  intros Hf st. exists []. split; [|constructor].
  unfold modify. simpl. by rewrite app_nil_r, Hf.
Qed.

Lemma emits_only_emit (P : Event → Prop) ev : P ev → emits_only P (emit ev).
Proof. intros HP st. exists [ev]. split; [reflexivity|by constructor]. Qed.

Lemma emits_only_bind {A B} P (m : M A) (k : A → M B) :
  emits_only P m → (∀ a, emits_only P (k a)) → emits_only P (m ≫= k).
Proof.
  intros Hm Hk st. destruct (Hm st) as (new1 & Ht1 & HP1).
  unfold mbind, M_bind. destruct (m st) as [[e|a] st1]; simpl in *.
  - by exists new1.
  - destruct (Hk a st1) as (new2 & Ht2 & HP2).
    exists (new1 ++ new2). rewrite Ht2, Ht1, app_assoc. split; [done|].
    by apply Forall_app.
Qed.

Lemma emits_only_catch {A} P (m : M A) : emits_only P m → emits_only P (catch m).
Proof.
  intros Hm st. destruct (Hm st) as (new & Ht & HP). exists new.
  unfold catch. destruct (m st) as [[e|a] st1]; simpl in *; [|done].
  by destruct (is_panic e).
Qed.

Ltac emits_step :=
  first
    [ apply emits_only_ret
    | apply emits_only_throw
    | apply emits_only_gets
    | apply emits_only_emit; (reflexivity || done)
    | apply emits_only_modify; reflexivity
    | apply emits_only_catch
    | apply emits_only_bind; [|intros ?]
    | match goal with
      | |- emits_only _ (match ?x with _ => _ end) => destruct x
      | |- emits_only _ (if ?b then _ else _) => destruct b
      end ].

Ltac emits := repeat emits_step.

Lemma joinPartyGroup_emits w userID sessionID username node groupID :
  emits_only (λ ev, is_probe_event ev = false)
             (joinPartyGroup w userID sessionID username node groupID).
Proof. unfold joinPartyGroup. emits. Qed.

Lemma PingEndpoints_nil w session msession st :
  PingEndpoints w session msession [] st = (inr [], st).
Proof. reflexivity. Qed.

(** C10: with an empty endpoint list [PingEndpoints] returns no metrics and
    no error and leaves the state, trace included, untouched: nothing is sent
    and nothing is awaited.  A [MatchMake] with no registered broadcaster
    therefore goes straight on to [BuildQuery] with no latency data, and none
    of its later steps sends a probe or waits for one. *)
Theorem MatchMake_no_broadcasters w session msession st :
  broadcasters st = ∅ →
  PingEndpoints w session msession [] st = (inr [], st)
  ∧ ∃ rest,
      trace (MatchMake w session msession st).2 = trace st ++ EvBuildQuery [] :: rest
      ∧ Forall (λ ev, is_probe_event ev = false) rest.
Proof.
  intros Hempty. split; [reflexivity|].
  unfold MatchMake. rewrite bind_gets, Hempty, map_to_list_empty.
  erewrite bind_run by apply PingEndpoints_nil.
  rewrite bind_emit.
  match goal with
  | |- ∃ rest, trace (?tail ?st1).2 = _ ∧ _ =>
    assert (Htail : emits_only (λ ev, is_probe_event ev = false) tail)
  end.
  { emits. apply joinPartyGroup_emits. }
  destruct (Htail (with_trace (λ t, t ++ [EvBuildQuery []]) st)) as (new & Ht & HP).
  exists new. split; [|done].
  rewrite Ht. simpl. by rewrite <- app_assoc.
Qed.

(** ** Waiting for probe results *)

Lemma MatchMake_ping_error w session msession st e st' :
  PingEndpoints w session msession (map_to_list (broadcasters st)).*2 st = (inl e, st') →
  MatchMake w session msession st = (inl e, st').
Proof.
  intros Hping. unfold MatchMake. rewrite bind_gets.
  by erewrite bind_throw by exact Hping.
Qed.

(** C7: once the probe request is out and [PingEndpoints] waits, a cancelled
    context ends the call with [ErrMatchmakingCanceled] and the expiry of the
    five-second timer ends it with [ErrMatchmakingPingTimeout].  In both
    cases the latency cache is left as it was and no latencies are read back;
    [MatchMake] returns the same error without building a query or
    submitting a ticket. *)
Theorem PingEndpoints_wait_abandoned w session msession endpoints st :
  endpoints ≠ [] →
  GetPingCandidates w (LatencyCache st) endpoints ≠ [] →
  SendEvr w [evr.NewLobbyPingRequest 275
               (GetPingCandidates w (LatencyCache st) endpoints);
             evr.NewSTcpConnectionUnrequireEvent] = None →
  ∀ outcome err,
    awaitPing w (GetPingCandidates w (LatencyCache st) endpoints) = outcome →
    (outcome = CtxDone ∧ err = ErrMatchmakingCanceled)
    ∨ (outcome = TimerFired ∧ err = ErrMatchmakingPingTimeout) →
    ∃ st',
      PingEndpoints w session msession endpoints st = (inl err, st')
      ∧ trace st'
        = trace st
          ++ [EvSendEvr [evr.NewLobbyPingRequest 275
                           (GetPingCandidates w (LatencyCache st) endpoints);
                         evr.NewSTcpConnectionUnrequireEvent];
              EvAwaitPing (5 * time.Second)]
      ∧ 5 * time.Second = 5000000000
      ∧ LatencyCache st' = LatencyCache st
      ∧ tickets st' = tickets st
      ∧ (endpoints = (map_to_list (broadcasters st)).*2 →
         MatchMake w session msession st = (inl err, st')).
Proof.
  intros Hne Hcand Hsend outcome err Hout Hcase.
  assert (Hrun : ∃ st',
    PingEndpoints w session msession endpoints st = (inl err, st')
    ∧ trace st'
      = trace st
        ++ [EvSendEvr [evr.NewLobbyPingRequest 275
                         (GetPingCandidates w (LatencyCache st) endpoints);
                       evr.NewSTcpConnectionUnrequireEvent];
            EvAwaitPing (5 * time.Second)]
    ∧ LatencyCache st' = LatencyCache st ∧ tickets st' = tickets st).
  { unfold PingEndpoints.
    destruct (decide (length endpoints = 0%nat)) as [Hlen|_].
    { by destruct endpoints. }
    rewrite bind_modify, bind_gets. simpl LatencyCache.
    destruct (decide (0 < length (GetPingCandidates w (LatencyCache st) endpoints))%nat)
      as [_|Hlen].
    2:{ destruct (GetPingCandidates w (LatencyCache st) endpoints); [done|simpl in Hlen; lia]. }
    unfold sendPingRequest. run. rewrite Hsend, Hout. simpl.
    destruct Hcase as [[-> ->]|[-> ->]]; simpl;
      (eexists; split; [reflexivity|]); simpl;
      by rewrite <- app_assoc. }
  destruct Hrun as (st' & Hping & Htrace & Hcache & Htickets).
  exists st'. repeat split; try done.
  intros ->. by apply MatchMake_ping_error.
Qed.

(** ** Match query builder *)

(** C8 (as amended): for a non-spectator, non-moderator label with a
    populated channel list and its channel pointer set, the builder returns
    a query whose parts contain the MUST predicate on those channels and the
    size bound; the MUST NOT predicate on the label's match id is among them
    exactly when that id is not the nil UUID, and otherwise no part is a MUST
    NOT predicate. *)
Theorem buildMatchQuery_scope_and_own_match w ml channel :
  TeamIndex ml ≠ Spectator →
  TeamIndex ml ≠ Moderator →
  Channels (Broadcaster ml) ≠ [] →
  Channel ml = Some channel →
  ∃ qparts,
    buildMatchQueryParts ml = inr qparts
    ∧ buildMatchQueryFromLabel w ml = inr (strings.Join (renderPart w <$> qparts) " ")
    ∧ Query.Q (Query.Channels (Channels (Broadcaster ml))) Query.Must 0 ∈ qparts
    ∧ Query.SizeAtMost (Size ml) ∈ qparts
    ∧ (MatchID ml ≠ uuid.Nil →
       Query.Q (Query.MatchId (MatchID ml)) Query.MustNot 0 ∈ qparts)
    ∧ (MatchID ml = uuid.Nil →
       ∀ part, part ∈ qparts → Query.operator_of part ≠ Some Query.MustNot).
Proof.
  intros Hspec Hmod Hchan Hptr.
  unfold buildMatchQueryFromLabel, buildMatchQueryParts. rewrite Hptr.
  destruct (decide (TeamIndex ml ≠ Spectator ∧ TeamIndex ml ≠ Moderator)) as [_|Hno];
    [|by destruct Hno].
  destruct (decide (length (Channels (Broadcaster ml)) ≠ 0%nat)) as [_|Hno];
    [|by destruct (Channels (Broadcaster ml)); [|destruct Hno]].
  eexists. split; [reflexivity|]. split; [reflexivity|].
  destruct (decide (MatchID ml ≠ uuid.Nil)) as [Hid|Hid];
    destruct (decide (channel ≠ uuid.Nil));
    destruct (decide (Region (Broadcaster ml) ≠ 0));
    repeat split; intros;
    try contradiction;
    try (rewrite !elem_of_app, !elem_of_cons; by eauto 10);
    repeat match goal with
           | H : _ ∈ _ ++ _ |- _ => apply elem_of_app in H as [H|H]
           | H : _ ∈ _ :: _ |- _ => apply elem_of_cons in H as [->|H]
           | H : _ ∈ [] |- _ => by apply elem_of_nil in H
           end; done.
Qed.

(** ** Rounding *)

Lemma mroundRTT_bucket_270 rtt :
  265 * time.Millisecond ≤ rtt < 275 * time.Millisecond →
  mroundRTT rtt (10 * time.Millisecond) = 270 * time.Millisecond.
Proof.
  unfold mroundRTT, math.Round_div, time.Millisecond, time.Microsecond, time.Nanosecond.
  intros [Hlo Hhi]. destruct (Z.leb_spec 0 rtt); [|lia].
  replace ((2 * rtt + 10 * (1000 * (1000 * 1))) / (2 * (10 * (1000 * (1000 * 1))))) with 27;
    [lia|].
  apply Z.div_unique with (r := 2 * rtt + 10000000 - 27 * 20000000); lia.
Qed.

Lemma mroundRTT_above_ceiling rtt :
  275 * time.Millisecond ≤ rtt →
  270 * time.Millisecond < mroundRTT rtt (10 * time.Millisecond).
Proof.
  unfold mroundRTT, math.Round_div, time.Millisecond, time.Microsecond, time.Nanosecond.
  intros Hlo. destruct (Z.leb_spec 0 rtt); [|lia].
  assert (28 ≤ (2 * rtt + 10 * (1000 * (1000 * 1))) / (2 * (10 * (1000 * (1000 * 1)))))
    by (apply Z.div_le_lower_bound; lia).
  lia.
Qed.

Lemma mroundRTT_zero rtt :
  - (5 * time.Millisecond) < rtt < 5 * time.Millisecond →
  mroundRTT rtt (10 * time.Millisecond) = 0.
Proof.
  unfold mroundRTT, math.Round_div, time.Millisecond, time.Microsecond, time.Nanosecond.
  intros [Hlo Hhi]. destruct (Z.leb_spec 0 rtt).
  - rewrite Z.div_small; lia.
  - rewrite Z.div_small; lia.
Qed.

(** ** The latency cache *)

Lemma storeResults_other w known results cache key :
  (∀ later b, later ∈ results → known !! evr.EndpointID later = Some b →
     LatencyMetric_ID w {| lm_Endpoint := b; lm_RTT := evr.RTT later;
                           lm_Timestamp := Now w |} ≠ key) →
  storeResults w known results cache !! key = cache !! key.
Proof.
  revert cache. induction results as [|response rest IH]; intros cache Hfresh; [done|].
  simpl. destruct (known !! evr.EndpointID response) as [b|] eqn:Hknown.
  - rewrite IH.
    + apply lookup_insert_ne. eapply Hfresh; [left|done].
    + intros later b' Hin. apply Hfresh. by right.
  - apply IH. intros later b' Hin. apply Hfresh. by right.
Qed.

Lemma storeResults_last w known before response after cache b :
  known !! evr.EndpointID response = Some b →
  (∀ later b', later ∈ after → known !! evr.EndpointID later = Some b' →
     LatencyMetric_ID w {| lm_Endpoint := b'; lm_RTT := evr.RTT later;
                           lm_Timestamp := Now w |}
     ≠ LatencyMetric_ID w {| lm_Endpoint := b; lm_RTT := evr.RTT response;
                             lm_Timestamp := Now w |}) →
  storeResults w known (before ++ response :: after) cache
    !! LatencyMetric_ID w {| lm_Endpoint := b; lm_RTT := evr.RTT response;
                             lm_Timestamp := Now w |}
  = Some {| lm_Endpoint := b; lm_RTT := evr.RTT response; lm_Timestamp := Now w |}.
Proof.
  intros Hknown Hfresh. revert cache.
  induction before as [|first before IH]; intros cache; simpl.
  - rewrite Hknown, storeResults_other by done. apply lookup_insert_eq.
  - destruct (known !! evr.EndpointID first); apply IH.
Qed.

Lemma roundedRTTs_lookup w modulus result id v :
  roundedRTTs w modulus result !! id = Some v →
  ∃ r, r ∈ result ∧ Endpoint_ID w (lm_Endpoint r) = id
       ∧ v = mroundRTT (lm_RTT r) modulus.
Proof.
  unfold roundedRTTs.
  assert (Hgen : ∀ acc : gmap string time.Duration,
    foldl (λ m r, <[Endpoint_ID w (lm_Endpoint r) := mroundRTT (lm_RTT r) modulus]> m)
          acc result !! id = Some v →
    acc !! id = Some v
    ∨ ∃ r, r ∈ result ∧ Endpoint_ID w (lm_Endpoint r) = id
           ∧ v = mroundRTT (lm_RTT r) modulus).
  { induction result as [|r rest IH]; intros acc Hlook; simpl in *; [by left|].
    destruct (IH _ Hlook) as [Hacc|(r' & Hin & Hid & Hv)].
    - destruct (decide (Endpoint_ID w (lm_Endpoint r) = id)) as [Heq|Hne].
      + rewrite Heq, lookup_insert_eq in Hacc. right. exists r.
        split; [left|]. split; [done|]. congruence.
      + rewrite lookup_insert_ne in Hacc by done. by left.
    - right. exists r'. split; [by right|done]. }
  intros Hlook. destruct (Hgen _ Hlook) as [Hempty|?]; [|done].
  by rewrite lookup_empty in Hempty.
Qed.

(** C3 (as amended): a probe reply consumed by [PingEndpoints], for an
    endpoint the registry knows and not overwritten by a later reply of the
    same batch, is stored in the latency cache with the RTT exactly as
    measured.  Rounding to the 10ms modulus is applied afterwards, to the
    latencies read back, when [MatchSort] builds its table of rounded RTTs. *)
Theorem PingEndpoints_stores_measured_RTT
    w session msession endpoints st results before response after broadcaster :
  endpoints ≠ [] →
  GetPingCandidates w (LatencyCache st) endpoints ≠ [] →
  SendEvr w [evr.NewLobbyPingRequest 275
               (GetPingCandidates w (LatencyCache st) endpoints);
             evr.NewSTcpConnectionUnrequireEvent] = None →
  awaitPing w (GetPingCandidates w (LatencyCache st) endpoints) = PingResults results →
  results = before ++ response :: after →
  UpdateBroadcasters w (broadcasters st) endpoints !! evr.EndpointID response
  = Some broadcaster →
  (∀ later b', later ∈ after →
     UpdateBroadcasters w (broadcasters st) endpoints !! evr.EndpointID later = Some b' →
     LatencyMetric_ID w {| lm_Endpoint := b'; lm_RTT := evr.RTT later;
                           lm_Timestamp := Now w |}
     ≠ LatencyMetric_ID w {| lm_Endpoint := broadcaster; lm_RTT := evr.RTT response;
                             lm_Timestamp := Now w |}) →
  ∃ latencies st',
    PingEndpoints w session msession endpoints st = (inr latencies, st')
    ∧ LatencyCache st'
        !! LatencyMetric_ID w {| lm_Endpoint := broadcaster; lm_RTT := evr.RTT response;
                                 lm_Timestamp := Now w |}
      = Some {| lm_Endpoint := broadcaster; lm_RTT := evr.RTT response;
                lm_Timestamp := Now w |}
    ∧ (∀ id v,
         roundedRTTs w (10 * time.Millisecond) latencies !! id = Some v →
         ∃ r, r ∈ latencies ∧ Endpoint_ID w (lm_Endpoint r) = id
              ∧ v = mroundRTT (lm_RTT r) (10 * time.Millisecond)).
Proof.
  intros Hne Hcand Hsend Hout -> Hknown Hfresh.
  unfold PingEndpoints.
  destruct (decide (length endpoints = 0%nat)) as [Hlen|_].
  { by destruct endpoints. }
  rewrite bind_modify, bind_gets. simpl LatencyCache.
  destruct (decide (0 < length (GetPingCandidates w (LatencyCache st) endpoints))%nat)
    as [_|Hlen].
  2:{ destruct (GetPingCandidates w (LatencyCache st) endpoints); [done|simpl in Hlen; lia]. }
  unfold sendPingRequest, getEndpointLatencies. run. rewrite Hsend, Hout. simpl.
  eexists _, _. split; [reflexivity|]. simpl. split.
  - by apply storeResults_last.
  - intros id v. apply roundedRTTs_lookup.
Qed.

(** ** Filtering and ranking *)

Lemma labelDatas_elem w endpointRTTs labels d :
  d ∈ labelDatas w endpointRTTs labels ↔
  ∃ label, label ∈ labels
    ∧ rttOf endpointRTTs (Endpoint_ID w (Endpoint (Broadcaster label))) ≠ 0
    ∧ rttOf endpointRTTs (Endpoint_ID w (Endpoint (Broadcaster label)))
      ≤ 270 * time.Millisecond
    ∧ d = {| ld_Id := Endpoint_ID w (Endpoint (Broadcaster label));
             ld_Size := Size label;
             ld_RTT := rttOf endpointRTTs (Endpoint_ID w (Endpoint (Broadcaster label))) |}.
Proof.
  unfold labelDatas. rewrite list_elem_of_omap. split.
  - intros (label & Hin & Hkeep). exists label. split; [done|].
    destruct (Z.eqb_spec (rttOf endpointRTTs (Endpoint_ID w (Endpoint (Broadcaster label)))) 0);
      [done|].
    destruct (Z.ltb_spec (270 * time.Millisecond)
                (rttOf endpointRTTs (Endpoint_ID w (Endpoint (Broadcaster label)))));
      [done|].
    simpl in Hkeep. by inversion Hkeep.
  - intros (label & Hin & Hnz & Hle & ->). exists label. split; [done|].
    destruct (Z.eqb_spec (rttOf endpointRTTs (Endpoint_ID w (Endpoint (Broadcaster label)))) 0);
      [done|].
    destruct (Z.ltb_spec (270 * time.Millisecond)
                (rttOf endpointRTTs (Endpoint_ID w (Endpoint (Broadcaster label)))));
      [lia|done].
Qed.

Lemma sortDatas_elem w mode datas d :
  (∀ A less (l : list A), sort_SliceStable w A less l ≡ₚ l) →
  d ∈ sortDatas w mode datas ↔ d ∈ datas.
Proof.
  intros Hperm. unfold sortDatas. destruct mode; by rewrite Hperm.
Qed.

Lemma firstOnEndpoint_Some w labels id label :
  firstOnEndpoint w labels id = Some label →
  label ∈ labels ∧ Endpoint_ID w (Endpoint (Broadcaster label)) = id.
Proof.
  unfold firstOnEndpoint. intros Hfind. apply find_some in Hfind as [Hin Hid].
  split; [by apply list_elem_of_In|]. by apply bool_decide_eq_true in Hid.
Qed.

Lemma firstOnEndpoint_exists w labels label :
  label ∈ labels →
  ∃ first, firstOnEndpoint w labels (Endpoint_ID w (Endpoint (Broadcaster label)))
           = Some first.
Proof.
  unfold firstOnEndpoint. intros Hin.
  destruct (find _ labels) as [first|] eqn:Hfind; [by exists first|].
  apply list_elem_of_In in Hin.
  pose proof (find_none _ _ Hfind _ Hin) as Hno. simpl in Hno.
  by rewrite bool_decide_eq_false in Hno.
Qed.

Lemma matchDatas_elem w labels datas label rtt :
  (label, rtt) ∈ matchDatas w labels datas ↔
  ∃ d, d ∈ datas ∧ firstOnEndpoint w labels (ld_Id d) = Some label ∧ rtt = ld_RTT d.
Proof.
  unfold matchDatas. rewrite list_elem_of_omap. split.
  - intros (d & Hin & Hmatch). exists d. split; [done|].
    destruct (firstOnEndpoint w labels (ld_Id d)); simpl in Hmatch; [|done].
    by inversion Hmatch.
  - intros (d & Hin & Hfirst & ->). exists d. split; [done|]. by rewrite Hfirst.
Qed.

(** C4 (as amended): every label that [MatchSort] returns is one of the
    candidates, and the latency recorded for its endpoint, rounded to the
    nearest 10ms, is neither zero (which is also what a missing measurement
    reads as) nor above 270ms; conversely a candidate whose rounded latency
    passes leaves the first label on its endpoint in the output.  Because the
    ceiling is applied after rounding, a measurement of 270ms or 271ms (any
    value from 265ms up to, not including, 275ms) rounds to 270ms and is kept,
    a measurement of 275ms or more is dropped, and so is any measurement
    strictly within 5ms of zero. *)
Theorem MatchSort_latency_ceiling w session msession labels st result st' :
  (∀ A less (l : list A), sort_SliceStable w A less l ≡ₚ l) →
  labels ≠ [] →
  PingEndpoints w session msession (uniqueEndpoints w labels) st = (inr result, st') →
  ∃ filtered rtts,
    MatchSort w session msession labels st = (inr (filtered, rtts), st')
    ∧ (∀ label, label ∈ filtered →
         label ∈ labels
         ∧ ∃ r, r ∈ result
             ∧ Endpoint_ID w (lm_Endpoint r) = Endpoint_ID w (Endpoint (Broadcaster label))
             ∧ mroundRTT (lm_RTT r) (10 * time.Millisecond) ≠ 0
             ∧ mroundRTT (lm_RTT r) (10 * time.Millisecond) ≤ 270 * time.Millisecond)
    ∧ (∀ label, label ∈ labels →
         rttOf (roundedRTTs w (10 * time.Millisecond) result)
               (Endpoint_ID w (Endpoint (Broadcaster label))) ≠ 0 →
         rttOf (roundedRTTs w (10 * time.Millisecond) result)
               (Endpoint_ID w (Endpoint (Broadcaster label))) ≤ 270 * time.Millisecond →
         ∃ first,
           firstOnEndpoint w labels (Endpoint_ID w (Endpoint (Broadcaster label)))
           = Some first
           ∧ first ∈ filtered)
    ∧ (∀ rtt, 265 * time.Millisecond ≤ rtt < 275 * time.Millisecond →
         mroundRTT rtt (10 * time.Millisecond) = 270 * time.Millisecond)
    ∧ (∀ rtt, 275 * time.Millisecond ≤ rtt →
         270 * time.Millisecond < mroundRTT rtt (10 * time.Millisecond))
    ∧ (∀ rtt, - (5 * time.Millisecond) < rtt < 5 * time.Millisecond →
         mroundRTT rtt (10 * time.Millisecond) = 0).
Proof.
  intros Hperm Hne Hping.
  exists (rankLabels w (Mode (Label msession)) labels result).1,
         (rankLabels w (Mode (Label msession)) labels result).2.
  split.
  { unfold MatchSort. destruct (decide (length labels = 0%nat)) as [Hlen|_].
    { by destruct labels. }
    erewrite bind_run by exact Hping. reflexivity. }
  split; [|split; [|split; [|split]]].
  - intros label Hin. unfold rankLabels in Hin. simpl in Hin.
    apply list_elem_of_fmap in Hin as ([label' rtt] & -> & Hin). simpl.
    apply matchDatas_elem in Hin as (d & Hd & Hfirst & _).
    apply firstOnEndpoint_Some in Hfirst as [Hlabel Hid].
    split; [done|].
    apply sortDatas_elem in Hd; [|done].
    apply labelDatas_elem in Hd as (src & _ & Hnz & Hle & ->). simpl in Hid.
    rewrite Hid. unfold rttOf in Hnz, Hle.
    destruct (roundedRTTs w (10 * time.Millisecond) result
                !! Endpoint_ID w (Endpoint (Broadcaster src))) as [v|] eqn:Hlook;
      simpl in *; [|done].
    apply roundedRTTs_lookup in Hlook as (r & Hr & Hrid & ->).
    exists r. by repeat split.
  - intros label Hin Hnz Hle.
    destruct (firstOnEndpoint_exists w labels label Hin) as [first Hfirst].
    exists first. split; [done|]. unfold rankLabels. simpl.
    apply list_elem_of_fmap.
    exists (first, rttOf (roundedRTTs w (10 * time.Millisecond) result)
                         (Endpoint_ID w (Endpoint (Broadcaster label)))).
    split; [done|]. apply matchDatas_elem. eexists. split.
    + apply sortDatas_elem; [done|]. apply labelDatas_elem. by exists label.
    + by simpl.
  - apply mroundRTT_bucket_270.
  - apply mroundRTT_above_ceiling.
  - apply mroundRTT_zero.
Qed.

(** ** Broadcaster registration *)

Lemma catch_run {A} (m : M A) st a st' :
  m st = (inr a, st') → catch m st = (inr (inr a), st').
Proof. intros H. unfold catch. by rewrite H. Qed.

Lemma authenticateBroadcaster_emits w discordId password :
  emits_only (λ ev, is_parking_event ev = false)
             (authenticateBroadcaster w discordId password).
Proof. unfold authenticateBroadcaster. emits. Qed.

(** X30: when the health check of a registration that got past authentication
    reports a negative RTT or an error, the request ends in an error right
    after the check: the failure message is handed to the transport, the
    session is closed when that send succeeds, the hosted scopes are never
    resolved and no parking match is created or joined. *)
Lemma registration_unreachable_endpoint
    w session request discordId password tags guildIds userId username st st1 ip rtt err :
  authDetails w = inr (discordId, password, tags, guildIds) →
  authenticateBroadcaster w discordId password st = (inr (userId, username), st1) →
  ip = (if isPrivateIP w (ws_ClientIP session) then externalIP w
        else ws_ClientIP session) →
  healthcheckResult (probe w ip (req_Port request)) ip (500 * time.Millisecond)
  = (rtt, err) →
  rtt < 0 ∨ err ≠ None →
  ∃ e st',
    broadcasterRegistrationRequest w session request st = (inl e, st')
    ∧ trace st'
      = trace st1
        ++ [EvGoRetrieveIPinfo ip;
            EvHealthcheck ip (req_Port request) (500 * time.Millisecond);
            EvGoSendDiscordError err discordId;
            EvSendEvr [evr.NewBroadcasterRegistrationFailure
                         evr.BroadcasterRegistration_Failure]]
        ++ match SendEvr w [evr.NewBroadcasterRegistrationFailure
                              evr.BroadcasterRegistration_Failure] with
           | None =>
             [EvSessionClose
                (fmt_Errorf "broadcaster failed availability check: %v" [ArgError err])]
           | Some _ => []
           end
    ∧ (∃ new, trace st' = trace st ++ new
              ∧ Forall (λ ev, is_parking_event ev = false) new)
    ∧ matchBySession st' = matchBySession st1
    ∧ broadcasterRegistrationBySession st' = broadcasterRegistrationBySession st1.
Proof.
  intros Hdetails Hauth Hip Hcheck Hbad.
  assert (Hfails : (rtt <? 0) || bool_decide (err ≠ None) = true).
  { destruct Hbad as [Hneg|Herr].
    - apply orb_true_iff. left. by apply Z.ltb_lt.
    - apply orb_true_iff. right. by apply bool_decide_eq_true. }
  destruct (authenticateBroadcaster_emits w discordId password st)
    as (authEvents & Hauth_trace & Hauth_ok).
  rewrite Hauth in Hauth_trace. simpl in Hauth_trace.
  unfold broadcasterRegistrationRequest. rewrite Hdetails.
  erewrite bind_run by (apply catch_run; exact Hauth).
  rewrite <- Hip. unfold BroadcasterHealthcheck, errFailedRegistration. run.
  rewrite Hcheck. simpl. rewrite Hfails.
  destruct (SendEvr w [evr.NewBroadcasterRegistrationFailure
                         evr.BroadcasterRegistration_Failure]) as [sendErr|];
    simpl; (eexists _, _; split; [reflexivity|]); simpl;
    rewrite <- !app_assoc; simpl; (split; [reflexivity|]);
    (split; [|done]);
    rewrite Hauth_trace, <- !app_assoc;
    (eexists; split; [reflexivity|]);
    (apply Forall_app; split; [done|]); repeat constructor.
Qed.

(** ** Party groups *)

(** C6 (as amended): [joinPartyGroup] adds the player to an existing party
    that has room, creates a party of maximum size 8 when none exists, and for
    a party at its maximum size adds nobody and returns the handler together
    with a resource-exhausted error.  [MatchMake] only logs that error: with
    a full party it still records the party on the session, tags the query
    and the properties with the group, and submits the ticket under the
    party's id. *)
Theorem joinPartyGroup_outcomes w session msession st :
  ∀ config, LoadMatchmakingSettings w (ws_userID session) = inr config →
  GroupID config ≠ "" →
  (∀ st0 ph,
     parties w !! NewV5 w uuid.Nil (GroupID config) = Some ph →
     ph_maxSize ph ≤ Z.of_nat (length (ph_members ph)) →
     joinPartyGroup w (ws_userID session) (ws_id session) (ws_Username session)
                    (node w) (GroupID config) st0
     = (inr (ph, Some (status_Errorf codes.ResourceExhausted "Party is full" [])),
        with_trace (λ t, t ++ [EvCounter "partyregistry_error_party_full"]) st0))
  ∧ (∀ st0 ph,
       parties w !! NewV5 w uuid.Nil (GroupID config) = Some ph →
       Z.of_nat (length (ph_members ph)) < ph_maxSize ph →
       joinPartyGroup w (ws_userID session) (ws_id session) (ws_Username session)
                      (node w) (GroupID config) st0
       = (inr (ph, None),
          with_trace
            (λ t, t ++ [EvPartyJoin (NewV5 w uuid.Nil (GroupID config))
                          [ {| pr_Node := node w;
                               pr_SessionID := FromStringOrNil w (ws_id session);
                               pr_UserID := FromStringOrNil w (ws_userID session);
                               pr_Username := ws_Username session |} ]])
            st0))
  ∧ (∀ st0,
       parties w !! NewV5 w uuid.Nil (GroupID config) = None →
       ∃ st0',
         joinPartyGroup w (ws_userID session) (ws_id session) (ws_Username session)
                        (node w) (GroupID config) st0
         = (inr (partyCreate w true 8
                   {| up_UserId := ws_userID session; up_SessionId := ws_id session;
                      up_Username := ws_Username session |}, None), st0')
         ∧ trace st0'
           = trace st0
             ++ [EvCounter "partyregistry_create";
                 EvPartyCreate true 8
                   {| up_UserId := ws_userID session; up_SessionId := ws_id session;
                      up_Username := ws_Username session |}])
  ∧ (∀ allRTTs st1 query stringProps numericProps gconfig ph evrToken ticket,
       PingEndpoints w session msession (map_to_list (broadcasters st)).*2 st
       = (inr allRTTs, st1) →
       BuildQuery w msession allRTTs = inr (query, stringProps, numericProps) →
       LoadMatchmakingSettings w (SystemUserID w) = inr gconfig →
       parties w !! NewV5 w uuid.Nil (GroupID config) = Some ph →
       ph_maxSize ph ≤ Z.of_nat (length (ph_members ph)) →
       ctxEvrID w = Some evrToken →
       let query' := (query +:+ " " +:+ QueryAddon gconfig +:+ " " +:+ QueryAddon config)
                     +:+ " properties.party_group:" +:+ GroupID config +:+ "^5" in
       let pID := if decide (ph_ID ph ≠ uuid.Nil) then ph_ID ph else "" in
       TrackMulti w query' = true →
       matchmakerAdd w (ws_id session) pID query' = inr ticket →
       ∃ st',
         MatchMake w session msession st = (inr ticket, st')
         ∧ Party st' = Some ph
         ∧ tickets st' = <[ticket := query']> (tickets st1)
         ∧ trace st'
           = trace st1
             ++ [EvBuildQuery allRTTs;
                 EvLoadMatchmakingSettings (SystemUserID w);
                 EvLoadMatchmakingSettings (ws_userID session);
                 EvCounter "partyregistry_error_party_full";
                 EvTrackMulti query';
                 EvCounter "matchmaker_tickets";
                 EvMatchmakerAdd (ws_id session) pID query' (MinCount gconfig)
                   (MaxCount gconfig) (CountMultiple gconfig)
                   (<["evr_id" := evrToken]>
                      (<["party_group" := GroupID config]> stringProps))
                   numericProps]).
Proof.
  intros config Hconfig Hgroup.
  assert (Hfull : ∀ st0 ph,
     parties w !! NewV5 w uuid.Nil (GroupID config) = Some ph →
     ph_maxSize ph ≤ Z.of_nat (length (ph_members ph)) →
     joinPartyGroup w (ws_userID session) (ws_id session) (ws_Username session)
                    (node w) (GroupID config) st0
     = (inr (ph, Some (status_Errorf codes.ResourceExhausted "Party is full" [])),
        with_trace (λ t, t ++ [EvCounter "partyregistry_error_party_full"]) st0)).
  { intros st0 ph Hfound Hsize. unfold joinPartyGroup. rewrite Hfound.
    destruct (Z.ltb_spec (Z.of_nat (length (ph_members ph))) (ph_maxSize ph)); [lia|].
    reflexivity. }
  split; [exact Hfull|]. split; [|split].
  - intros st0 ph Hfound Hsize. unfold joinPartyGroup. rewrite Hfound.
    destruct (Z.ltb_spec (Z.of_nat (length (ph_members ph))) (ph_maxSize ph)); [|lia].
    reflexivity.
  - intros st0 Hnone. unfold joinPartyGroup. rewrite Hnone. run.
    eexists. split; [reflexivity|]. simpl. by rewrite <- app_assoc.
  - intros allRTTs st1 query stringProps numericProps gconfig ph evrToken ticket
           Hping Hbuild Hglobal Hfound Hsize Hevr query' pID Htrack Hadd.
    unfold MatchMake. rewrite bind_gets.
    erewrite bind_run by exact Hping.
    rewrite bind_emit, Hbuild, bind_emit, Hglobal, bind_emit, Hconfig.
    destruct (decide (GroupID config ≠ "")) as [_|Hno]; [|done].
    erewrite bind_run; cycle 1.
    { erewrite bind_run by (apply Hfull; eassumption).
      cbv beta iota. rewrite bind_modify. reflexivity. }
    cbv beta iota. rewrite Hevr, bind_emit. fold query'. rewrite Htrack.
    change (negb true) with false. cbv beta iota.
    rewrite !bind_emit. fold pID. rewrite Hadd, bind_modify.
    eexists. split; [reflexivity|]. simpl.
    split; [done|]. split; [done|]. by rewrite <- !app_assoc.
Qed.

(** ** Go's insertion sort permutes its input *)

Lemma insertLeft_perm {A} (less : A → A → bool) x l : insertLeft less x l ≡ₚ x :: l.
Proof.
  induction l as [|y l IH]; simpl; [done|].
  destruct (less x y); [|done]. rewrite IH. apply Permutation_swap.
Qed.

Lemma insertionSort_perm {A} (less : A → A → bool) (l : list A) :
  insertionSort less l ≡ₚ l.
Proof.
  unfold insertionSort. rewrite reverse_Permutation.
  assert (Hgen : ∀ acc, foldl (λ acc x, insertLeft less x acc) acc l ≡ₚ acc ++ l).
  { induction l as [|x l IH]; intros acc; simpl.
    - by rewrite app_nil_r.
    - rewrite IH, insertLeft_perm. simpl. apply Permutation_middle. }
  apply (Hgen []).
Qed.

(** ** The tier test of the Arena comparator *)

Lemma RTTweightedPopulationCmp_over_before_under i j o p :
  90 * time.Millisecond < i → j < 90 * time.Millisecond →
  RTTweightedPopulationCmp i j o p = true
  ∧ RTTweightedPopulationCmp j i p o = false.
Proof.
  intros Hi Hj. unfold RTTweightedPopulationCmp.
  destruct (Z.ltb_spec (90 * time.Millisecond) i); [|lia].
  destruct (Z.ltb_spec j (90 * time.Millisecond)); [|lia].
  destruct (Z.ltb_spec (90 * time.Millisecond) j); [lia|].
  destruct (Z.ltb_spec i (90 * time.Millisecond)); [lia|].
  done.
Qed.

(** ** Worked examples *)

(** C1: the Arena comparator reports "sorts before" when the first RTT is
    over 90ms and the second under it, so the over-threshold candidate comes
    first.  With A (80ms, population 5) and B (95ms, population 10)
    [MatchSort] returns B before A, and it still does when the populations
    are exchanged. *)
Theorem MatchSort_arena_over_threshold_first :
  (MatchSort (worldOf pingAB) demoSession (sessionFor ModeArenaPublic (OtherTeam 0))
             [labelA; labelB] emptySt).1
  = inr ([labelB; labelA], [100 * time.Millisecond; 80 * time.Millisecond])
  ∧ (MatchSort (worldOf pingAB) demoSession (sessionFor ModeArenaPublic (OtherTeam 0))
               [labelA10; labelB5] emptySt).1
    = inr ([labelB5; labelA10], [100 * time.Millisecond; 80 * time.Millisecond]).
Proof. split; vm_compute; reflexivity. Qed.

(** C2: the capacity test skips a candidate only when its live size is
    strictly greater than [MaxSize + 1].  A spectator's backfill therefore
    selects a session whose live size is exactly [MaxSize + 1]: eight players
    and the broadcaster on a session with [MaxSize = 8]. *)
Theorem Backfill_selects_session_at_capacity :
  GetMatch (worldOf staleFull) (EvrMatchState_ID (worldOf staleFull) labelA)
  = (Some {| am_Size := 9; am_LabelValue := "label-A-live" |}, None)
  ∧ MaxSize liveA + 1 = 9
  ∧ ∃ query,
      (Backfill (worldOf staleFull) demoSession (sessionFor ModeArenaPublic Spectator)
                emptySt).1
      = inr (Some liveA, query, None).
Proof.
  split; [vm_compute; reflexivity|]. split; [reflexivity|].
  eexists. vm_compute. reflexivity.
Qed.

(** The cache holds the measured 95ms, not the 100ms bucket. *)
Lemma cache_keeps_unrounded_RTT :
  LatencyCache
    (PingEndpoints (worldOf pingAB) demoSession (sessionFor ModeArenaPublic (OtherTeam 0))
                   [demoEndpoint "hostA"; demoEndpoint "hostB"] emptySt).2
    !! demoEndpointID (demoEndpoint "hostB")
  = Some (demoMetric "hostB" (95 * time.Millisecond))
  ∧ mroundRTT (95 * time.Millisecond) (10 * time.Millisecond) = 100 * time.Millisecond
  ∧ lm_RTT (demoMetric "hostB" (95 * time.Millisecond))
    ≠ mroundRTT (95 * time.Millisecond) (10 * time.Millisecond).
Proof. split; [|split]; vm_compute; (reflexivity || discriminate). Qed.

(** A candidate measured at 271ms is ranked: it rounds to 270ms. *)
Lemma MatchSort_keeps_271ms :
  (MatchSort (worldOf ping271) demoSession (sessionFor ModeArenaPublic (OtherTeam 0))
             [labelC] emptySt).1
  = inr ([labelC], [270 * time.Millisecond])
  ∧ LatencyCache
      (MatchSort (worldOf ping271) demoSession (sessionFor ModeArenaPublic (OtherTeam 0))
                 [labelC] emptySt).2
      !! demoEndpointID (demoEndpoint "hostC")
    = Some (demoMetric "hostC" (271 * time.Millisecond))
  ∧ 270 * time.Millisecond < 271 * time.Millisecond.
Proof. split; [|split]; vm_compute; reflexivity. Qed.

(** C5: [errFailedRegistration] returns as soon as sending the failure
    message fails, before it reaches [session.Close].  When the probe times
    out (RTT sentinel [-1]) and the transport cannot deliver the failure
    message, the request ends in an error with no close of the session in
    its trace. *)
Theorem registration_failure_without_close :
  healthcheckResult (probe (worldOf (unreachable (λ _, Some (external "broken pipe"))))
                           "198.51.100.7" 6792)
                    "198.51.100.7" (500 * time.Millisecond)
  = (-1, Some (fmt_Errorf "ping request to %v timed out (>%dms)"
                          [ArgString "198.51.100.7"; ArgString "500"]))
  ∧ (broadcasterRegistrationRequest
       (worldOf (unreachable (λ _, Some (external "broken pipe"))))
       demoSession demoRequest emptySt).1
    = inl (fmt_Errorf "failed to send lobby registration failure: %v"
                      [ArgError (Some (external "broken pipe"))])
  ∧ forallb (λ ev, negb (is_close_event ev))
      (trace (broadcasterRegistrationRequest
                (worldOf (unreachable (λ _, Some (external "broken pipe"))))
                demoSession demoRequest emptySt).2)
    = true.
Proof. split; [|split]; vm_compute; reflexivity. Qed.

(** The party is full, the join is refused, and the ticket is submitted
    under the party's id all the same. *)
Lemma MatchMake_proceeds_with_full_party :
  (joinPartyGroup (worldOf partyFull) (ws_userID demoSession) (ws_id demoSession)
                  (ws_Username demoSession) "node1" "squad" emptySt).1
  = inr (fullParty, Some (status_Errorf codes.ResourceExhausted "Party is full" []))
  ∧ (MatchMake (worldOf partyFull) demoSession
               (sessionFor ModeArenaPublic (OtherTeam 0)) emptySt).1
    = inr "ticket-1"
  ∧ Party (MatchMake (worldOf partyFull) demoSession
                     (sessionFor ModeArenaPublic (OtherTeam 0)) emptySt).2
    = Some fullParty
  ∧ last (trace (MatchMake (worldOf partyFull) demoSession
                           (sessionFor ModeArenaPublic (OtherTeam 0)) emptySt).2)
    = Some (EvMatchmakerAdd (ws_id demoSession) "party:squad"
              "+label.open:T   properties.party_group:squad^5" 2 8 2
              (<["evr_id" := "OVR-ORG-1"]> (<["party_group" := "squad"]> ∅)) ∅).
Proof. split; [|split; [|split]]; vm_compute; reflexivity. Qed.

(** A player in no match: the query carries no MUST NOT predicate. *)
Lemma query_without_MustNot :
  TeamIndex labelNoMatch ≠ Spectator
  ∧ TeamIndex labelNoMatch ≠ Moderator
  ∧ Channels (Broadcaster labelNoMatch) ≠ []
  ∧ buildMatchQueryParts labelNoMatch
    = inr [ Query.Q Query.OpenLobby Query.Must 0;
            Query.Q (Query.LobbyType PublicLobby) Query.Must 0;
            Query.Q (Query.GameMode ModeArenaPublic) Query.Must 0;
            Query.SizeAtMost 1;
            Query.Q (Query.Channels ["cccccccc-cccc-cccc-cccc-cccccccccccc"]) Query.Must 0;
            Query.Q (Query.Channel "cccccccc-cccc-cccc-cccc-cccccccccccc") Query.Should 3 ]
  ∧ buildMatchQueryFromLabel (worldOf quietScenario) labelNoMatch
    = inr ("+label.open:T +label.lobby_type:public +label.mode:arena +label.size:<=1 "
           +:+ "+label.broadcaster.channels:/(cccccccc-cccc-cccc-cccc-cccccccccccc)/ "
           +:+ "label.channel:cccccccc-cccc-cccc-cccc-cccccccccccc^3").
Proof. repeat split; try discriminate; vm_compute; reflexivity. Qed.

(** ** What the selection loop does guarantee *)

(** A selected session is the re-fetched label of one of the candidates, its
    live size is at most [MaxSize + 1], and for players who are neither
    spectators nor moderators the two teams have a free place. *)
Lemma selectBackfill_selected w want labels st selected st' :
  selectBackfill w want labels st = (inr (Some selected), st') →
  ∃ label live,
    label ∈ labels
    ∧ GetMatch w (EvrMatchState_ID w label) = (Some live, None)
    ∧ json_Unmarshal w (am_LabelValue live) (Some label) = Some selected
    ∧ am_Size live ≤ int32 (int32 (MaxSize selected) + 1)
    ∧ (want ≠ Spectator ∧ want ≠ Moderator →
       1 ≤ int64 (int64 (TeamSize selected * 2) - Z.of_nat (length (Players selected)))).
Proof.
  revert st. induction labels as [|label rest IH]; intros st Hsel; [done|].
  assert (Hskip : ∀ st0,
    selectBackfill w want rest st0 = (inr (Some selected), st') →
    ∃ label' live,
      label' ∈ label :: rest
      ∧ GetMatch w (EvrMatchState_ID w label') = (Some live, None)
      ∧ json_Unmarshal w (am_LabelValue live) (Some label') = Some selected
      ∧ am_Size live ≤ int32 (int32 (MaxSize selected) + 1)
      ∧ (want ≠ Spectator ∧ want ≠ Moderator →
         1 ≤ int64 (int64 (TeamSize selected * 2)
                    - Z.of_nat (length (Players selected))))).
  { intros st0 Hrest. destruct (IH _ Hrest) as (label' & live & Hin & Hrest').
    exists label', live. split; [by right|done]. }
  simpl in Hsel. rewrite !bind_emit in Hsel.
  destruct (GetMatch w (EvrMatchState_ID w label)) as [[live|] err] eqn:Hget.
  2:{ rewrite bind_emit in Hsel. by eapply Hskip. }
  destruct (json_Unmarshal w (am_LabelValue live) (Some label)) as [fresh|] eqn:Hjson.
  2:{ rewrite bind_emit in Hsel. by eapply Hskip. }
  destruct (decide (err ≠ None)) as [Herr|Herr].
  { rewrite bind_emit in Hsel. by eapply Hskip. }
  destruct (Z.ltb_spec (int32 (int32 (MaxSize fresh) + 1)) (am_Size live)) as [Hfull|Hroom].
  { rewrite bind_emit in Hsel. by eapply Hskip. }
  destruct (bool_decide (want ≠ Spectator ∧ want ≠ Moderator)
            && (int64 (int64 (TeamSize fresh * 2) - Z.of_nat (length (Players fresh))) <? 1))
    eqn:Hteam.
  { rewrite bind_emit in Hsel. by eapply Hskip. }
  rewrite bind_emit in Hsel. inversion Hsel; subst.
  exists label, live. split; [by left|].
  assert (err = None) as -> by (destruct err; [by destruct Herr|done]).
  repeat split; try done.
  intros Hplayer. apply andb_false_iff in Hteam as [Hno|Hteam].
  - by apply bool_decide_eq_false in Hno.
  - by apply Z.ltb_ge in Hteam.
Qed.

(** ** Instances of the theorems on the worked examples *)

Lemma Backfill_private_lobby_witness :
  LobbyType (Label privateSession) ≠ PublicLobby
  ∧ Backfill (worldOf quietScenario) demoSession privateSession emptySt
    = (inr (None, "",
            Some (status_Errorf codes.InvalidArgument
                                "Cannot backfill private lobbies" [])),
       emptySt).
Proof.
  split; [discriminate|].
  apply (Backfill_private_lobby (worldOf quietScenario) demoSession privateSession emptySt).
  discriminate.
Defined.

Lemma MatchMake_no_broadcasters_witness :
  broadcasters emptySt = ∅
  ∧ ∃ rest,
      trace (MatchMake (worldOf quietScenario) demoSession
                       (sessionFor ModeArenaPublic (OtherTeam 0)) emptySt).2
      = trace emptySt ++ EvBuildQuery [] :: rest
      ∧ Forall (λ ev, is_probe_event ev = false) rest.
Proof.
  split; [reflexivity|].
  apply (MatchMake_no_broadcasters (worldOf quietScenario) demoSession
           (sessionFor ModeArenaPublic (OtherTeam 0)) emptySt).
  reflexivity.
Defined.

Lemma PingEndpoints_wait_abandoned_witness :
  awaitPing (worldOf cancelled) [demoEndpoint "hostA"] = CtxDone
  ∧ ∃ st',
      PingEndpoints (worldOf cancelled) demoSession
                    (sessionFor ModeArenaPublic (OtherTeam 0))
                    [demoEndpoint "hostA"] emptySt
      = (inl ErrMatchmakingCanceled, st')
      ∧ LatencyCache st' = LatencyCache emptySt.
Proof.
  split; [reflexivity|].
  destruct (PingEndpoints_wait_abandoned (worldOf cancelled) demoSession
              (sessionFor ModeArenaPublic (OtherTeam 0)) [demoEndpoint "hostA"] emptySt
              ltac:(discriminate) ltac:(discriminate) ltac:(reflexivity)
              CtxDone ErrMatchmakingCanceled ltac:(reflexivity)
              ltac:(left; split; reflexivity))
    as (st' & Hrun & _ & _ & Hcache & _).
  exists st'. split; [exact Hrun|exact Hcache].
Defined.

Lemma buildMatchQuery_scope_and_own_match_witness :
  TeamIndex labelA ≠ Spectator
  ∧ TeamIndex labelA ≠ Moderator
  ∧ Channels (Broadcaster labelA) ≠ []
  ∧ ∃ qparts,
      buildMatchQueryParts labelA = inr qparts
      ∧ Query.Q (Query.Channels (Channels (Broadcaster labelA))) Query.Must 0 ∈ qparts
      ∧ Query.Q (Query.MatchId (MatchID labelA)) Query.MustNot 0 ∈ qparts.
Proof.
  split; [discriminate|]. split; [discriminate|]. split; [discriminate|].
  destruct (buildMatchQuery_scope_and_own_match (worldOf quietScenario) labelA
              "cccccccc-cccc-cccc-cccc-cccccccccccc"
              ltac:(discriminate) ltac:(discriminate) ltac:(discriminate)
              ltac:(reflexivity))
    as (qparts & Hparts & _ & Hscope & _ & Hown & _).
  exists qparts. split; [exact Hparts|]. split; [exact Hscope|].
  apply Hown. discriminate.
Defined.

Lemma PingEndpoints_stores_measured_RTT_witness :
  awaitPing (worldOf pingAB) [demoEndpoint "hostA"; demoEndpoint "hostB"]
  = PingResults [reply "hostA" (80 * time.Millisecond);
                 reply "hostB" (95 * time.Millisecond)]
  ∧ ∃ latencies st',
      PingEndpoints (worldOf pingAB) demoSession
                    (sessionFor ModeArenaPublic (OtherTeam 0))
                    [demoEndpoint "hostA"; demoEndpoint "hostB"] emptySt
      = (inr latencies, st')
      ∧ LatencyCache st' !! demoEndpointID (demoEndpoint "hostB")
        = Some (demoMetric "hostB" (95 * time.Millisecond)).
Proof.
  split; [reflexivity|].
  destruct (PingEndpoints_stores_measured_RTT (worldOf pingAB) demoSession
              (sessionFor ModeArenaPublic (OtherTeam 0))
              [demoEndpoint "hostA"; demoEndpoint "hostB"] emptySt
              [reply "hostA" (80 * time.Millisecond);
               reply "hostB" (95 * time.Millisecond)]
              [reply "hostA" (80 * time.Millisecond)]
              (reply "hostB" (95 * time.Millisecond)) []
              (demoEndpoint "hostB")
              ltac:(discriminate) ltac:(discriminate) ltac:(reflexivity)
              ltac:(reflexivity) ltac:(reflexivity) ltac:(vm_compute; reflexivity)
              ltac:(intros later b' Hin; by apply elem_of_nil in Hin))
    as (latencies & st' & Hrun & Hcache & _).
  exists latencies, st'. split; [exact Hrun|exact Hcache].
Defined.

Lemma MatchSort_latency_ceiling_witness :
  [labelC] ≠ []
  ∧ ∃ filtered rtts st',
      MatchSort (worldOf ping271) demoSession (sessionFor ModeArenaPublic (OtherTeam 0))
                [labelC] emptySt
      = (inr (filtered, rtts), st')
      ∧ ∀ label, label ∈ filtered → label ∈ [labelC].
Proof.
  split; [discriminate|].
  destruct (MatchSort_latency_ceiling (worldOf ping271) demoSession
              (sessionFor ModeArenaPublic (OtherTeam 0)) [labelC] emptySt
              [demoMetric "hostC" (271 * time.Millisecond)]
              (PingEndpoints (worldOf ping271) demoSession
                 (sessionFor ModeArenaPublic (OtherTeam 0))
                 (uniqueEndpoints (worldOf ping271) [labelC]) emptySt).2
              ltac:(intros A less l; apply insertionSort_perm)
              ltac:(discriminate) ltac:(vm_compute; reflexivity))
    as (filtered & rtts & Hrun & Hsound & _).
  exists filtered, rtts. eexists. split; [exact Hrun|].
  intros label Hin. apply (Hsound label Hin).
Defined.

Lemma registration_unreachable_endpoint_witness :
  healthcheckResult (probe (worldOf (unreachable (λ _, None))) "198.51.100.7" 6792)
                    "198.51.100.7" (500 * time.Millisecond)
  = (-1, Some (fmt_Errorf "ping request to %v timed out (>%dms)"
                          [ArgString "198.51.100.7"; ArgString "500"]))
  ∧ ∃ e st',
      broadcasterRegistrationRequest (worldOf (unreachable (λ _, None)))
                                     demoSession demoRequest emptySt
      = (inl e, st')
      ∧ matchBySession st' = ∅.
Proof.
  split; [vm_compute; reflexivity|].
  destruct (registration_unreachable_endpoint (worldOf (unreachable (λ _, None)))
              demoSession demoRequest "discord-1" "secret" [] [] "user-1" "host"
              emptySt
              (authenticateBroadcaster (worldOf (unreachable (λ _, None)))
                                       "discord-1" "secret" emptySt).2
              "198.51.100.7" (-1)
              (Some (fmt_Errorf "ping request to %v timed out (>%dms)"
                                [ArgString "198.51.100.7"; ArgString "500"]))
              ltac:(reflexivity) ltac:(reflexivity) ltac:(reflexivity)
              ltac:(vm_compute; reflexivity) ltac:(left; lia))
    as (e & st' & Hrun & _ & _ & Hmatch & _).
  exists e, st'. split; [exact Hrun|]. rewrite Hmatch. reflexivity.
Defined.

Lemma joinPartyGroup_outcomes_witness :
  GroupID {| QueryAddon := ""; GroupID := "squad"; MinCount := 2; MaxCount := 8;
             CountMultiple := 2 |} ≠ ""
  ∧ parties (worldOf partyFull) !! NewV5 (worldOf partyFull) uuid.Nil "squad"
    = Some fullParty
  ∧ ph_maxSize fullParty ≤ Z.of_nat (length (ph_members fullParty))
  ∧ joinPartyGroup (worldOf partyFull) (ws_userID demoSession) (ws_id demoSession)
                   (ws_Username demoSession) (node (worldOf partyFull)) "squad" emptySt
    = (inr (fullParty, Some (status_Errorf codes.ResourceExhausted "Party is full" [])),
       with_trace (λ t, t ++ [EvCounter "partyregistry_error_party_full"]) emptySt).
Proof.
  split; [discriminate|]. split; [vm_compute; reflexivity|].
  split; [vm_compute; discriminate|].
  destruct (joinPartyGroup_outcomes (worldOf partyFull) demoSession
              (sessionFor ModeArenaPublic (OtherTeam 0)) emptySt
              {| QueryAddon := ""; GroupID := "squad"; MinCount := 2; MaxCount := 8;
                 CountMultiple := 2 |}
              ltac:(reflexivity) ltac:(discriminate))
    as (Hfull & _).
  apply (Hfull emptySt fullParty).
  - vm_compute; reflexivity.
  - vm_compute; discriminate.
Defined.

(** * Further properties of the code *)

(** ** Rounding to a modulus *)






(** ** The two comparators as orderings *)

Lemma PopulationCmp_asym o p i j :
  PopulationCmp o p i j = true → PopulationCmp p o j i = false.
Proof.
  unfold PopulationCmp.
  destruct (Z.eqb_spec o p), (Z.eqb_spec p o); try lia;
    rewrite ?Z.ltb_lt, ?Z.ltb_ge; lia.
Qed.

Lemma PopulationCmp_negtrans o p q i j k :
  PopulationCmp p o j i = false → PopulationCmp q p k j = false →
  PopulationCmp q o k i = false.
Proof.
  unfold PopulationCmp.
  destruct (Z.eqb_spec p o), (Z.eqb_spec q p), (Z.eqb_spec q o); try lia;
    rewrite ?Z.ltb_lt, ?Z.ltb_ge; lia.
Qed.

(** X3: [PopulationCmp] is a strict weak ordering of (population, RTT)
    pairs: irreflexive, transitive, and two pairs are left unordered in both
    directions only when population and RTT are both equal; it puts the
    larger population first and, on equal populations, the lower RTT. *)
Theorem PopulationCmp_strict_order o p q i j k :
  PopulationCmp o o i i = false
  ∧ (PopulationCmp o p i j = true → PopulationCmp p q j k = true →
     PopulationCmp o q i k = true)
  ∧ (PopulationCmp o p i j = false → PopulationCmp p o j i = false → o = p ∧ i = j)
  ∧ (PopulationCmp o p i j = true ↔ p < o ∨ (o = p ∧ i < j)).
Proof.
  unfold PopulationCmp. repeat split.
  - rewrite Z.eqb_refl. apply Z.ltb_irrefl.
  - destruct (Z.eqb_spec o p), (Z.eqb_spec p q), (Z.eqb_spec o q); try lia;
      rewrite ?Z.ltb_lt; lia.
  - destruct (Z.eqb_spec o p), (Z.eqb_spec p o); try lia;
      rewrite ?Z.ltb_ge in *; lia.
  - destruct (Z.eqb_spec o p), (Z.eqb_spec p o); try lia;
      rewrite ?Z.ltb_ge in *; lia.
  - destruct (Z.eqb_spec o p); rewrite Z.ltb_lt; lia.
  - destruct (Z.eqb_spec o p); rewrite Z.ltb_lt; lia.
Qed.

(** X4: on latencies that are not exactly 90ms, [RTTweightedPopulationCmp]
    is irreflexive and transitive: a strict ordering that puts every
    over-threshold candidate before every under-threshold one and orders
    each tier by population, then RTT. *)
Theorem RTTweightedPopulationCmp_transitive_off_threshold i j k o p q :
  i ≠ 90 * time.Millisecond →
  j ≠ 90 * time.Millisecond →
  k ≠ 90 * time.Millisecond →
  RTTweightedPopulationCmp i i o o = false
  ∧ (RTTweightedPopulationCmp i j o p = true →
     RTTweightedPopulationCmp j k p q = true →
     RTTweightedPopulationCmp i k o q = true).
Proof.
  intros Hi Hj Hk. unfold RTTweightedPopulationCmp. split.
  - destruct (Z.ltb_spec (90 * time.Millisecond) i), (Z.ltb_spec i (90 * time.Millisecond));
      simpl; try lia; rewrite !Z.ltb_irrefl; done.
  - destruct (Z.ltb_spec (90 * time.Millisecond) i), (Z.ltb_spec i (90 * time.Millisecond)),
             (Z.ltb_spec (90 * time.Millisecond) j), (Z.ltb_spec j (90 * time.Millisecond)),
             (Z.ltb_spec (90 * time.Millisecond) k), (Z.ltb_spec k (90 * time.Millisecond));
      simpl; try lia; try done;
      destruct (Z.ltb_spec p o), (Z.ltb_spec o p), (Z.ltb_spec q p), (Z.ltb_spec p q),
               (Z.ltb_spec q o), (Z.ltb_spec o q);
      try lia; try done; rewrite ?Z.ltb_lt; lia.
Qed.

(** X5: in general [RTTweightedPopulationCmp] is not transitive.  A latency
    of exactly 90ms belongs to neither tier, so an over-threshold candidate
    sorts before an under-threshold one, which sorts before a 90ms candidate
    of smaller population, which sorts before the over-threshold candidate
    of smaller population still. *)
Theorem RTTweightedPopulationCmp_not_transitive :
  ¬ (∀ i j k o p q,
       RTTweightedPopulationCmp i j o p = true →
       RTTweightedPopulationCmp j k p q = true →
       RTTweightedPopulationCmp i k o q = true).
Proof.
  intros Htrans.
  specialize (Htrans (100 * time.Millisecond) (80 * time.Millisecond)
                     (90 * time.Millisecond) 1 5 3).
  vm_compute in Htrans. by specialize (Htrans eq_refl eq_refl).
Qed.

(** ** Go's insertion sort orders its input *)

Section insertion_sort.
Context {A : Type} (less : A → A → bool).
Hypothesis less_asym : ∀ a b, less a b = true → less b a = false.
Hypothesis less_negtrans :
  ∀ a b c, less b a = false → less c b = false → less c a = false.

Lemma insertLeft_sorted x revPrefix :
  StronglySorted (flip (mayPrecede less)) revPrefix →
  StronglySorted (flip (mayPrecede less)) (insertLeft less x revPrefix).
Proof using less_asym less_negtrans.
  induction 1 as [|y rest Hsorted IH Hall]; simpl.
  - by repeat constructor.
  - destruct (less x y) eqn:Hxy.
    + constructor; [done|].
      eapply Forall_forall. intros z Hz.
      rewrite insertLeft_perm in Hz.
      apply elem_of_cons in Hz as [->|Hz].
      * by apply less_asym.
      * rewrite Forall_forall in Hall. exact (Hall z Hz).
    + constructor; [by constructor|]. constructor; [exact Hxy|].
      eapply Forall_impl; [exact Hall|]. intros z Hz. unfold flip, mayPrecede in *.
      by eapply less_negtrans.
Qed.

Lemma StronglySorted_reverse_flip (R : relation A) l :
  StronglySorted (flip R) l → StronglySorted R (reverse l).
Proof.
  induction 1 as [|y rest Hsorted IH Hall]; [constructor|].
  rewrite reverse_cons. apply StronglySorted_app.
  split; [|split; [done|by repeat constructor]].
  intros a b Ha Hb. apply list_elem_of_singleton in Hb as ->.
  rewrite elem_of_reverse in Ha.
  rewrite Forall_forall in Hall. exact (Hall a Ha).
Qed.

Lemma insertionSort_sorted l : StronglySorted (mayPrecede less) (insertionSort less l).
Proof using less_asym less_negtrans.
  unfold insertionSort. apply StronglySorted_reverse_flip.
  assert (Hgen : ∀ acc, StronglySorted (flip (mayPrecede less)) acc →
            StronglySorted (flip (mayPrecede less)) (foldl (λ acc x, insertLeft less x acc) acc l)).
  { induction l as [|x l IH]; intros acc Hacc; simpl; [done|].
    apply IH. by apply insertLeft_sorted. }
  apply Hgen. constructor.
Qed.
End insertion_sort.

Lemma StronglySorted_lookup {A} (R : relation A) l i j a b :
  StronglySorted R l → (i < j)%nat → l !! i = Some a → l !! j = Some b → R a b.
Proof.
  intros Hsorted. revert i j. induction Hsorted as [|x l Hsorted IH Hall];
    intros i j Hij Hi Hj; [done|].
  destruct i as [|i], j as [|j]; simpl in *; try lia.
  - inversion Hi; subst. rewrite Forall_forall in Hall. apply Hall.
    by eapply list_elem_of_lookup_2.
  - eapply IH; [|done..]. lia.
Qed.

Lemma StronglySorted_omap {A B} (R : relation A) (R' : relation B)
    (g : A → option B) l :
  StronglySorted R l →
  (∀ a b a' b', a ∈ l → b ∈ l → R a b → g a = Some a' → g b = Some b' → R' a' b') →
  StronglySorted R' (omap g l).
Proof.
  induction 1 as [|x l Hsorted IH Hall]; intros Hmap; simpl; [constructor|].
  assert (Hrest : StronglySorted R' (omap g l)).
  { apply IH. intros a b a' b' Ha Hb. apply Hmap; by right. }
  destruct (g x) as [x'|] eqn:Hx; [|done].
  constructor; [done|]. apply Forall_forall. intros b' Hb'.
  apply list_elem_of_omap in Hb' as (b & Hb & Hgb).
  eapply (Hmap x b); [by left|by right| |done..].
  rewrite Forall_forall in Hall. by apply Hall.
Qed.

Lemma NoDup_fmap_eq {A B} (f : A → B) l a b :
  NoDup (f <$> l) → a ∈ l → b ∈ l → f a = f b → a = b.
Proof.
  induction l as [|x l IH]; intros Hnd Ha Hb Hf; [by apply elem_of_nil in Ha|].
  rewrite fmap_cons in Hnd. apply NoDup_cons in Hnd as [Hx Hnd].
  apply elem_of_cons in Ha as [->|Ha], Hb as [->|Hb]; [done| | |by apply IH].
  - destruct Hx. rewrite Hf. by apply list_elem_of_fmap_2.
  - destruct Hx. rewrite <- Hf. by apply list_elem_of_fmap_2.
Qed.

(** ** Order and alignment of the ranked output *)

(** Alignment of the two result slices of the ranking. *)
Lemma rankLabels_first_on_endpoint w mode labels result :
  (∀ A less (l : list A), sort_SliceStable w A less l ≡ₚ l) →
  length (rankLabels w mode labels result).1 = length (rankLabels w mode labels result).2
  ∧ ∀ i label,
      (rankLabels w mode labels result).1 !! i = Some label →
      firstOnEndpoint w labels (Endpoint_ID w (Endpoint (Broadcaster label))) = Some label
      ∧ (rankLabels w mode labels result).2 !! i
        = Some (rttOf (roundedRTTs w (10 * time.Millisecond) result)
                      (Endpoint_ID w (Endpoint (Broadcaster label)))).
Proof.
  intros Hperm. unfold rankLabels. cbn [fst snd].
  split; [by rewrite !length_fmap|].
  intros i label Hi. rewrite list_lookup_fmap in Hi. rewrite list_lookup_fmap.
  destruct (matchDatas w labels _ !! i) as [[label' rtt]|] eqn:Hpair; [|done].
  simpl in Hi. inversion Hi; subst label'. simpl.
  apply list_elem_of_lookup_2, matchDatas_elem in Hpair as (d & Hd & Hfirst & ->).
  apply sortDatas_elem in Hd; [|done].
  apply labelDatas_elem in Hd as (src & _ & _ & _ & ->). simpl in *.
  destruct (firstOnEndpoint_Some _ _ _ _ Hfirst) as [_ Hid].
  by rewrite Hid.
Qed.

(** Order of the ranking outside the Arena mode. *)
Lemma rankLabels_population_order w mode labels result :
  mode ≠ ModeArenaPublic →
  (∀ A less (l : list A), sort_SliceStable w A less l ≡ₚ l) →
  (∀ A (less : A → A → bool) (l : list A),
     (∀ a b, less a b = true → less b a = false) →
     (∀ a b c, less b a = false → less c b = false → less c a = false) →
     StronglySorted (λ a b, less b a = false) (sort_SliceStable w A less l)) →
  NoDup ((λ label, Endpoint_ID w (Endpoint (Broadcaster label))) <$> labels) →
  ∀ i j a b ra rb,
    (i < j)%nat →
    (rankLabels w mode labels result).1 !! i = Some a →
    (rankLabels w mode labels result).1 !! j = Some b →
    (rankLabels w mode labels result).2 !! i = Some ra →
    (rankLabels w mode labels result).2 !! j = Some rb →
    Size b < Size a ∨ (Size a = Size b ∧ ra ≤ rb).
Proof.
  intros Hmode Hperm Hsorts Hnodup i j a b ra rb Hij Ha Hb Hra Hrb.
  unfold rankLabels in *. cbn [fst snd] in *.
  rewrite list_lookup_fmap in Ha. rewrite list_lookup_fmap in Hb.
  rewrite list_lookup_fmap in Hra. rewrite list_lookup_fmap in Hrb.
  destruct (matchDatas w labels _ !! i) as [[a' ra']|] eqn:Hi; [|done].
  destruct (matchDatas w labels _ !! j) as [[b' rb']|] eqn:Hj; [|done].
  simpl in *. simplify_eq.
  set (endpointRTTs := roundedRTTs w (10 * time.Millisecond) result) in *.
  assert (Hdatas : StronglySorted
            (λ x y, PopulationCmp (ld_Size y) (ld_Size x) (ld_RTT y) (ld_RTT x) = false)
            (sortDatas w mode (labelDatas w endpointRTTs labels))).
  { unfold sortDatas. destruct mode; try done;
      apply (Hsorts _ (λ i j, PopulationCmp (ld_Size i) (ld_Size j) (ld_RTT i) (ld_RTT j)));
      intros; (by eapply PopulationCmp_asym) || (by eapply PopulationCmp_negtrans). }
  eapply (StronglySorted_lookup
            (λ x y : EvrMatchState * time.Duration,
               Size y.1 < Size x.1 ∨ (Size x.1 = Size y.1 ∧ x.2 ≤ y.2))
            _ i j (a, ra) (b, rb)); [|done..].
  unfold matchDatas. eapply StronglySorted_omap; [exact Hdatas|].
  intros d1 d2 [l1 r1] [l2 r2] Hd1 Hd2 Hcmp Hg1 Hg2. simpl in *.
  destruct (firstOnEndpoint w labels (ld_Id d1)) as [f1|] eqn:Hf1; [|done].
  destruct (firstOnEndpoint w labels (ld_Id d2)) as [f2|] eqn:Hf2; [|done].
  simpl in *. simplify_eq.
  apply sortDatas_elem in Hd1, Hd2; [|done..].
  apply labelDatas_elem in Hd1 as (s1 & Hs1 & _ & _ & ->).
  apply labelDatas_elem in Hd2 as (s2 & Hs2 & _ & _ & ->). simpl in *.
  apply firstOnEndpoint_Some in Hf1 as [Hl1 Hid1], Hf2 as [Hl2 Hid2].
  assert (l1 = s1) as -> by (by eapply (NoDup_fmap_eq _ labels)).
  assert (l2 = s2) as -> by (by eapply (NoDup_fmap_eq _ labels)).
  unfold PopulationCmp in Hcmp.
  destruct (Z.eqb_spec (Size s2) (Size s1)); rewrite Z.ltb_ge in Hcmp; lia.
Qed.

Lemma MatchSort_inv w session msession labels st filtered rtts st' :
  MatchSort w session msession labels st = (inr (filtered, rtts), st') →
  (labels = [] ∧ filtered = [] ∧ rtts = [] ∧ st' = st)
  ∨ ∃ result,
      PingEndpoints w session msession (uniqueEndpoints w labels) st = (inr result, st')
      ∧ filtered = (rankLabels w (Mode (Label msession)) labels result).1
      ∧ rtts = (rankLabels w (Mode (Label msession)) labels result).2.
Proof.
  unfold MatchSort. destruct (decide (length labels = 0%nat)) as [Hlen|_].
  - intros Hrun. left. destruct labels; [|done]. by inversion Hrun.
  - intros Hrun. right. unfold mbind, M_bind in Hrun.
    destruct (PingEndpoints w session msession (uniqueEndpoints w labels) st)
      as [[e|result] st1]; [done|].
    inversion Hrun; subst. by exists result.
Qed.

(** X6: every label that [MatchSort] returns is the first candidate on its
    endpoint, the two result slices have the same length, and the RTT at
    each position is the rounded latency recorded for the endpoint of the
    label at that position.  A candidate that shares its endpoint with an
    earlier candidate is thus never returned; the earlier one is returned
    in its place. *)
Theorem MatchSort_first_on_endpoint w session msession labels st filtered rtts st' :
  (∀ A less (l : list A), sort_SliceStable w A less l ≡ₚ l) →
  MatchSort w session msession labels st = (inr (filtered, rtts), st') →
  length filtered = length rtts
  ∧ ∀ i label,
      filtered !! i = Some label →
      firstOnEndpoint w labels (Endpoint_ID w (Endpoint (Broadcaster label))) = Some label
      ∧ ∃ rtt, rtts !! i = Some rtt
               ∧ rtt ≠ 0 ∧ rtt ≤ 270 * time.Millisecond
               ∧ ∃ k, rtt = k * (10 * time.Millisecond).
Proof.
  intros Hperm Hrun.
  apply MatchSort_inv in Hrun as [(-> & -> & -> & ->)|(result & Hping & -> & ->)].
  { split; [done|]. intros i label Hi. by rewrite lookup_nil in Hi. }
  destruct (rankLabels_first_on_endpoint w (Mode (Label msession)) labels result Hperm)
    as [Hlen Halign].
  split; [done|]. intros i label Hi.
  destruct (Halign i label Hi) as [Hfirst Hrtt]. split; [done|].
  eexists. split; [exact Hrtt|].
  unfold rankLabels in Hi. cbn [fst snd] in Hi. rewrite list_lookup_fmap in Hi.
  destruct (matchDatas w labels _ !! i) as [[label' rtt]|] eqn:Hpair; [|done].
  simpl in Hi. inversion Hi; subst label'.
  apply list_elem_of_lookup_2, matchDatas_elem in Hpair as (d & Hd & Hfirst' & ->).
  apply sortDatas_elem in Hd; [|done].
  apply labelDatas_elem in Hd as (src & _ & Hnz & Hle & ->). simpl in Hfirst'.
  destruct (firstOnEndpoint_Some _ _ _ _ Hfirst') as [_ Hid]. rewrite Hid.
  split; [done|]. split; [done|].
  unfold rttOf in *.
  destruct (roundedRTTs w (10 * time.Millisecond) result
              !! Endpoint_ID w (Endpoint (Broadcaster src))) as [v|] eqn:Hlook;
    simpl in *; [|done].
  apply roundedRTTs_lookup in Hlook as (r & _ & _ & ->). by eexists.
Qed.

(** X7: outside the Arena mode, with candidates on pairwise distinct
    endpoints and a [sort.SliceStable] that orders its input, [MatchSort]
    returns the labels by population, largest first, and labels of equal
    population by rounded latency, lowest first. *)
Theorem MatchSort_population_order w session msession labels st filtered rtts st' :
  Mode (Label msession) ≠ ModeArenaPublic →
  (∀ A less (l : list A), sort_SliceStable w A less l ≡ₚ l) →
  (∀ A (less : A → A → bool) (l : list A),
     (∀ a b, less a b = true → less b a = false) →
     (∀ a b c, less b a = false → less c b = false → less c a = false) →
     StronglySorted (λ a b, less b a = false) (sort_SliceStable w A less l)) →
  NoDup ((λ label, Endpoint_ID w (Endpoint (Broadcaster label))) <$> labels) →
  MatchSort w session msession labels st = (inr (filtered, rtts), st') →
  ∀ i j a b ra rb,
    (i < j)%nat →
    filtered !! i = Some a → filtered !! j = Some b →
    rtts !! i = Some ra → rtts !! j = Some rb →
    Size b < Size a ∨ (Size a = Size b ∧ ra ≤ rb).
Proof.
  intros Hmode Hperm Hsorts Hnodup Hrun.
  apply MatchSort_inv in Hrun as [(-> & -> & -> & ->)|(result & Hping & -> & ->)].
  { intros i j a b ra rb _ Ha. by rewrite lookup_nil in Ha. }
  by apply rankLabels_population_order.
Qed.

(** ** What [PingEndpoints] changes *)

Lemma storeResults_dom w known results cache key :
  is_Some (cache !! key) → is_Some (storeResults w known results cache !! key).
Proof.
  revert cache. induction results as [|reply rest IH]; intros cache Hin; [done|].
  simpl. destruct (known !! evr.EndpointID reply) as [b|]; [|by apply IH].
  apply IH. rewrite lookup_insert. by case_decide.
Qed.

Lemma storeResults_changed w known results cache key :
  storeResults w known results cache !! key ≠ cache !! key →
  ∃ reply b,
    reply ∈ results ∧ known !! evr.EndpointID reply = Some b
    ∧ LatencyMetric_ID w {| lm_Endpoint := b; lm_RTT := evr.RTT reply;
                            lm_Timestamp := Now w |} = key.
Proof.
  revert cache. induction results as [|reply rest IH]; intros cache Hne; [done|].
  simpl in Hne. destruct (known !! evr.EndpointID reply) as [b|] eqn:Hknown.
  - destruct (decide (LatencyMetric_ID w {| lm_Endpoint := b; lm_RTT := evr.RTT reply;
                                            lm_Timestamp := Now w |} = key)) as [Hkey|Hkey].
    + exists reply, b. split; [by left|done].
    + destruct (IH (<[LatencyMetric_ID w {| lm_Endpoint := b; lm_RTT := evr.RTT reply;
                                            lm_Timestamp := Now w |} :=
                       {| lm_Endpoint := b; lm_RTT := evr.RTT reply;
                          lm_Timestamp := Now w |}]> cache))
        as (reply' & b' & Hin & Hrest).
      { by rewrite lookup_insert_ne. }
      exists reply', b'. split; [by right|done].
  - destruct (IH cache Hne) as (reply' & b' & Hin & Hrest).
    exists reply', b'. split; [by right|done].
Qed.

(** X8: [PingEndpoints] never drops an entry of the latency cache, and an
    entry changes only when a reply arrived for an endpoint the registry
    knows and that reply's metric is stored under the entry's key.  The
    session's tickets and party and the broadcaster registrations are left
    alone whatever the outcome. *)
Theorem PingEndpoints_cache_updates w session msession endpoints st key :
  (is_Some (LatencyCache st !! key) →
   is_Some (LatencyCache (PingEndpoints w session msession endpoints st).2 !! key))
  ∧ (LatencyCache (PingEndpoints w session msession endpoints st).2 !! key
     ≠ LatencyCache st !! key →
     ∃ results reply b,
       awaitPing w (GetPingCandidates w (LatencyCache st) endpoints) = PingResults results
       ∧ reply ∈ results
       ∧ UpdateBroadcasters w (broadcasters st) endpoints !! evr.EndpointID reply = Some b
       ∧ LatencyMetric_ID w {| lm_Endpoint := b; lm_RTT := evr.RTT reply;
                               lm_Timestamp := Now w |} = key)
  ∧ tickets (PingEndpoints w session msession endpoints st).2 = tickets st
  ∧ Party (PingEndpoints w session msession endpoints st).2 = Party st
  ∧ broadcasterRegistrationBySession (PingEndpoints w session msession endpoints st).2
    = broadcasterRegistrationBySession st
  ∧ matchBySession (PingEndpoints w session msession endpoints st).2 = matchBySession st.
Proof.
  unfold PingEndpoints.
  destruct (decide (length endpoints = 0%nat)) as [Hlen|_]; [by repeat split|].
  rewrite bind_modify, bind_gets. simpl LatencyCache.
  destruct (decide (0 < length (GetPingCandidates w (LatencyCache st) endpoints))%nat)
    as [_|_]; [|by repeat split].
  unfold sendPingRequest, getEndpointLatencies. run.
  destruct (SendEvr w _) as [err|]; simpl; [by repeat split|].
  destruct (awaitPing w (GetPingCandidates w (LatencyCache st) endpoints))
    as [| |results] eqn:Hout; simpl; try by repeat split.
  split; [apply storeResults_dom|]. split; [|done].
  intros Hne. apply storeResults_changed in Hne as (reply & b & Hin & Hknown & Hkey).
  by exists results, reply, b.
Qed.

(** X9: with endpoints to look at but no ping candidate among them,
    [PingEndpoints] sends nothing and waits for nothing: it returns what
    [GetLatencies] holds for the endpoints, one metric at most per endpoint
    and in the endpoints' order.  When the probe request cannot be sent, the
    transport's error is returned as it is, no timer is armed, and the cache
    stays as it was. *)
Theorem PingEndpoints_without_wait w session msession endpoints st :
  endpoints ≠ [] →
  (GetPingCandidates w (LatencyCache st) endpoints = [] →
   PingEndpoints w session msession endpoints st
   = (inr (omap (λ e, GetLatencies w (LatencyCache st) (ws_userID session) endpoints
                        !! Endpoint_ID w e) endpoints),
      set_broadcasters (UpdateBroadcasters w (broadcasters st) endpoints) st))
  ∧ (∀ err,
       GetPingCandidates w (LatencyCache st) endpoints ≠ [] →
       SendEvr w [evr.NewLobbyPingRequest 275
                    (GetPingCandidates w (LatencyCache st) endpoints);
                  evr.NewSTcpConnectionUnrequireEvent] = Some err →
       ∃ st',
         PingEndpoints w session msession endpoints st = (inl err, st')
         ∧ trace st'
           = trace st ++ [EvSendEvr [evr.NewLobbyPingRequest 275
                                       (GetPingCandidates w (LatencyCache st) endpoints);
                                     evr.NewSTcpConnectionUnrequireEvent]]
         ∧ LatencyCache st' = LatencyCache st).
Proof.
  intros Hne. unfold PingEndpoints.
  destruct (decide (length endpoints = 0%nat)) as [Hlen|_]; [by destruct endpoints|].
  rewrite bind_modify, bind_gets. simpl LatencyCache. split.
  - intros ->. simpl. reflexivity.
  - intros err Hcand Hsend.
    destruct (decide (0 < length (GetPingCandidates w (LatencyCache st) endpoints))%nat)
      as [_|Hlen].
    2:{ destruct (GetPingCandidates w (LatencyCache st) endpoints); [done|simpl in Hlen; lia]. }
    unfold sendPingRequest. run. rewrite Hsend. simpl.
    eexists. split; [reflexivity|]. by simpl.
Qed.

(** ** The selection loop of [Backfill] *)

Lemma selectBackfill_step w want label rest st :
  selectBackfill w want (label :: rest) st
  = match eligible w want label with
    | Some fresh =>
      (inr (Some fresh), with_trace (λ t, t ++ chooseEvents w label) st)
    | None =>
      selectBackfill w want rest (with_trace (λ t, t ++ skipEvents w label) st)
    end.
Proof.
  assert (Hskip : ∀ st0 : St,
    with_trace (λ t, t ++ [EvUnlock (EvrMatchState_ID w label)])
      (with_trace (λ t, t ++ [EvGetMatch (EvrMatchState_ID w label)])
         (with_trace (λ t, t ++ [EvLock (EvrMatchState_ID w label)]) st0))
    = with_trace (λ t, t ++ skipEvents w label) st0).
  { intros st0. unfold with_trace, skipEvents. simpl. by rewrite <- !app_assoc. }
  simpl. rewrite !bind_emit. unfold eligible.
  destruct (GetMatch w (EvrMatchState_ID w label)) as [[live|] err].
  2:{ by rewrite bind_emit, Hskip. }
  destruct (json_Unmarshal w (am_LabelValue live) (Some label)) as [fresh|].
  2:{ rewrite bind_emit, Hskip. by destruct err. }
  destruct (decide (err ≠ None)) as [Herr|Herr].
  { rewrite bind_emit, Hskip. by destruct err. }
  assert (err = None) as -> by (destruct err; [by destruct Herr|done]).
  destruct (int32 (int32 (MaxSize fresh) + 1) <? am_Size live).
  { by rewrite bind_emit, Hskip. }
  destruct (bool_decide (want ≠ Spectator ∧ want ≠ Moderator)
            && (int64 (int64 (TeamSize fresh * 2) - Z.of_nat (length (Players fresh))) <? 1)).
  { by rewrite bind_emit, Hskip. }
  rewrite bind_emit. unfold mret, M_ret, with_trace, chooseEvents. simpl.
  by rewrite <- !app_assoc.
Qed.

(** X10: the selection loop of [Backfill] visits the candidates in order and
    stops at the first eligible one.  Every candidate before it is locked,
    looked up and unlocked at once; the chosen one is locked, looked up and
    left locked for the grace period of three seconds; no candidate after it
    is locked or looked up.  With no eligible candidate all are visited and
    unlocked and nothing is selected.  The loop never returns an error. *)
Theorem selectBackfill_lock_discipline w want labels st :
  (∃ before label after fresh,
     labels = before ++ label :: after
     ∧ Forall (λ l, eligible w want l = None) before
     ∧ eligible w want label = Some fresh
     ∧ (selectBackfill w want labels st).1 = inr (Some fresh)
     ∧ trace (selectBackfill w want labels st).2
       = trace st ++ concat (skipEvents w <$> before) ++ chooseEvents w label)
  ∨ (Forall (λ l, eligible w want l = None) labels
     ∧ (selectBackfill w want labels st).1 = inr None
     ∧ trace (selectBackfill w want labels st).2
       = trace st ++ concat (skipEvents w <$> labels)).
Proof.
  revert st. induction labels as [|label rest IH]; intros st.
  { right. split; [constructor|]. split; [done|]. simpl. by rewrite app_nil_r. }
  rewrite selectBackfill_step.
  destruct (eligible w want label) as [fresh|] eqn:Hel.
  - left. exists [], label, rest, fresh. by repeat split.
  - destruct (IH (with_trace (λ t, t ++ skipEvents w label) st))
      as [(before & chosen & after & fresh & -> & Hbefore & Hchosen & Hres & Htrace)
         |(Hall & Hres & Htrace)].
    + left. exists (label :: before), chosen, after, fresh.
      split; [done|]. split; [by constructor|]. split; [done|]. split; [done|].
      rewrite Htrace. simpl. by rewrite <- !app_assoc.
    + right. split; [by constructor|]. split; [done|].
      rewrite Htrace. simpl. by rewrite <- !app_assoc.
Qed.

Lemma eligible_Some w want label fresh :
  eligible w want label = Some fresh →
  ∃ live,
    GetMatch w (EvrMatchState_ID w label) = (Some live, None)
    ∧ json_Unmarshal w (am_LabelValue live) (Some label) = Some fresh
    ∧ am_Size live ≤ int32 (int32 (MaxSize fresh) + 1)
    ∧ (want ≠ Spectator ∧ want ≠ Moderator →
       1 ≤ int64 (int64 (TeamSize fresh * 2) - Z.of_nat (length (Players fresh)))).
Proof.
  unfold eligible.
  destruct (GetMatch w (EvrMatchState_ID w label)) as [[live|] [err|]]; try done.
  destruct (json_Unmarshal w (am_LabelValue live) (Some label)) as [fresh'|] eqn:Hjson;
    [|done].
  destruct (Z.ltb_spec (int32 (int32 (MaxSize fresh') + 1)) (am_Size live)); [done|].
  destruct (bool_decide (want ≠ Spectator ∧ want ≠ Moderator)
            && (int64 (int64 (TeamSize fresh' * 2) - Z.of_nat (length (Players fresh'))) <? 1))
    eqn:Hteam; [done|].
  intros Heq. inversion Heq; subst fresh'. exists live. repeat split; try done.
  intros Hplayer. apply andb_false_iff in Hteam as [Hno|Hteam].
  - by apply bool_decide_eq_false in Hno.
  - by apply Z.ltb_ge in Hteam.
Qed.

Lemma selectBackfill_chosen w want labels st fresh st' :
  selectBackfill w want labels st = (inr (Some fresh), st') →
  ∃ label,
    label ∈ labels ∧ eligible w want label = Some fresh
    ∧ last (trace st') = Some (EvUnlockAfter (EvrMatchState_ID w label) MatchJoinGracePeriod).
Proof.
  revert st. induction labels as [|label rest IH]; intros st; [done|].
  rewrite selectBackfill_step. destruct (eligible w want label) as [fresh'|] eqn:Hel.
  - intros Heq. inversion Heq; subst. exists label. split; [by left|]. split; [done|].
    simpl. unfold chooseEvents. by rewrite last_app.
  - intros Hrest. destruct (IH _ Hrest) as (label' & Hin & Hrest').
    exists label'. split; [by right|done].
Qed.

(** X11: when [Backfill] returns a session it returns no error with it, the
    desired lobby is public, and the session is the re-fetched label of a
    candidate whose match the registry returned without error, whose live
    size is at most [MaxSize + 1] and, for a player who is neither spectator
    nor moderator, whose teams have a free place.  The last thing [Backfill]
    did was to arm the delayed unlock of that candidate's lock. *)
Theorem Backfill_selection_sound w session msession st selected query err st' :
  Backfill w session msession st = (inr (Some selected, query, err), st') →
  err = None
  ∧ LobbyType (Label msession) = PublicLobby
  ∧ buildMatchQueryFromLabel w (Label msession) = inr query
  ∧ ∃ label live,
      GetMatch w (EvrMatchState_ID w label) = (Some live, None)
      ∧ json_Unmarshal w (am_LabelValue live) (Some label) = Some selected
      ∧ am_Size live ≤ int32 (int32 (MaxSize selected) + 1)
      ∧ (TeamIndex (Label msession) ≠ Spectator ∧ TeamIndex (Label msession) ≠ Moderator →
         1 ≤ int64 (int64 (TeamSize selected * 2)
                    - Z.of_nat (length (Players selected))))
      ∧ last (trace st')
        = Some (EvUnlockAfter (EvrMatchState_ID w label) MatchJoinGracePeriod).
Proof.
  unfold Backfill.
  destruct (decide (LobbyType (Label msession) ≠ PublicLobby)) as [|Hpublic]; [done|].
  apply dec_stable in Hpublic.
  unfold MatchSearch.
  destruct (buildMatchQueryFromLabel w (Label msession)) as [e|query0] eqn:Hquery.
  { unfold mbind, M_bind, catch, throw. simpl. by destruct (is_panic e). }
  unfold mbind at 1, M_bind at 1, catch at 1.
  rewrite bind_emit.
  destruct (listMatches w 50 1 (MatchMaxSize w - 1) query0) as [e|matches]; [done|].
  unfold mret at 1, M_ret at 1. cbv beta iota.
  unfold mbind at 1, M_bind at 1, catch at 1.
  destruct ((derefLabels _ ≫= _) _) as [[e|[sorted rtts]] st1]; simpl.
  { by destruct (is_panic e). }
  destruct (decide (length sorted = 0%nat)); [done|].
  unfold mbind, M_bind, mret, M_ret.
  destruct (selectBackfill w (TeamIndex (Label msession)) sorted st1)
    as [[e|[fresh|]] st2] eqn:Hsel; try done.
  intros Heq. inversion Heq; subst.
  apply selectBackfill_chosen in Hsel as (label & _ & Hel & Hlast).
  apply eligible_Some in Hel as (live & Hget & Hjson & Hsize & Hteam).
  repeat split; try done. by exists label, live.
Qed.

(** X12: a public [Backfill] whose search finds no match returns no
    candidate, the query and no error, having only listed matches (limit 50,
    sizes from 1 up to [MatchMaxSize - 1]): nothing is probed and nothing is
    locked.  A search that fails is reported as an internal error with an
    empty query. *)
Theorem Backfill_search_outcomes w session msession st query :
  LobbyType (Label msession) = PublicLobby →
  buildMatchQueryFromLabel w (Label msession) = inr query →
  (listMatches w 50 1 (MatchMaxSize w - 1) query = inr [] →
   Backfill w session msession st
   = (inr (None, query, None),
      with_trace (λ t, t ++ [EvListMatches 50 1 (MatchMaxSize w - 1) query]) st))
  ∧ (∀ err,
       listMatches w 50 1 (MatchMaxSize w - 1) query = inl err →
       Backfill w session msession st
       = (inr (None, "",
               Some (status_Errorf codes.Internal "Failed to search for matches: %v"
                       [ArgError (Some (status_Errorf codes.Internal
                                          "Failed to find matches: %v"
                                          [ArgError (Some err)]))])),
          with_trace (λ t, t ++ [EvListMatches 50 1 (MatchMaxSize w - 1) query]) st)).
Proof.
  intros Hpublic Hquery. unfold Backfill.
  destruct (decide (LobbyType (Label msession) ≠ PublicLobby)) as [|_]; [done|].
  unfold MatchSearch. rewrite Hquery. split.
  - intros Hlist. run. rewrite Hlist. reflexivity.
  - intros err Hlist. run. rewrite Hlist. reflexivity.
Qed.

(** X13: when matches were found but probing their endpoints fails, be it
    by cancellation, by timeout or in the transport, [Backfill] reports an
    internal error that wraps the cause, together with the query; it locks
    and selects nothing. *)
Theorem Backfill_probe_failure w session msession st query matches labels cause st' :
  LobbyType (Label msession) = PublicLobby →
  buildMatchQueryFromLabel w (Label msession) = inr query →
  listMatches w 50 1 (MatchMaxSize w - 1) query = inr matches →
  mapM id ((λ m, json_Unmarshal w (am_LabelValue m) None) <$> matches) = Some labels →
  labels ≠ [] →
  PingEndpoints w session msession (uniqueEndpoints w labels)
    (with_trace (λ t, t ++ [EvListMatches 50 1 (MatchMaxSize w - 1) query]) st)
  = (inl cause, st') →
  is_panic cause = false →
  Backfill w session msession st
  = (inr (None, query,
          Some (status_Errorf codes.Internal "Failed to filter matches: %v"
                              [ArgError (Some cause)])),
     st').
Proof.
  intros Hpublic Hquery Hlist Hlabels Hne Hping Hpanic. unfold Backfill.
  destruct (decide (LobbyType (Label msession) ≠ PublicLobby)) as [|_]; [done|].
  unfold MatchSearch. rewrite Hquery.
  unfold mbind at 1, M_bind at 1, catch at 1.
  rewrite bind_emit, Hlist.
  unfold mret at 1, M_ret at 1. cbv beta iota.
  unfold mbind at 1, M_bind at 1, catch at 1, derefLabels.
  rewrite Hlabels. unfold mbind at 1, M_bind at 1, mret at 1, M_ret at 1.
  unfold MatchSort. destruct (decide (length labels = 0%nat)) as [Hlen|_].
  { by destruct labels. }
  erewrite bind_throw by exact Hping. by rewrite Hpanic.
Qed.

(** ** Tickets and submissions of [MatchMake] *)

Lemma PingEndpoints_frame w session msession endpoints st :
  tickets (PingEndpoints w session msession endpoints st).2 = tickets st
  ∧ Party (PingEndpoints w session msession endpoints st).2 = Party st.
Proof.
  unfold PingEndpoints.
  destruct (decide (length endpoints = 0%nat)) as [Hlen|_]; [done|].
  rewrite bind_modify, bind_gets. simpl LatencyCache.
  destruct (decide (0 < length (GetPingCandidates w (LatencyCache st) endpoints))%nat)
    as [_|_]; [|done].
  unfold sendPingRequest, getEndpointLatencies. run.
  destruct (SendEvr w _) as [err|]; simpl; [done|].
  by destruct (awaitPing w (GetPingCandidates w (LatencyCache st) endpoints)).
Qed.

(** Unfolds [MatchMake] after the probe and splits on every answer of the
    collaborators. *)
Ltac matchmake_cases w session msession allRTTs :=
  rewrite bind_emit;
  destruct (BuildQuery w msession allRTTs) as [?e|[[?query ?stringProps] ?numericProps]] eqn:?Hbuild;
  [|rewrite bind_emit;
    destruct (LoadMatchmakingSettings w (SystemUserID w)) as [?e|?gconfig] eqn:?Hglobal;
    [|rewrite bind_emit;
      destruct (LoadMatchmakingSettings w (ws_userID session)) as [?e|?config] eqn:?Hconfig;
      [|unfold joinPartyGroup;
        cbv beta iota zeta delta [mbind M_bind mret M_ret throw gets modify emit];
        repeat match goal with
               | |- context [decide (GroupID ?c ≠ "")] => destruct (decide (GroupID c ≠ ""))
               | |- context [parties w !! ?k] => destruct (parties w !! k) as [?ph|] eqn:?Hparty
               | |- context [Z.of_nat (length (ph_members ?p)) <? ph_maxSize ?p] =>
                 destruct (Z.of_nat (length (ph_members p)) <? ph_maxSize p) eqn:?Hroom
               end;
        cbv beta iota zeta;
        (destruct (ctxEvrID w) as [?evrToken|] eqn:?Hevr; cbv beta iota zeta;
         [match goal with
          | |- context [TrackMulti w ?q] =>
            destruct (TrackMulti w q) eqn:?Htrack; cbv beta iota zeta delta [negb]
          end;
          [match goal with
           | |- context [matchmakerAdd w ?s ?p ?q] =>
             destruct (matchmakerAdd w s p q) as [?e|?ticket] eqn:?Hadd; cbv beta iota zeta
           end|]
         |])]]].

(** X14: [MatchMake] adds a ticket to the session's tickets exactly when it
    returns one: on success the tickets gain the returned ticket, mapped to
    the query that was submitted in the last traced step, and on every
    failure, also a failure of the submission itself, the tickets are what
    they were. *)
Theorem MatchMake_tickets w session msession st :
  match (MatchMake w session msession st).1 with
  | inl _ => tickets (MatchMake w session msession st).2 = tickets st
  | inr ticket =>
    ∃ pID query minCount maxCount countMultiple stringProps numericProps,
      matchmakerAdd w (ws_id session) pID query = inr ticket
      ∧ tickets (MatchMake w session msession st).2 = <[ticket := query]> (tickets st)
      ∧ last (trace (MatchMake w session msession st).2)
        = Some (EvMatchmakerAdd (ws_id session) pID query minCount maxCount countMultiple
                                stringProps numericProps)
  end.
Proof.
  unfold MatchMake. rewrite bind_gets.
  destruct (PingEndpoints_frame w session msession (map_to_list (broadcasters st)).*2 st)
    as [Htickets _].
  destruct (PingEndpoints w session msession (map_to_list (broadcasters st)).*2 st)
    as [[e|allRTTs] st1] eqn:Hping; simpl in Htickets.
  { by erewrite bind_throw by done. }
  erewrite bind_run by done.
  matchmake_cases w session msession allRTTs; simpl; try done;
    (eexists _, _, _, _, _, _, _; split; [eassumption|]; split; [by rewrite Htickets|];
     by rewrite last_snoc).
Qed.

(** X15: [MatchMake] returns a ticket only if the probe, the query, both
    settings, the EVR id of the context and the presence tracking all
    succeeded; the string properties it submits then carry that EVR id under
    ["evr_id"], and the party id it submits is empty unless a party group is
    configured. *)
Theorem MatchMake_success_requires w session msession st ticket :
  (MatchMake w session msession st).1 = inr ticket →
  ∃ allRTTs st1 built gconfig config evrToken pID query stringProps numericProps,
    PingEndpoints w session msession (map_to_list (broadcasters st)).*2 st
    = (inr allRTTs, st1)
    ∧ BuildQuery w msession allRTTs = inr built
    ∧ LoadMatchmakingSettings w (SystemUserID w) = inr gconfig
    ∧ LoadMatchmakingSettings w (ws_userID session) = inr config
    ∧ ctxEvrID w = Some evrToken
    ∧ TrackMulti w query = true
    ∧ last (trace (MatchMake w session msession st).2)
      = Some (EvMatchmakerAdd (ws_id session) pID query (MinCount gconfig)
                (MaxCount gconfig) (CountMultiple gconfig) stringProps numericProps)
    ∧ stringProps !! "evr_id" = Some evrToken
    ∧ (GroupID config = "" → pID = "" ∧ stringProps !! "party_group" = built.1.2 !! "party_group").
Proof.
  unfold MatchMake. rewrite bind_gets.
  destruct (PingEndpoints w session msession (map_to_list (broadcasters st)).*2 st)
    as [[e|allRTTs] st1] eqn:Hping.
  { by erewrite bind_throw by done. }
  erewrite bind_run by done.
  matchmake_cases w session msession allRTTs; simpl; try done; intros _;
    (eexists _, _, _, _, _, _, _, _, _, _;
     split; [reflexivity|]; split; [eassumption|]; split; [reflexivity|];
     split; [reflexivity|]; split; [reflexivity|]; split; [eassumption|];
     split; [by rewrite last_snoc|]; split; [by rewrite lookup_insert_eq|];
     intros Hnone;
     first [done
           |simpl; split;
            [by destruct (decide (uuid.Nil ≠ uuid.Nil))|by rewrite lookup_insert_ne]]).
Qed.

(** ** Registration, parking and the end of a session *)

(** X16: a registration request succeeds only when the probe of the
    broadcaster's address was acknowledged with a non-negative RTT and the
    hosted scopes were resolved.  It then leaves the configuration, with the
    resolved scopes and the probed address, stored under the session id, a
    parking match created from that configuration and joined, that match
    recorded for the session, and the success message as the last thing
    sent. *)
Theorem registration_success_sound w session request st st' :
  broadcasterRegistrationRequest w session request st = (inr (), st') →
  ∃ discordId password tags guildIds userId elapsed channels matchId,
    authDetails w = inr (discordId, password, tags, guildIds)
    ∧ probe w (registrationIP w session) (req_Port request) = Acknowledged elapsed
    ∧ 0 ≤ elapsed
    ∧ getBroadcasterHostInfo w userId discordId guildIds = inr channels
    ∧ broadcasterRegistrationBySession st' !! ws_id session
      = Some (set_HostedChannels channels
                (broadcasterConfig userId (ws_id session) (req_ServerId request)
                   (req_InternalIP request) (registrationIP w session) (req_Port request)
                   (req_Region request) (req_VersionLock request) tags))
    ∧ CreateMatch w
        (set_HostedChannels channels
           (broadcasterConfig userId (ws_id session) (req_ServerId request)
              (req_InternalIP request) (registrationIP w session) (req_Port request)
              (req_Region request) (req_VersionLock request) tags))
      = inr matchId
    ∧ ProcessRequest w matchId = true
    ∧ matchBySession st' !! ws_id session = Some matchId
    ∧ last (trace st')
      = Some (EvSendEvr [evr.NewBroadcasterRegistrationSuccess (req_ServerId request)
                           (registrationIP w session);
                         evr.NewSTcpConnectionUnrequireEvent]).
Proof.
  unfold broadcasterRegistrationRequest, BroadcasterHealthcheck, errFailedRegistration,
    newParkingMatch.
  fold (registrationIP w session). run.
  destruct (authDetails w) as [e|[[[discordId password] tags] guildIds]] eqn:Hdetails; simpl.
  { by destruct (SendEvr w _). }
  destruct (authenticateBroadcaster w discordId password st)
    as [[e|[userId username]] st1] eqn:Hauth; simpl.
  { destruct (is_panic e); simpl; [done|]. by destruct (SendEvr w _). }
  destruct (healthcheckResult (probe w (registrationIP w session) (req_Port request))
              (registrationIP w session) (500 * time.Millisecond))
    as [rtt herr] eqn:Hcheck; simpl.
  destruct ((rtt <? 0) || bool_decide (herr ≠ None)) eqn:Hbad; simpl.
  { by destruct (SendEvr w _). }
  destruct (getBroadcasterHostInfo w userId discordId guildIds) as [e|channels] eqn:Hhost;
    simpl.
  { by destruct (SendEvr w _). }
  destruct (NewEvrMatchState w _) as [e|] eqn:Hnew; simpl.
  { by destruct (SendEvr w _). }
  destruct (CreateMatch w _) as [e|matchId] eqn:Hcreate; simpl.
  { by destruct (SendEvr w _). }
  destruct (ProcessRequest w matchId) eqn:Hjoin; simpl.
  2:{ by destruct (SendEvr w _). }
  destruct (SendEvr w [evr.NewBroadcasterRegistrationSuccess _ _; _]) as [sendErr|]; simpl.
  { by destruct (SendEvr w _). }
  intros Hrun. inversion Hrun; subst st'. clear Hrun.
  apply orb_false_iff in Hbad as [Hneg Herr].
  apply Z.ltb_ge in Hneg. apply bool_decide_eq_false in Herr. apply dec_stable in Herr.
  subst herr.
  assert (∃ elapsed, probe w (registrationIP w session) (req_Port request)
                     = Acknowledged elapsed ∧ rtt = elapsed) as (elapsed & Hprobe & ->).
  { unfold healthcheckResult in Hcheck.
    destruct (probe w (registrationIP w session) (req_Port request));
      inversion Hcheck; subst. by eexists. }
  exists discordId, password, tags, guildIds, userId, elapsed, channels, matchId.
  repeat split; try done.
  - simpl. by rewrite lookup_insert_eq.
  - simpl. by rewrite lookup_insert_eq.
  - simpl. by rewrite last_snoc.
Qed.

(** X17: once a registration has resolved its hosted scopes, the
    configuration is stored under the session id whatever happens next.
    When creating or joining the parking match, or sending the success
    message, then fails, the request ends in an error with the configuration
    still stored. *)
Theorem registration_stored_before_parking
    w session request discordId password tags guildIds userId username st st1 rtt channels :
  authDetails w = inr (discordId, password, tags, guildIds) →
  authenticateBroadcaster w discordId password st = (inr (userId, username), st1) →
  healthcheckResult (probe w (registrationIP w session) (req_Port request))
                    (registrationIP w session) (500 * time.Millisecond)
  = (rtt, None) →
  0 ≤ rtt →
  getBroadcasterHostInfo w userId discordId guildIds = inr channels →
  broadcasterRegistrationBySession
    (broadcasterRegistrationRequest w session request st).2 !! ws_id session
  = Some (set_HostedChannels channels
            (broadcasterConfig userId (ws_id session) (req_ServerId request)
               (req_InternalIP request) (registrationIP w session) (req_Port request)
               (req_Region request) (req_VersionLock request) tags))
  ∧ ((broadcasterRegistrationRequest w session request st).1 = inr ()
     ∨ ∃ e,
         (broadcasterRegistrationRequest w session request st).1 = inl e
         ∧ EvSendEvr [evr.NewBroadcasterRegistrationFailure
                        evr.BroadcasterRegistration_Failure]
           ∈ trace (broadcasterRegistrationRequest w session request st).2).
Proof.
  intros Hdetails Hauth Hcheck Hrtt Hhost.
  unfold broadcasterRegistrationRequest, BroadcasterHealthcheck, errFailedRegistration,
    newParkingMatch.
  fold (registrationIP w session). run.
  rewrite Hdetails. simpl. rewrite Hauth. simpl. rewrite Hcheck. simpl.
  destruct (Z.ltb_spec rtt 0); [lia|]. simpl. rewrite Hhost. simpl.
  assert (Hsent : ∀ (t : list Event) ev, ev ∈ t ++ [ev]) by (intros; set_solver).
  assert (Hsent2 : ∀ (t : list Event) ev ev', ev ∈ (t ++ [ev]) ++ [ev']) by (intros; set_solver).
  destruct (NewEvrMatchState w _) as [e|] eqn:Hnew; simpl.
  { destruct (SendEvr w _); simpl; (split; [by rewrite lookup_insert_eq|]);
      right; eexists; (split; [reflexivity|]); done. }
  destruct (CreateMatch w _) as [e|matchId] eqn:Hcreate; simpl.
  { destruct (SendEvr w _); simpl; (split; [by rewrite lookup_insert_eq|]);
      right; eexists; (split; [reflexivity|]); done. }
  destruct (ProcessRequest w matchId) eqn:Hjoin; simpl.
  2:{ destruct (SendEvr w _); simpl; (split; [by rewrite lookup_insert_eq|]);
      right; eexists; (split; [reflexivity|]); done. }
  destruct (SendEvr w [evr.NewBroadcasterRegistrationSuccess _ _; _]) as [sendErr|]; simpl.
  { destruct (SendEvr w _); simpl; (split; [by rewrite lookup_insert_eq|]);
      right; eexists; (split; [reflexivity|]); done. }
  split; [by rewrite lookup_insert_eq|]. by left.
Qed.



(** ** Splitting and trimming *)

Lemma strings_Split_nonempty s sep : strings_Split s sep ≠ [].
Proof.
  induction s as [|c s IH]; simpl; [done|].
  destruct (decide (c = sep)); [done|]. by destruct (strings_Split s sep).
Qed.

Lemma strings_Split_no_sep s sep piece :
  piece ∈ strings_Split s sep → ¬ In sep (chars piece).
Proof.
  revert piece. induction s as [|c s IH]; intros piece Hin; simpl in *.
  - apply list_elem_of_singleton in Hin as ->. simpl. tauto.
  - destruct (decide (c = sep)) as [->|Hne].
    + apply elem_of_cons in Hin as [->|Hin]; [simpl; tauto|by apply IH].
    + destruct (strings_Split s sep) as [|first pieces] eqn:Hsplit.
      * by destruct (strings_Split_nonempty s sep).
      * apply elem_of_cons in Hin as [->|Hin].
        -- simpl. intros [Heq|Hin]; [done|]. by eapply (IH first); [left|].
        -- apply IH. by right.
Qed.

Lemma strings_TrimLeft_suffix s cut c :
  In c (chars (strings_TrimLeft s cut)) → In c (chars s).
Proof.
  induction s as [|a s IH]; simpl; [done|].
  destruct (decide (a = cut)); simpl; [by right; apply IH|done].
Qed.

Lemma strings_TrimRight_prefix s cut c :
  In c (chars (strings_TrimRight s cut)) → In c (chars s).
Proof.
  induction s as [|a s IH]; simpl; [done|].
  destruct (strings_TrimRight s cut) as [|b kept] eqn:Hkept.
  - destruct (decide (a = cut)); simpl; [done|]. intros [->|[]]. by left.
  - simpl in *. intros [->|Hin]; [by left|]. right. by apply IH.
Qed.

Lemma strings_TrimLeft_head s cut :
  match strings_TrimLeft s cut with String a _ => a ≠ cut | EmptyString => True end.
Proof.
  induction s as [|a s IH]; simpl; [done|]. by destruct (decide (a = cut)).
Qed.

Lemma strings_TrimRight_head s cut :
  match s with String a _ => a ≠ cut | EmptyString => True end →
  match strings_TrimRight s cut with String a _ => a ≠ cut | EmptyString => True end.
Proof.
  destruct s as [|a s]; simpl; [done|]. intros Hne.
  destruct (strings_TrimRight s cut); [|done]. by destruct (decide (a = cut)).
Qed.

Lemma strings_TrimRight_last s cut :
  last (chars (strings_TrimRight s cut)) ≠ Some cut.
Proof.
  induction s as [|a s IH]; simpl; [done|].
  destruct (strings_TrimRight s cut) as [|b kept] eqn:Hkept.
  - destruct (decide (a = cut)); simpl; [done|]. by intros [= ->].
  - simpl in *. by destruct (chars kept).
Qed.

(** X19: [extractAuthenticationDetailsFromContext] fails with "no url
    params provided" exactly when the discord id or the password is absent
    or empty or the URL parameters are absent.  Otherwise every guild id it returns
    is non-empty, has no blank at either end, contains no comma and is not
    "any" (a request naming "any" yields the empty list), and no tag it
    returns contains a comma. *)
Theorem extractAuthenticationDetails_guilds ctx :
  match extractAuthenticationDetailsFromContext ctx with
  | inl e =>
    e = fmt_Errorf "no url params provided" []
    ∧ (ctxDiscordId ctx = None ∨ ctxDiscordId ctx = Some ""
       ∨ ctxPassword ctx = None ∨ ctxPassword ctx = Some "" ∨ ctxUrlParams ctx = None)
  | inr (discordId, password, tags, guildIds) =>
    ctxDiscordId ctx = Some discordId ∧ discordId ≠ ""
    ∧ ctxPassword ctx = Some password ∧ password ≠ ""
    ∧ ctxUrlParams ctx ≠ None
    ∧ (∀ tag, tag ∈ tags → ¬ In ","%char (chars tag))
    ∧ ∀ guildId, guildId ∈ guildIds →
        guildId ≠ "" ∧ guildId ≠ "any"
        ∧ ¬ In ","%char (chars guildId)
        ∧ match guildId with String a _ => a ≠ " "%char | EmptyString => True end
        ∧ last (chars guildId) ≠ Some " "%char
  end.
Proof.
  unfold extractAuthenticationDetailsFromContext.
  destruct (ctxDiscordId ctx) as [discordId|]; [|by split; [|left]].
  destruct (decide (discordId = "")) as [->|Hd]; [by split; [|right; left]|].
  destruct (ctxPassword ctx) as [password|]; [|by split; [|right; right; left]].
  destruct (decide (password = "")) as [->|Hp]; [by split; [|right; right; right; left]|].
  destruct (ctxUrlParams ctx) as [params|]; [|by split; [|right; right; right; right]].
  do 5 (split; [done|]). split.
  - intros tag Htag. destruct (params !! "tags") as [tagsets|]; [|by apply elem_of_nil in Htag].
    apply list_elem_of_bind in Htag as (tagstr & Htag & _).
    by eapply strings_Split_no_sep.
  - intros guildId Hguild.
    destruct (decide ("any" ∈ _)) as [Hany|Hany]; [by apply elem_of_nil in Hguild|].
    assert (guildId ≠ "any") as Hnotany by (by intros ->).
    destruct (params !! "guilds") as [guildparams|]; [|by apply elem_of_nil in Hguild].
    apply list_elem_of_bind in Hguild as (guildstr & Hin & _).
    apply list_elem_of_omap in Hin as (piece & Hpiece & Hkeep).
    destruct (decide (strings_Trim piece " " ≠ "")) as [Hne|]; [|done].
    inversion Hkeep; subst. do 2 (split; [done|]). split; [|split].
    + intros Hcomma. apply strings_TrimRight_prefix, strings_TrimLeft_suffix in Hcomma.
      by eapply strings_Split_no_sep.
    + apply strings_TrimRight_head, strings_TrimLeft_head.
    + apply strings_TrimRight_last.
Qed.

(** ** Hosted scopes *)

Lemma allowedGuilds_elem d discordId guildIds allowed guildId :
  HostInfo.allowedGuilds d discordId guildIds = inr allowed →
  guildId ∈ allowed ↔
  guildId ∈ guildIds ∧ HostInfo.allowedGuild d discordId guildId = inr true.
Proof.
  revert allowed. induction guildIds as [|g rest IH]; intros allowed Hrun; simpl in Hrun.
  - inversion Hrun; subst. split; [by intros ?%elem_of_nil|by intros [?%elem_of_nil _]].
  - destruct (HostInfo.allowedGuild d discordId g) as [e|keep] eqn:Hg; [done|].
    destruct (HostInfo.allowedGuilds d discordId rest) as [e|allowed'] eqn:Hrest; [done|].
    inversion Hrun; subst. specialize (IH allowed' eq_refl).
    destruct keep.
    + rewrite !elem_of_cons, IH. split.
      * intros [->|[Hin Hok]]; [by split; [left|]|by split; [right|]].
      * intros [[->|Hin] Hok]; [by left|by right].
    + rewrite elem_of_cons, IH. split.
      * intros [Hin Hok]. by split; [right|].
      * intros [[->|Hin] Hok]; [congruence|done].
Qed.

Lemma allowedGuild_true d discordId guildId :
  HostInfo.allowedGuild d discordId guildId = inr true ↔
  guildId ≠ ""
  ∧ ∃ roles groupId md,
      GetGuildMember d guildId discordId = inr roles
      ∧ Get d guildId = Some groupId
      ∧ GetGuildGroupMetadata d groupId = inr (Some md)
      ∧ (BroadcasterHostRole md = "" ∨ BroadcasterHostRole md ∈ roles).
Proof.
  unfold HostInfo.allowedGuild. split.
  - destruct (decide (guildId = "")); [done|].
    destruct (GetGuildMember d guildId discordId) as [e|roles]; [done|].
    destruct (Get d guildId) as [groupId|]; [|done].
    destruct (GetGuildGroupMetadata d groupId) as [e|[md|]] eqn:Hmd; try done.
    destruct (decide (BroadcasterHostRole md = "")) as [Hrole|Hrole].
    + intros _. split; [done|]. exists roles, groupId, md. by repeat split; [|left].
    + intros [= Hin%bool_decide_eq_true]. split; [done|].
      exists roles, groupId, md. by repeat split; [|right].
  - intros (Hne & roles & groupId & md & -> & -> & -> & Hrole).
    destruct (decide (guildId = "")); [done|].
    destruct (decide (BroadcasterHostRole md = "")); [done|].
    destruct Hrole as [|Hin]; [done|]. by rewrite bool_decide_eq_true_2.
Qed.

(** X20: every scope that [getBroadcasterHostInfo] returns is the group of
    a guild among those asked for (or, when none was asked for, among the
    guilds of the user's groups) in which the user is a member and which
    either names no host role or names one that the member holds; and every
    such guild contributes its group. *)
Theorem getBroadcasterHostInfo_sound d fromStringOrNil userId discordId guildIds channels :
  HostInfo.getBroadcasterHostInfo d fromStringOrNil userId discordId guildIds
  = inr channels →
  ∀ channel,
    channel ∈ channels ↔
    ∃ guildId groupId roles md,
      (guildId ∈ guildIds
       ∨ guildIds = []
         ∧ ∃ groups group,
             GetGuildGroups d userId = inr groups ∧ group ∈ groups
             ∧ Get d group = Some guildId)
      ∧ guildId ≠ ""
      ∧ GetGuildMember d guildId discordId = inr roles
      ∧ Get d guildId = Some groupId
      ∧ GetGuildGroupMetadata d groupId = inr (Some md)
      ∧ (BroadcasterHostRole md = "" ∨ BroadcasterHostRole md ∈ roles)
      ∧ channel = fromStringOrNil groupId.
Proof.
  unfold HostInfo.getBroadcasterHostInfo. intros Hrun channel.
  destruct (decide (length guildIds = 0%nat)) as [Hlen|Hlen].
  - destruct guildIds; [|done]. simpl in Hrun.
    destruct (GetGuildGroups d userId) as [e|groups] eqn:Hgroups; [done|].
    destruct (HostInfo.allowedGuilds d discordId (omap (Get d) groups))
      as [e|allowed] eqn:Hallowed; [done|].
    inversion Hrun; subst. rewrite list_elem_of_omap. split.
    + intros (guildId & Hin & Hchan).
      apply (allowedGuilds_elem _ _ _ _ _ Hallowed) in Hin as [Hin Hok].
      apply allowedGuild_true in Hok as (Hne & roles & groupId & md & Hm & Hg & Hmd & Hrole).
      apply list_elem_of_omap in Hin as (group & Hgroup & Hget).
      rewrite Hg in Hchan. simpl in Hchan. inversion Hchan; subst.
      exists guildId, groupId, roles, md. repeat split; try done.
      right. split; [done|]. by exists groups, group.
    + intros (guildId & groupId & roles & md & Hsrc & Hne & Hm & Hg & Hmd & Hrole & ->).
      exists guildId. split; [|by rewrite Hg].
      apply (allowedGuilds_elem _ _ _ _ _ Hallowed). split.
      * destruct Hsrc as [Hin|(_ & groups' & group & Hgr & Hin & Hget)];
          [by apply elem_of_nil in Hin|].
        inversion Hgr; subst. apply list_elem_of_omap. by exists group.
      * apply allowedGuild_true. split; [done|]. by exists roles, groupId, md.
  - destruct (HostInfo.allowedGuilds d discordId guildIds) as [e|allowed] eqn:Hallowed;
      [done|].
    inversion Hrun; subst. rewrite list_elem_of_omap. split.
    + intros (guildId & Hin & Hchan).
      apply (allowedGuilds_elem _ _ _ _ _ Hallowed) in Hin as [Hin Hok].
      apply allowedGuild_true in Hok as (Hne & roles & groupId & md & Hm & Hg & Hmd & Hrole).
      rewrite Hg in Hchan. simpl in Hchan. inversion Hchan; subst.
      exists guildId, groupId, roles, md. repeat split; try done. by left.
    + intros (guildId & groupId & roles & md & Hsrc & Hne & Hm & Hg & Hmd & Hrole & ->).
      exists guildId. split; [|by rewrite Hg].
      apply (allowedGuilds_elem _ _ _ _ _ Hallowed). split.
      * destruct Hsrc as [Hin|(-> & _)]; [done|by destruct Hlen].
      * apply allowedGuild_true. split; [done|]. by exists roles, groupId, md.
Qed.

(** ** Port scan and repeated probes *)

Lemma portScan_fold_rtts w ip startPort timeout order acc port :
  (foldl (λ acc port,
            portScanStore startPort acc port
              (healthcheckResult (probe w ip port) ip timeout)) acc order).1 !! port
  = if decide (port ∈ order
               ∧ (healthcheckResult (probe w ip port) ip timeout).2 = None)
    then Some (healthcheckResult (probe w ip port) ip timeout).1
    else acc.1 !! port.
Proof.
  revert acc. induction order as [|p order IH]; intros acc; cbn [foldl].
  - case_decide as Hd; [destruct Hd as [Hin _]; by apply elem_of_nil in Hin|done].
  - rewrite IH. unfold portScanStore.
    destruct (decide (port ∈ order ∧ _)) as [[Hin Hok]|Hno].
    + rewrite decide_True; [done|]. split; [by right|done].
    + destruct (decide (port = p)) as [->|Hne].
      * destruct ((healthcheckResult (probe w ip p) ip timeout).2) eqn:Herr; simpl.
        -- rewrite decide_False; [done|]. by intros [_ ?].
        -- rewrite lookup_insert_eq. rewrite decide_True; [done|]. split; [by left|done].
      * destruct ((healthcheckResult (probe w ip p) ip timeout).2); simpl;
          rewrite ?lookup_insert_ne by done;
          rewrite decide_False; try done;
          intros [[?|?]%elem_of_cons Hok]; [done|by apply Hno|done|by apply Hno].
Qed.

Lemma portScan_fold_errs w ip startPort timeout order acc port :
  Forall (λ p, startPort ≤ p) order → startPort ≤ port →
  (Z.to_nat (port - startPort) < length acc.2)%nat →
  (foldl (λ acc port,
            portScanStore startPort acc port
              (healthcheckResult (probe w ip port) ip timeout)) acc order).2
    !! Z.to_nat (port - startPort)
  = if decide (port ∈ order
               ∧ (healthcheckResult (probe w ip port) ip timeout).2 ≠ None)
    then Some ((healthcheckResult (probe w ip port) ip timeout).2)
    else acc.2 !! Z.to_nat (port - startPort).
Proof.
  revert acc. induction order as [|p order IH]; intros acc Hfrom Hport Hlen; cbn [foldl].
  - case_decide as Hd; [destruct Hd as [Hin _]; by apply elem_of_nil in Hin|done].
  - apply Forall_cons in Hfrom as [Hp Hfrom].
    rewrite IH; [|done|done|].
    2:{ unfold portScanStore.
        destruct ((healthcheckResult (probe w ip p) ip timeout).2); simpl;
          by rewrite ?length_insert. }
    unfold portScanStore.
    destruct (decide (port ∈ order ∧ _)) as [[Hin Hok]|Hno].
    + rewrite decide_True; [done|]. split; [by right|done].
    + destruct (decide (port = p)) as [->|Hne].
      * destruct ((healthcheckResult (probe w ip p) ip timeout).2) eqn:Herr; simpl.
        -- rewrite list_lookup_insert_eq by done.
           rewrite decide_True; [done|]. split; [by left|done].
        -- rewrite decide_False; [done|]. by intros [_ ?].
      * assert (Z.to_nat (p - startPort) ≠ Z.to_nat (port - startPort)) by lia.
        destruct ((healthcheckResult (probe w ip p) ip timeout).2); simpl;
          rewrite ?list_lookup_insert_ne by done;
          rewrite decide_False; try done;
          intros [[?|?]%elem_of_cons Hok]; [done|by apply Hno|done|by apply Hno].
Qed.

Lemma portScan_fold_length w ip startPort timeout order acc :
  length (foldl (λ acc port,
                   portScanStore startPort acc port
                     (healthcheckResult (probe w ip port) ip timeout)) acc order).2
  = length acc.2.
Proof.
  revert acc. induction order as [|p order IH]; intros acc; simpl; [done|].
  rewrite IH. unfold portScanStore.
  destruct ((healthcheckResult (probe w ip p) ip timeout).2); simpl;
    by rewrite ?length_insert.
Qed.

(** X21: a port scan over [startPort..endPort] returns, whatever the order
    in which its goroutines finish, one verdict per port of the range: a
    port whose probe succeeded is a key of the RTT map with the measured
    RTT and has a nil error, a port whose probe failed is no key of the map
    and has the probe's error at index [port - startPort]; no port outside
    the range is a key, and there are as many error cells as ports. *)
Theorem BroadcasterPortScan_verdicts w ip startPort endPort timeout order :
  startPort - 1 ≤ endPort →
  order ≡ₚ seqZ startPort (endPort - startPort + 1) →
  ∃ rtts errs,
    BroadcasterPortScan w ip startPort endPort timeout order = Some (rtts, errs)
    ∧ Z.of_nat (length errs) = endPort - startPort + 1
    ∧ (∀ port, startPort ≤ port ≤ endPort →
         match healthcheckResult (probe w ip port) ip timeout with
         | (rtt, None) =>
           rtts !! port = Some rtt ∧ errs !! Z.to_nat (port - startPort) = Some None
         | (_, Some err) =>
           rtts !! port = None
           ∧ errs !! Z.to_nat (port - startPort) = Some (Some err)
         end)
    ∧ ∀ port, ¬ (startPort ≤ port ≤ endPort) → rtts !! port = None.
Proof.
  intros Hrange Horder. unfold BroadcasterPortScan.
  destruct (endPort - startPort + 1 <? 0) eqn:Hneg; [lia|].
  eexists _, _. split; [by rewrite <- surjective_pairing|].
  assert (Hmem : ∀ port, port ∈ order ↔ startPort ≤ port ≤ endPort).
  { intros port. rewrite Horder, elem_of_seqZ. lia. }
  assert (Hfrom : Forall (λ p, startPort ≤ p) order).
  { apply Forall_forall. intros p Hp. apply Hmem in Hp. lia. }
  split; [|split].
  - rewrite portScan_fold_length. simpl. rewrite length_replicate. lia.
  - intros port Hport.
    rewrite portScan_fold_rtts.
    rewrite (portScan_fold_errs _ _ _ _ _ _ _ Hfrom) by
      (simpl; rewrite ?length_replicate; lia).
    simpl. rewrite lookup_empty.
    rewrite lookup_replicate_2 by lia.
    destruct (healthcheckResult (probe w ip port) ip timeout) as [rtt [err|]]; simpl.
    + rewrite decide_False by (by intros [_ ?]).
      rewrite decide_True; [done|]. split; [by apply Hmem|done].
    + rewrite decide_True by (split; [by apply Hmem|done]).
      rewrite decide_False; [done|]. by intros [_ ?].
  - intros port Hport. rewrite portScan_fold_rtts.
    rewrite decide_False; [done|]. intros [Hin _]. by apply Hmem in Hin.
Qed.

Lemma rttCheckLoop_spec probeAt ip interval timeout remaining :
  ∀ i rtts sleeps,
    (i + remaining ≤ length rtts)%nat →
    let result := rttCheckLoop probeAt ip interval timeout i remaining rtts sleeps in
    length result.1 = length rtts
    ∧ (∀ k, (k < i ∨ i + remaining ≤ k)%nat → result.1 !! k = rtts !! k)
    ∧ (∀ k, (i ≤ k < i + remaining)%nat →
         result.1 !! k
         = Some (match probeAt k with Acknowledged rtt => rtt | _ => -1 end))
    ∧ result.2
      = sleeps
        ++ replicate
             (length (filter (λ k, acknowledged (probeAt k))
                             (seq i remaining)))
             interval.
Proof.
  induction remaining as [|remaining IH]; intros i rtts sleeps Hlen; simpl.
  - split; [done|]. split; [done|]. split; [intros; lia|by rewrite app_nil_r].
  - assert (Hstep :
      ∃ rtt sleeps',
        (let '(rtt, err) := healthcheckResult (probeAt i) ip timeout in
         match err with
         | Some _ =>
           rttCheckLoop probeAt ip interval timeout (S i) remaining
                        (<[i := -1]> rtts) sleeps
         | None =>
           rttCheckLoop probeAt ip interval timeout (S i) remaining
                        (<[i := rtt]> rtts) (sleeps ++ [interval])
         end)
        = rttCheckLoop probeAt ip interval timeout (S i) remaining
                       (<[i := rtt]> rtts) sleeps'
        ∧ rtt = match probeAt i with Acknowledged rtt => rtt | _ => -1 end
        ∧ sleeps' = sleeps ++ (if acknowledged (probeAt i)
                               then [interval] else [])).
    { destruct (probeAt i) eqn:Hprobe; simpl;
        eexists _, _; (split; [reflexivity|]); (split; [done|]);
        by rewrite ?app_nil_r. }
    destruct Hstep as (rtt & sleeps' & -> & Hrtt & Hsleeps).
    destruct (IH (S i) (<[i := rtt]> rtts) sleeps') as (Hl & Hout & Hin & Hs);
      [rewrite length_insert; lia|].
    rewrite length_insert in Hl. split; [|split; [|split]].
    + done.
    + intros k Hk. rewrite Hout by lia. apply list_lookup_insert_ne. lia.
    + intros k Hk. destruct (decide (k = i)) as [->|Hne].
      * rewrite Hout by lia. rewrite list_lookup_insert_eq by lia. by rewrite Hrtt.
      * apply Hin. lia.
    + rewrite Hs, Hsleeps, <- app_assoc. f_equal.
      rewrite filter_cons. destruct (probeAt i); simpl; done.
Qed.

(** X22: an RTT check of [count] rounds never reports an error.  It returns
    [count] entries; the entry of a round is the measured RTT when the probe
    was acknowledged and [-1] for every kind of failure; and it sleeps for
    the interval once after each acknowledged probe and never after a failed
    one. *)
Theorem BroadcasterRTTcheck_entries probeAt ip count interval timeout :
  0 ≤ count →
  ∃ rtts sleeps,
    BroadcasterRTTcheck probeAt ip count interval timeout = Some (rtts, None, sleeps)
    ∧ Z.of_nat (length rtts) = count
    ∧ (∀ k, (k < length rtts)%nat →
         rtts !! k = Some (match probeAt k with Acknowledged rtt => rtt | _ => -1 end))
    ∧ sleeps
      = replicate
          (length (filter (λ k, acknowledged (probeAt k))
                          (seq 0 (Z.to_nat count))))
          interval.
Proof.
  intros Hcount. unfold BroadcasterRTTcheck.
  destruct (count <? 0) eqn:Hneg; [lia|].
  destruct (rttCheckLoop_spec probeAt ip interval timeout (Z.to_nat count) 0%nat
              (replicate (Z.to_nat count) 0) [])
    as (Hl & _ & Hin & Hs); [rewrite length_replicate; lia|].
  destruct (rttCheckLoop _ _ _ _ _ _ _ _) as [rtts sleeps]. simpl in *.
  rewrite length_replicate in Hl.
  exists rtts, sleeps. repeat split; [lia|intros k Hk; apply Hin; lia|done].
Qed.

(** ** Suspension status *)


Lemma checkExpiry_spec r userID objs :
  ∀ k suspensions deleted,
    match checkExpiry r userID k objs suspensions deleted with
    | (inr result, deleted') =>
      ∃ kept dels,
        result = suspensions ++ kept ∧ deleted' = deleted ++ dels
        ∧ (length kept + length dels = length objs)%nat
        ∧ (∀ status, status ∈ kept ↔
             ∃ i obj, objs !! i = Some obj
                      ∧ Suspension.json_Unmarshal r (Suspension.Value obj) = inr status
                      ∧ Suspension.Now r (k + i) < Suspension.Expiry status)
        ∧ (∀ op, op ∈ dels ↔
             ∃ i obj status,
               objs !! i = Some obj
               ∧ Suspension.json_Unmarshal r (Suspension.Value obj) = inr status
               ∧ Suspension.Expiry status ≤ Suspension.Now r (k + i)
               ∧ op = expiredDelete r userID obj)
    | (inl e, deleted') =>
      ∃ n obj err dels,
        objs !! n = Some obj
        ∧ Suspension.json_Unmarshal r (Suspension.Value obj) = inl err
        ∧ e = status_Errorf codes.Internal "Failed to unmarshal suspension status: %v"
                            [ArgError (Some err)]
        ∧ deleted' = deleted ++ dels
        ∧ (∀ op, op ∈ dels ↔
             ∃ i obj status,
               (i < n)%nat ∧ objs !! i = Some obj
               ∧ Suspension.json_Unmarshal r (Suspension.Value obj) = inr status
               ∧ Suspension.Expiry status ≤ Suspension.Now r (k + i)
               ∧ op = expiredDelete r userID obj)
    end.
Proof.
  induction objs as [|obj objs IH]; intros k suspensions deleted; simpl.
  - exists [], []. rewrite !app_nil_r. repeat split; try done.
    + by intros ?%elem_of_nil.
    + by intros (i & obj & Hlook & _).
    + by intros ?%elem_of_nil.
    + by intros (i & obj & status & Hlook & _).
  - destruct (Suspension.json_Unmarshal r (Suspension.Value obj)) as [err|suspension]
      eqn:Hparse.
    { exists 0%nat, obj, err, []. rewrite app_nil_r. repeat split; try done.
      - by intros ?%elem_of_nil.
      - intros (i & ? & ? & Hi & _). lia. }
    destruct (Suspension.Now r k <? Suspension.Expiry suspension) eqn:Hnow.
    + apply Z.ltb_lt in Hnow.
      specialize (IH (S k) (suspensions ++ [suspension]) deleted).
      destruct (checkExpiry r userID (S k) objs (suspensions ++ [suspension]) deleted)
        as [[e|result] deleted'].
      * destruct IH as (n & obj' & err & dels & Hlook & Herr & -> & -> & Hdels).
        exists (S n), obj', err, dels. repeat split; try done.
        -- intros Hop. apply Hdels in Hop as (i & o & s & Hi & Hl & Hp & Hexp & ->).
           exists (S i), o, s. repeat split; try done; [lia|].
           by replace (k + S i)%nat with (S k + i)%nat by lia.
        -- intros (i & o & s & Hi & Hl & Hp & Hexp & ->). apply Hdels.
           destruct i as [|i]; simpl in Hl.
           ++ inversion Hl; subst. rewrite Hparse in Hp. inversion Hp; subst.
              rewrite Nat.add_0_r in Hexp. lia.
           ++ exists i, o, s. repeat split; try done; [lia|].
              by replace (S k + i)%nat with (k + S i)%nat by lia.
      * destruct IH as (kept & dels & -> & -> & Hlen & Hkept & Hdels).
        exists (suspension :: kept), dels. rewrite <- app_assoc. repeat split; try done.
        -- simpl. lia.
        -- intros [->|Hin]%elem_of_cons.
           ++ exists 0%nat, obj. by rewrite Nat.add_0_r.
           ++ apply Hkept in Hin as (i & o & Hl & Hp & Hexp).
              exists (S i), o. repeat split; try done.
              by replace (k + S i)%nat with (S k + i)%nat by lia.
        -- intros (i & o & Hl & Hp & Hexp). destruct i as [|i]; simpl in Hl.
           ++ inversion Hl; subst. rewrite Hparse in Hp. inversion Hp; subst. by left.
           ++ right. apply Hkept. exists i, o. repeat split; try done.
              by replace (S k + i)%nat with (k + S i)%nat by lia.
        -- intros Hop. apply Hdels in Hop as (i & o & s & Hl & Hp & Hexp & ->).
           exists (S i), o, s. repeat split; try done.
           by replace (k + S i)%nat with (S k + i)%nat by lia.
        -- intros (i & o & s & Hl & Hp & Hexp & ->). apply Hdels.
           destruct i as [|i]; simpl in Hl.
           ++ inversion Hl; subst. rewrite Hparse in Hp. inversion Hp; subst.
              rewrite Nat.add_0_r in Hexp. lia.
           ++ exists i, o, s. repeat split; try done.
              by replace (S k + i)%nat with (k + S i)%nat by lia.
    + apply Z.ltb_ge in Hnow.
      specialize (IH (S k) suspensions (deleted ++ [expiredDelete r userID obj])).
      destruct (checkExpiry r userID (S k) objs suspensions
                            (deleted ++ [expiredDelete r userID obj]))
        as [[e|result] deleted'].
      * destruct IH as (n & obj' & err & dels & Hlook & Herr & -> & -> & Hdels).
        exists (S n), obj', err, (expiredDelete r userID obj :: dels).
        rewrite <- app_assoc. repeat split; try done.
        -- intros [->|Hop]%elem_of_cons.
           ++ exists 0%nat, obj, suspension. rewrite Nat.add_0_r.
              repeat split; try done. lia.
           ++ apply Hdels in Hop as (i & o & s & Hi & Hl & Hp & Hexp & ->).
              exists (S i), o, s. repeat split; try done; [lia|].
              by replace (k + S i)%nat with (S k + i)%nat by lia.
        -- intros (i & o & s & Hi & Hl & Hp & Hexp & ->).
           destruct i as [|i]; simpl in Hl.
           ++ inversion Hl; subst. by left.
           ++ right. apply Hdels. exists i, o, s. repeat split; try done; [lia|].
              by replace (S k + i)%nat with (k + S i)%nat by lia.
      * destruct IH as (kept & dels & -> & -> & Hlen & Hkept & Hdels).
        exists kept, (expiredDelete r userID obj :: dels).
        rewrite <- app_assoc. repeat split; try done.
        -- simpl. lia.
        -- intros Hin. apply Hkept in Hin as (i & o & Hl & Hp & Hexp).
           exists (S i), o. repeat split; try done.
           by replace (k + S i)%nat with (S k + i)%nat by lia.
        -- intros (i & o & Hl & Hp & Hexp). destruct i as [|i]; simpl in Hl.
           ++ inversion Hl; subst. rewrite Hparse in Hp. inversion Hp; subst.
              rewrite Nat.add_0_r in Hexp. lia.
           ++ apply Hkept. exists i, o. repeat split; try done.
              by replace (S k + i)%nat with (k + S i)%nat by lia.
        -- intros [->|Hop]%elem_of_cons.
           ++ exists 0%nat, obj, suspension. rewrite Nat.add_0_r. by repeat split.
           ++ apply Hdels in Hop as (i & o & s & Hl & Hp & Hexp & ->).
              exists (S i), o, s. repeat split; try done.
              by replace (k + S i)%nat with (S k + i)%nat by lia.
        -- intros (i & o & s & Hl & Hp & Hexp & ->).
           destruct i as [|i]; simpl in Hl.
           ++ inversion Hl; subst. by left.
           ++ right. apply Hdels. exists i, o, s. repeat split; try done.
              by replace (S k + i)%nat with (k + S i)%nat by lia.
Qed.


(** X24: when the user holds a suspension role and stored statuses are
    read, every stored object is unmarshalled in order; on success each is
    either reported (expiry after the clock) or deleted (expiry at or before
    the clock), none is both and none is left out, so a user all of whose
    stored suspensions have lapsed gets an empty list.  When an object cannot
    be unmarshalled the check fails with an internal error, and the lapsed
    objects before it have already been deleted. *)
Theorem checkSuspensionStatus_expiry
    d r fromStringOrNil userID channel md discordId roles ids objs :
  channel ≠ uuid.Nil →
  GetGuildGroupMetadata d channel = inr (Some md) →
  Suspension.GetDiscordIdByUserId r (fromStringOrNil userID) = inr discordId →
  GetGuildMember d (GuildId md) discordId = inr roles →
  (∃ role, role ∈ SuspensionRoles md ∧ role ∈ roles) →
  Suspension.StorageList r uuid.Nil userID (Suspension.SuspensionStatusCollection r)
                         1000 ""
  = inr ids →
  ids ≠ [] →
  Suspension.StorageReadObjects r
    ((λ id, {| Suspension.read_Collection := Suspension.SuspensionStatusCollection r;
               Suspension.read_Key := id;
               Suspension.read_UserID := userID |}) <$> ids)
  = inr objs →
  objs ≠ [] →
  match checkSuspensionStatus d r fromStringOrNil userID channel with
  | (inr statuses, deleted) =>
    (length statuses + length deleted = length objs)%nat
    ∧ (∀ status, status ∈ statuses ↔
         ∃ k obj, objs !! k = Some obj
                  ∧ Suspension.json_Unmarshal r (Suspension.Value obj) = inr status
                  ∧ Suspension.Now r k < Suspension.Expiry status)
    ∧ (∀ op, op ∈ deleted ↔
         ∃ k obj status,
           objs !! k = Some obj
           ∧ Suspension.json_Unmarshal r (Suspension.Value obj) = inr status
           ∧ Suspension.Expiry status ≤ Suspension.Now r k
           ∧ op = expiredDelete r userID obj)
  | (inl e, deleted) =>
    ∃ n obj err,
      objs !! n = Some obj
      ∧ Suspension.json_Unmarshal r (Suspension.Value obj) = inl err
      ∧ e = status_Errorf codes.Internal "Failed to unmarshal suspension status: %v"
                          [ArgError (Some err)]
      ∧ ∀ op, op ∈ deleted ↔
          ∃ k obj status,
            (k < n)%nat ∧ objs !! k = Some obj
            ∧ Suspension.json_Unmarshal r (Suspension.Value obj) = inr status
            ∧ Suspension.Expiry status ≤ Suspension.Now r k
            ∧ op = expiredDelete r userID obj
  end.
Proof.
  intros Hchannel Hmd Hdiscord Hmember (role & Hrole1 & Hrole2) Hlist Hids Hread Hobjs.
  unfold checkSuspensionStatus.
  destruct (decide (channel = uuid.Nil)); [done|]. rewrite Hmd.
  destruct (decide (length (SuspensionRoles md) = 0%nat)) as [Hnone|_].
  { destruct (SuspensionRoles md); [by apply elem_of_nil in Hrole1|done]. }
  rewrite Hdiscord, Hmember.
  destruct (decide (length (lo_Intersect roles (SuspensionRoles md)) = 0%nat))
    as [Hnone|_].
  { assert (Hin : role ∈ lo_Intersect roles (SuspensionRoles md))
      by (by apply list_elem_of_filter).
    destruct (lo_Intersect roles (SuspensionRoles md));
      [by apply elem_of_nil in Hin|done]. }
  rewrite Hlist.
  destruct (decide (length ids = 0%nat)); [by destruct ids|].
  rewrite Hread.
  destruct (decide (length objs = 0%nat)); [by destruct objs|].
  pose proof (checkExpiry_spec r userID objs 0%nat [] []) as Hspec.
  destruct (checkExpiry r userID 0 objs [] []) as [[e|statuses] deleted].
  - destruct Hspec as (k & obj & err & dels & Hlook & Hparse & -> & -> & Hdels).
    by exists k, obj, err.
  - destruct Hspec as (kept & dels & -> & -> & Hlen & Hkept & Hdels). done.
Qed.

(** ** Match creation *)

Lemma preserves_ret {A B} (f : St → A) (b : B) : preserves f (mret b).
Proof. by intros st. Qed.

Lemma preserves_throw {A B} (f : St → A) e : preserves f (throw (A:=B) e).
Proof. by intros st. Qed.

Lemma preserves_gets {A B} (f : St → A) (g : St → B) : preserves f (gets g).
Proof. by intros st. Qed.

Lemma preserves_modify {A} (f : St → A) g :
  (∀ st, f (g st) = f st) → preserves f (modify g).
Proof. intros Hg st. apply Hg. Qed.

Lemma preserves_bind {A B C} (f : St → A) (m : M B) (k : B → M C) :
  preserves f m → (∀ b, preserves f (k b)) → preserves f (m ≫= k).
Proof.
  intros Hm Hk st. specialize (Hm st). unfold mbind, M_bind.
  destruct (m st) as [[e|b] st1]; simpl in *; [done|].
  by rewrite Hk.
Qed.

Lemma preserves_catch {A B} (f : St → A) (m : M B) :
  preserves f m → preserves f (catch m).
Proof.
  intros Hm st. specialize (Hm st). unfold catch.
  destruct (m st) as [[e|b] st1]; simpl in *; [|done]. by destruct (is_panic e).
Qed.

Lemma preserves_deferred {A B} (f : St → A) ev (m : M B) :
  (∀ g st, f (with_trace g st) = f st) → preserves f m → preserves f (deferred ev m).
Proof.
  intros Hf Hm st. specialize (Hm st). unfold deferred.
  destruct (m st) as [result st1]; simpl in *. by rewrite Hf.
Qed.

Ltac preserves_step :=
  first
    [ apply preserves_ret
    | apply preserves_throw
    | apply preserves_gets
    | apply preserves_modify; reflexivity
    | apply preserves_catch
    | apply preserves_deferred; [reflexivity|]
    | apply preserves_bind; [|intros ?]
    | match goal with
      | |- preserves _ (match ?x with _ => _ end) => destruct x
      | |- preserves _ (if ?b then _ else _) => destruct b
      end ].

Ltac frame := repeat preserves_step.


Lemma unmarshalLabels_spec w r matches :
  match unmarshalLabels w r matches with
  | inr labels =>
    Forall2 (λ m label, json_Unmarshal w (am_LabelValue m) None = Some label)
            matches labels
  | inl e =>
    ∃ i m,
      matches !! i = Some m
      ∧ json_Unmarshal w (am_LabelValue m) None = None
      ∧ e = status_Errorf codes.Internal "Failed to unmarshal match label: %v"
                          [ArgError (Some (unmarshalError r (am_LabelValue m)))]
  end.
Proof.
  induction matches as [|m matches IH]; simpl; [constructor|].
  destruct (json_Unmarshal w (am_LabelValue m) None) as [label|] eqn:Hlabel.
  - destruct (unmarshalLabels w r matches) as [e|labels].
    + destruct IH as (i & m' & Hi & Hbad & ->). by exists (S i), m'.
    + by constructor.
  - by exists 0%nat, m.
Qed.

(** X25: [ListUnassignedLobbies] searches once, for at most 100 matches of
    size exactly 1, and changes nothing else.  It returns labels only when
    the search found matches and every one of their labels unmarshalled:
    the result then has one label per match, in order, and is never empty.
    A failed search, an empty search result and a single label that does
    not unmarshal each fail the whole listing. *)
Theorem ListUnassignedLobbies_outcomes w r ml st :
  let query := strings.Join (renderPart w <$> unassignedLobbyParts ml) " " in
  (ListUnassignedLobbies w r ml st).2
  = with_trace (λ t, t ++ [EvListMatches 100 1 1 query]) st
  ∧ match (ListUnassignedLobbies w r ml st).1 with
    | inr labels =>
      labels ≠ []
      ∧ ∃ matches,
          listMatches w 100 1 1 query = inr matches
          ∧ Forall2 (λ m label, json_Unmarshal w (am_LabelValue m) None = Some label)
                    matches labels
    | inl e =>
      (∃ err, listMatches w 100 1 1 query = inl err
              ∧ e = status_Errorf codes.Internal "Failed to find matches: %v"
                                  [ArgError (Some err)])
      ∨ (listMatches w 100 1 1 query = inr []
         ∧ e = ErrMatchmakingNoAvailableServers r)
      ∨ ∃ matches i m,
          listMatches w 100 1 1 query = inr matches
          ∧ matches !! i = Some m
          ∧ json_Unmarshal w (am_LabelValue m) None = None
          ∧ e = status_Errorf codes.Internal "Failed to unmarshal match label: %v"
                              [ArgError (Some (unmarshalError r (am_LabelValue m)))]
    end.
Proof.
  intros query. unfold ListUnassignedLobbies. fold query. rewrite bind_emit.
  destruct (listMatches w 100 1 1 query) as [err|matches] eqn:Hlist.
  { split; [done|]. left. by exists err. }
  destruct (decide (length matches = 0%nat)) as [Hlen|Hlen].
  { destruct matches; [|done]. split; [done|]. right. by left. }
  pose proof (unmarshalLabels_spec w r matches) as Hspec.
  destruct (unmarshalLabels w r matches) as [e|labels].
  - split; [done|]. right. right.
    destruct Hspec as (i & m & Hi & Hbad & ->). by exists matches, i, m.
  - split; [done|]. simpl. split.
    + intros ->. apply Forall2_length in Hspec. by destruct matches.
    + by exists matches.
Qed.



Lemma rankLabels_subset w mode labels result label :
  label ∈ (rankLabels w mode labels result).1 → label ∈ labels.
Proof.
  unfold rankLabels. cbn [fst]. intros Hin.
  apply list_elem_of_fmap in Hin as ([label' rtt] & -> & Hin).
  apply matchDatas_elem in Hin as (data & _ & Hfirst & _).
  by apply firstOnEndpoint_Some in Hfirst as [Hin _].
Qed.



(** X26: when [MatchCreate] returns a match id, the unassigned lobbies were
    listed for the label with [MaxSize] set to the maximum, [MatchSort]
    ranked them, and the id is the id of the first ranked lobby, which is
    one of the listed ones, followed by a dot and the node.  That parking
    match was sent the prepare signal and then the start signal, both with
    the label stamped with the caller as spawner, and both were accepted.
    The registry's lock was released last. *)
Theorem MatchCreate_success w r session msession label st signals matchId st' :
  MatchCreate w r session msession label st = (inr (signals, inr matchId), st') →
  let label1 := set_MaxSize (MatchMaxSize w) label in
  let label2 := set_SpawnedBy (ws_userID session) label1 in
  ∃ lobbies st1 lobby rest rtts st2,
    ListUnassignedLobbies w r label1 (with_trace (λ t, t ++ [EvLock registryLock]) st)
    = (inr lobbies, st1)
    ∧ MatchSort w session msession lobbies st1 = (inr (lobby :: rest, rtts), st2)
    ∧ lobby ∈ lobbies
    ∧ matchId = MatchID lobby +:+ "." +:+ node w
    ∧ signals = [ {| sig_MatchID := matchId; sig_Signal := SignalPrepareSession;
                     sig_Label := label2 |};
                  {| sig_MatchID := matchId; sig_Signal := SignalStartSession;
                     sig_Label := label2 |} ]
    ∧ SignalMatch r matchId SignalPrepareSession label2 = None
    ∧ SignalMatch r matchId SignalStartSession label2 = None
    ∧ st' = with_trace (λ t, t ++ [EvUnlock registryLock]) st2.
Proof.
  intros Hrun label1 label2. unfold MatchCreate in Hrun. fold label1 in Hrun.
  rewrite bind_emit in Hrun. unfold deferred, createLocked in Hrun.
  set (st0 := with_trace (λ t, t ++ [EvLock registryLock]) st) in *.
  unfold mbind, M_bind, catch in Hrun.
  destruct (ListUnassignedLobbies w r label1 st0) as [[e|lobbies] st1] eqn:Hlist.
  { destruct (is_panic e); simpl in Hrun; inversion Hrun. }
  destruct (MatchSort w session msession lobbies st1) as [[e|[sorted rtts]] st2]
    eqn:Hsort.
  { destruct (is_panic e); simpl in Hrun; inversion Hrun. }
  destruct sorted as [|lobby rest]; [simpl in Hrun; inversion Hrun|].
  cbv zeta in Hrun. fold label2 in Hrun.
  destruct (SignalMatch r (MatchID lobby +:+ "." +:+ node w) SignalPrepareSession label2)
    as [err|] eqn:Hprepare; [simpl in Hrun; inversion Hrun|].
  destruct (SignalMatch r (MatchID lobby +:+ "." +:+ node w) SignalStartSession label2)
    as [err|] eqn:Hstart; [simpl in Hrun; inversion Hrun|].
  simpl in Hrun. inversion Hrun; subst.
  exists lobbies, st1, lobby, rest, rtts, st2. repeat split; try done.
  apply MatchSort_inv in Hsort as [(-> & Hnil & _)|(result & _ & Hsorted & _)];
    [done|].
  apply (rankLabels_subset w (Mode (Label msession)) lobbies result).
  rewrite <- Hsorted. by left.
Qed.


(** ** Joining a match *)

Lemma chars_app s1 s2 : chars (s1 +:+ s2) = chars s1 ++ chars s2.
Proof. induction s1 as [|c s1 IH]; simpl; [done|]. by rewrite IH. Qed.

Lemma qualifiedMatchID_dot w matchIDStr :
  "."%char ∈ chars (qualifiedMatchID w matchIDStr).
Proof.
  unfold qualifiedMatchID, strings_Contains.
  destruct (bool_decide ("."%char ∈ chars matchIDStr)) eqn:Hdot.
  - by apply bool_decide_eq_true in Hdot.
  - rewrite !chars_app. apply elem_of_app. right. apply elem_of_app. left. by left.
Qed.

(** Destructs the answers that decide the path of [JoinEvrMatch]. *)
Ltac join_cases H :=
  repeat match type of H with
         | context [decide ?P] => destruct (decide P) as [?Hyes|?Hno]
         | context [ctxEvrID ?w] => destruct (ctxEvrID w) as [?evrID|] eqn:?Hevr
         | context [GetMatch ?w ?id] =>
           destruct (GetMatch w id) as [[?match_|] [?err|]] eqn:?Hmatch
         | context [json_Unmarshal ?w ?v None] =>
           destruct (json_Unmarshal w v None) as [?label|] eqn:?Hlabel
         | context [negb (Join.profileLoad ?j ?u ?e)] =>
           destruct (Join.profileLoad j u e) eqn:?Hprofile; cbn [negb] in H
         | context [Join.newV4 ?j] => destruct (Join.newV4 j) as [?err|?playerSession] eqn:?Huuid
         | context [Join.json_Marshal ?j ?mp] =>
           destruct (Join.json_Marshal j mp) as [?err|?jsonMeta] eqn:?Hmarshal
         | context [Join.joinAttempt ?j ?m ?n ?s ?meta] =>
           destruct (Join.joinAttempt j m n s meta)
             as [[[[|] [|]] ?isNew] ?reason] eqn:?Hattempt; cbn [negb] in H
         end.

(** X28: when [JoinEvrMatch] returns nil, the match id it worked with names
    a node (the caller's, or this node appended), the id before the first
    dot parsed to a non-nil UUID, the match was found with a readable label,
    the player's profile was loaded, and the join attempt, made on this node
    whatever node the id names, was found and allowed.  The last two things
    it did were to record the qualified id under the session id and under
    the EVR id; it recorded nothing else and did not close the session. *)
Theorem JoinEvrMatch_success w j session query matchIDStr teamIndex effects :
  JoinEvrMatch w j session query matchIDStr teamIndex = (Join.Returns None, effects) →
  let qualified := qualifiedMatchID w matchIDStr in
  let matchID := FromStringOrNil w (default "" (head (strings_Split qualified "."%char))) in
  "."%char ∈ chars qualified
  ∧ matchID ≠ uuid.Nil
  ∧ (∃ match_ label,
       GetMatch w qualified = (Some match_, None)
       ∧ json_Unmarshal w (am_LabelValue match_) None = Some label)
  ∧ ∃ evrID playermeta isNew reason before,
      ctxEvrID w = Some evrID
      ∧ Join.profileLoad j (ws_userID session) evrID = true
      ∧ Join.joinAttempt j matchID (node w) session playermeta
        = (true, true, isNew, reason)
      ∧ Join.JoinAttempt matchID (node w) playermeta ∈ before
      ∧ effects
        = before ++ [Join.StoreMatchBySessionID (ws_id session) qualified;
                     Join.StoreMatchByEvrID evrID qualified]
      ∧ Forall (λ effect, is_store effect = false
                          ∧ ∀ msg, effect ≠ Join.SessionClose msg) before.
Proof.
  intros Hrun qualified matchID. unfold JoinEvrMatch in Hrun.
  fold qualified in Hrun. fold matchID in Hrun.
  split; [apply qualifiedMatchID_dot|].
  cbv zeta in Hrun. join_cases Hrun; try (by inversion Hrun).
  all: split; [done|]; (split; [by eexists _, _|]).
  all: inversion Hrun as [Heffects]; clear Hrun.
  all: eexists evrID, jsonMeta, isNew, reason, _.
  all: do 3 (split; [done|]); (split; [|split; [reflexivity|]]).
  all: destruct isNew; simpl; first [solve [repeat constructor]|repeat constructor; done].
Qed.

(** X29: when [JoinEvrMatch] fails or panics it has recorded the match
    under neither the session id nor the EVR id.  It closes the session
    only when the profile is missing, and then no join was attempted.  If a
    join was attempted, the failure is that attempt's answer: the match was
    not found, or the join was not allowed and the error carries the status
    code selected by the reason. *)
Theorem JoinEvrMatch_failure w j session query matchIDStr teamIndex outcome effects :
  JoinEvrMatch w j session query matchIDStr teamIndex = (outcome, effects) →
  outcome ≠ Join.Returns None →
  Forall (λ effect, is_store effect = false) effects
  ∧ (∀ msg, Join.SessionClose msg ∈ effects →
       outcome = Join.Returns
                   (Some (fmt_Errorf "profile not found: %s"
                                     [ArgString (ws_userID session)]))
       ∧ ∀ matchID node playermeta, Join.JoinAttempt matchID node playermeta ∉ effects)
  ∧ ∀ matchID node playermeta,
      Join.JoinAttempt matchID node playermeta ∈ effects →
      ∃ found allowed isNew reason,
        Join.joinAttempt j matchID node session playermeta
        = (found, allowed, isNew, reason)
        ∧ (found = false
           ∧ outcome
             = Join.Returns
                 (Some (fmt_Errorf "match not found: %s"
                                   [ArgString (qualifiedMatchID w matchIDStr)]))
           ∨ found = true ∧ allowed = false
             ∧ outcome
               = Join.Returns
                   (Some (status_Errorf (joinRejectedCode j reason)
                                        "join not allowed: %s" [ArgString reason]))).
Proof.
  intros Hrun Hfailed. unfold JoinEvrMatch in Hrun. cbv zeta in Hrun.
  join_cases Hrun; inversion Hrun; subst; clear Hrun; try done.
  all: split; [repeat constructor|].
  all: split;
    [intros msg Hin|intros matchID node' playermeta Hin];
    simpl in Hin; rewrite ?elem_of_cons, ?elem_of_nil in Hin.
  all: repeat match goal with H : _ ∨ _ |- _ => destruct H as [H|H] end;
    try discriminate; try done.
  all: inversion Hin; subst; clear Hin.
  all: match goal with
       | |- _ ∧ (∀ _ _ _, _ ∉ _) =>
         split; [done|]; intros ? ? ?; simpl;
         rewrite ?elem_of_cons, ?elem_of_nil; intuition discriminate
       | |- ∃ _, _ =>
         do 4 eexists; (split; [eassumption|]); first [by left|by right]
       end.
Qed.

(** ** Instances of the further properties on the worked examples *)



Lemma RTTweightedPopulationCmp_transitive_off_threshold_witness :
  RTTweightedPopulationCmp (100 * time.Millisecond) (100 * time.Millisecond) 1 1 = false
  ∧ (RTTweightedPopulationCmp (100 * time.Millisecond) (80 * time.Millisecond) 1 5 = true →
     RTTweightedPopulationCmp (80 * time.Millisecond) (85 * time.Millisecond) 5 3 = true →
     RTTweightedPopulationCmp (100 * time.Millisecond) (85 * time.Millisecond) 1 3 = true).
Proof.
  apply (RTTweightedPopulationCmp_transitive_off_threshold
           (100 * time.Millisecond) (80 * time.Millisecond) (85 * time.Millisecond) 1 5 3);
    vm_compute; discriminate.
Defined.

Lemma MatchSort_first_on_endpoint_witness :
  ∃ filtered rtts st',
    MatchSort (worldOf pingAB) demoSession (sessionFor ModeArenaPublic (OtherTeam 0))
              [labelA; labelB] emptySt
    = (inr (filtered, rtts), st')
    ∧ length filtered = length rtts.
Proof.
  edestruct (MatchSort_first_on_endpoint (worldOf pingAB) demoSession
               (sessionFor ModeArenaPublic (OtherTeam 0)) [labelA; labelB] emptySt)
    as [Hlen _];
    [intros A less l; apply insertionSort_perm|vm_compute; reflexivity|].
  eexists _, _, _. split; [|exact Hlen]. vm_compute. reflexivity.
Defined.

Lemma MatchSort_population_order_witness :
  ∃ filtered rtts st',
    MatchSort (worldOf pingAB) demoSession (sessionFor ModeCombatPublic (OtherTeam 0))
              [combatA; combatB] emptySt
    = (inr (filtered, rtts), st')
    ∧ ∀ a b ra rb,
        filtered !! 0%nat = Some a → filtered !! 1%nat = Some b →
        rtts !! 0%nat = Some ra → rtts !! 1%nat = Some rb →
        Size b < Size a ∨ (Size a = Size b ∧ ra ≤ rb).
Proof.
  eexists _, _, _. split; [vm_compute; reflexivity|].
  intros a b ra rb Ha Hb Hra Hrb.
  refine (MatchSort_population_order (worldOf pingAB) demoSession
            (sessionFor ModeCombatPublic (OtherTeam 0)) [combatA; combatB] emptySt
            _ _ _ _ _ _ _ _ 0%nat 1%nat a b ra rb _ Ha Hb Hra Hrb).
  - discriminate.
  - intros A less l. apply insertionSort_perm.
  - intros A less l Hasym Hnegtrans. by apply insertionSort_sorted.
  - apply (bool_decide_unpack _). vm_compute. exact I.
  - vm_compute. reflexivity.
  - lia.
Defined.

Lemma PingEndpoints_without_wait_witness :
  ∃ st',
    PingEndpoints (worldOf (unreachable (λ _, Some (external "broken pipe")))) demoSession
                  (sessionFor ModeArenaPublic (OtherTeam 0)) [demoEndpoint "hostA"] emptySt
    = (inl (external "broken pipe"), st')
    ∧ LatencyCache st' = LatencyCache emptySt.
Proof.
  destruct (PingEndpoints_without_wait
              (worldOf (unreachable (λ _, Some (external "broken pipe")))) demoSession
              (sessionFor ModeArenaPublic (OtherTeam 0)) [demoEndpoint "hostA"] emptySt
              ltac:(discriminate)) as [_ Hsend].
  destruct (Hsend (external "broken pipe") ltac:(discriminate) ltac:(reflexivity))
    as (st' & Hrun & _ & Hcache).
  exists st'. split; [exact Hrun|exact Hcache].
Defined.

Lemma Backfill_selection_sound_witness :
  ∃ selected query st',
    Backfill (worldOf staleFull) demoSession (sessionFor ModeArenaPublic Spectator) emptySt
    = (inr (Some selected, query, None), st')
    ∧ buildMatchQueryFromLabel (worldOf staleFull)
        (Label (sessionFor ModeArenaPublic Spectator))
      = inr query.
Proof.
  edestruct (Backfill_selection_sound (worldOf staleFull) demoSession
               (sessionFor ModeArenaPublic Spectator) emptySt)
    as (Herr & _ & Hquery & _); [vm_compute; reflexivity|].
  eexists _, _, _. split; [|exact Hquery]. vm_compute. reflexivity.
Defined.

Lemma Backfill_search_outcomes_witness :
  ∃ query,
    Backfill (worldOf quietScenario) demoSession (sessionFor ModeArenaPublic (OtherTeam 0))
             emptySt
    = (inr (None, query, None),
       with_trace (λ t, t ++ [EvListMatches 50 1 (MatchMaxSize (worldOf quietScenario) - 1)
                                            query]) emptySt).
Proof.
  eexists.
  refine (proj1 (Backfill_search_outcomes (worldOf quietScenario) demoSession
                   (sessionFor ModeArenaPublic (OtherTeam 0)) emptySt _ _ _) _).
  - reflexivity.
  - vm_compute. reflexivity.
  - reflexivity.
Defined.

Lemma Backfill_probe_failure_witness :
  ∃ query st',
    Backfill (worldOf listedCancelled) demoSession
             (sessionFor ModeArenaPublic (OtherTeam 0)) emptySt
    = (inr (None, query,
            Some (status_Errorf codes.Internal "Failed to filter matches: %v"
                                [ArgError (Some ErrMatchmakingCanceled)])),
       st').
Proof.
  eexists _, _.
  refine (Backfill_probe_failure (worldOf listedCancelled) demoSession
            (sessionFor ModeArenaPublic (OtherTeam 0)) emptySt _
            [ {| am_Size := 6; am_LabelValue := "label-A" |} ] [labelA]
            ErrMatchmakingCanceled _ _ _ _ _ _ _ _).
  - reflexivity.
  - vm_compute. reflexivity.
  - reflexivity.
  - vm_compute. reflexivity.
  - discriminate.
  - vm_compute. reflexivity.
  - reflexivity.
Defined.

Lemma MatchMake_success_requires_witness :
  ∃ ticket evrToken,
    (MatchMake (worldOf quietScenario) demoSession
               (sessionFor ModeArenaPublic (OtherTeam 0)) emptySt).1
    = inr ticket
    ∧ ctxEvrID (worldOf quietScenario) = Some evrToken.
Proof.
  edestruct (MatchMake_success_requires (worldOf quietScenario) demoSession
               (sessionFor ModeArenaPublic (OtherTeam 0)) emptySt)
    as (allRTTs & st1 & built & gconfig & config & evrToken & pID & query & stringProps
        & numericProps & _ & _ & _ & _ & Hevr & _);
    [vm_compute; reflexivity|].
  eexists _, evrToken. split; [|exact Hevr]. vm_compute. reflexivity.
Defined.

Lemma registration_success_sound_witness :
  ∃ st' matchId,
    broadcasterRegistrationRequest (worldOf quietScenario) demoSession demoRequest emptySt
    = (inr (), st')
    ∧ matchBySession st' !! ws_id demoSession = Some matchId.
Proof.
  edestruct (registration_success_sound (worldOf quietScenario) demoSession demoRequest
               emptySt)
    as (discordId & password & tags & guildIds & userId & elapsed & channels & matchId
        & _ & _ & _ & _ & _ & _ & _ & Hmatch & _);
    [vm_compute; reflexivity|].
  eexists _, matchId. split; [|exact Hmatch]. vm_compute. reflexivity.
Defined.

Lemma registration_stored_before_parking_witness :
  is_Some (broadcasterRegistrationBySession
             (broadcasterRegistrationRequest (worldOf quietScenario) demoSession
                                             demoRequest emptySt).2
           !! ws_id demoSession).
Proof.
  eexists.
  refine (proj1 (registration_stored_before_parking (worldOf quietScenario) demoSession
                   demoRequest "discord-1" "secret" [] [] "user-1" "host" emptySt
                   (authenticateBroadcaster (worldOf quietScenario) "discord-1" "secret"
                                            emptySt).2
                   (20 * time.Millisecond) [] _ _ _ _ _)).
  - reflexivity.
  - reflexivity.
  - vm_compute. reflexivity.
  - vm_compute. discriminate.
  - reflexivity.
Defined.


Lemma getBroadcasterHostInfo_sound_witness :
  HostInfo.getBroadcasterHostInfo demoRegistry (λ s, s) "user-1" "discord-1" ["guild-1"]
  = inr ["group-1"]
  ∧ ∃ guildId,
      guildId ∈ ["guild-1"] ∧ Get demoRegistry guildId = Some "group-1".
Proof.
  split; [reflexivity|].
  destruct (proj1 (getBroadcasterHostInfo_sound demoRegistry (λ s, s) "user-1" "discord-1"
                     ["guild-1"] ["group-1"] ltac:(reflexivity) "group-1")
                  ltac:(by left))
    as (guildId & groupId & roles & md & [Hin|[Hnil _]] & _ & _ & Hget & _ & _ & Hchannel).
  - exists guildId. split; [exact Hin|]. rewrite Hget. by rewrite Hchannel.
  - discriminate Hnil.
Defined.

Lemma BroadcasterPortScan_verdicts_witness :
  ∃ rtts errs,
    BroadcasterPortScan (worldOf quietScenario) "198.51.100.7" 6792 6794
                        (500 * time.Millisecond) [6793; 6792; 6794]
    = Some (rtts, errs)
    ∧ Z.of_nat (length errs) = 3.
Proof.
  destruct (BroadcasterPortScan_verdicts (worldOf quietScenario) "198.51.100.7" 6792 6794
              (500 * time.Millisecond) [6793; 6792; 6794]
              ltac:(vm_compute; discriminate) ltac:(vm_compute; apply perm_swap))
    as (rtts & errs & Hrun & Hlen & _).
  exists rtts, errs. split; [exact Hrun|exact Hlen].
Defined.

Lemma BroadcasterRTTcheck_entries_witness :
  ∃ rtts sleeps,
    BroadcasterRTTcheck demoProbes "198.51.100.7" 3 (100 * time.Millisecond)
                        (500 * time.Millisecond)
    = Some (rtts, None, sleeps)
    ∧ Z.of_nat (length rtts) = 3.
Proof.
  destruct (BroadcasterRTTcheck_entries demoProbes "198.51.100.7" 3
              (100 * time.Millisecond) (500 * time.Millisecond)
              ltac:(vm_compute; discriminate))
    as (rtts & sleeps & Hrun & Hlen & _).
  exists rtts, sleeps. split; [exact Hrun|exact Hlen].
Defined.


Lemma checkSuspensionStatus_expiry_witness :
  match checkSuspensionStatus demoRegistry demoRuntime (λ s, s) "user-1" "group-1" with
  | (inr statuses, deleted) => (length statuses + length deleted = 2)%nat
  | (inl _, _) => False
  end.
Proof.
  pose proof (checkSuspensionStatus_expiry demoRegistry demoRuntime (λ s, s) "user-1"
                "group-1" demoMetadata "discord-1" ["host"; "muted"] ["s1"; "s2"]
                [ {| Suspension.Key := "s1"; Suspension.Value := "s1" |};
                  {| Suspension.Key := "s2"; Suspension.Value := "s2" |} ]
                ltac:(discriminate) ltac:(reflexivity) ltac:(reflexivity)
                ltac:(reflexivity)
                ltac:(exists "muted"; split; [by left|by right; left])
                ltac:(reflexivity) ltac:(discriminate) ltac:(reflexivity)
                ltac:(discriminate)) as Hexpiry.
  destruct (checkSuspensionStatus demoRegistry demoRuntime (λ s, s) "user-1" "group-1")
    as [[e|statuses] deleted].
  - destruct Hexpiry as (n & obj & err & Hlook & Hparse & _).
    destruct n as [|[|n]]; simpl in Hlook; inversion Hlook; subst; discriminate Hparse.
  - exact (proj1 Hexpiry).
Defined.

Lemma MatchCreate_success_witness :
  ∃ signals st',
    MatchCreate (worldOf staleFull) demoMatchRegistry demoSession
                (sessionFor ModeArenaPublic (OtherTeam 0)) labelNoMatch emptySt
    = (inr (signals, inr "aaaaaaaa-aaaa-aaaa-aaaa-aaaaaaaaaaaa.node1"), st')
    ∧ length signals = 2%nat.
Proof.
  edestruct (MatchCreate_success (worldOf staleFull) demoMatchRegistry demoSession
               (sessionFor ModeArenaPublic (OtherTeam 0)) labelNoMatch emptySt)
    as (lobbies & st1 & lobby & rest & rtts & st2 & _ & _ & _ & _ & Hsignals & _);
    [vm_compute; reflexivity|].
  eexists _, _. split; [vm_compute; reflexivity|]. by rewrite Hsignals.
Defined.

Lemma JoinEvrMatch_success_witness :
  ∃ effects before,
    JoinEvrMatch (worldOf staleFull) (demoJoinEnv true true "") demoSession "+label.open:T"
                 "aaaaaaaa-aaaa-aaaa-aaaa-aaaaaaaaaaaa" 0
    = (Join.Returns None, effects)
    ∧ effects
      = before
        ++ [Join.StoreMatchBySessionID (ws_id demoSession)
              "aaaaaaaa-aaaa-aaaa-aaaa-aaaaaaaaaaaa.node1";
            Join.StoreMatchByEvrID "OVR-ORG-1"
              "aaaaaaaa-aaaa-aaaa-aaaa-aaaaaaaaaaaa.node1"].
Proof.
  edestruct (JoinEvrMatch_success (worldOf staleFull) (demoJoinEnv true true "")
               demoSession "+label.open:T" "aaaaaaaa-aaaa-aaaa-aaaa-aaaaaaaaaaaa" 0)
    as (_ & _ & _ & evrID & playermeta & isNew & reason & before & Hevr & _ & _ & _
        & Heffects & _);
    [vm_compute; reflexivity|].
  eexists _, before. split; [vm_compute; reflexivity|].
  inversion Hevr; subst evrID. exact Heffects.
Defined.

Lemma JoinEvrMatch_failure_witness :
  ∃ effects,
    JoinEvrMatch (worldOf staleFull) (demoJoinEnv true false "lobby full") demoSession
                 "+label.open:T" "aaaaaaaa-aaaa-aaaa-aaaa-aaaaaaaaaaaa" 0
    = (Join.Returns
         (Some (status_Errorf codes.ResourceExhausted "join not allowed: %s"
                              [ArgString "lobby full"])),
       effects)
    ∧ Forall (λ effect, is_store effect = false) effects.
Proof.
  edestruct (JoinEvrMatch_failure (worldOf staleFull) (demoJoinEnv true false "lobby full")
               demoSession "+label.open:T" "aaaaaaaa-aaaa-aaaa-aaaa-aaaaaaaaaaaa" 0)
    as (Hstores & _); [vm_compute; reflexivity|discriminate|].
  eexists. split; [vm_compute; reflexivity|exact Hstores].
Defined.
